(** * ledmatrix: dual image display with clock and scrolling fact ticker

    A shallow embedding of the three display programs of the repository
    (the plain dual-image viewer, the clock + weather variant and the
    clock + daily fact variant of [examples-api-use/testing.cc]) and the
    properties of their render loops and of the daily fact refresh. *)

From Stdlib Require Import ZArith Lia Bool List Ascii String.
From stdpp Require Import base numbers option list strings gmap.

Local Open Scope Z_scope.

(** ** Machine integers

    The loop counters of the copy loop are [size_t], the offsets are
    [int]: the sum [y + offset_y] is computed in [size_t], whose width
    [bits] depends on the target (32 or 64), and is handed to [SetPixel]
    as a 32-bit [int]. *)

Definition to_size_t (bits : Z) (z : Z) : Z := z mod 2 ^ bits.

Definition to_int (z : Z) : Z := (z + 2 ^ 31) mod 2 ^ 32 - 2 ^ 31.

Definition INT_MAX : Z := 2 ^ 31 - 1.

(** ** Images and the pixel sink *)

(** [Magick::Color], by its four quantum channels. *)
Record Color := mkColor {
  redQuantum : Z;
  greenQuantum : Z;
  blueQuantum : Z;
  alphaQuantum : Z
}.

(** One decoded, scaled frame: [Magick::Image] as far as the programs look
    at it.  [animationDelay] is in hundredths of a second, as Magick
    reports it; the loops store it in an [int]. *)
Record Image := mkImage {
  rows : nat;
  columns : nat;
  pixelColor : Z -> Z -> Color;
  animationDelay : Z
}.

Definition ImageVector := list Image.

(** A colour as the sink stores it. *)
Definition RGB : Type := Z * Z * Z.

(** The pixel sink as the programs see it: something that accepts
    [SetPixel(x, y, r, g, b)]. *)
Class PixelSink (C : Type) := SetPixel : C -> Z -> Z -> Z -> Z -> Z -> C.

(** Modelled from the spec: the pixel sink's [setPixel(x,y,r,g,b)] (the
    header [led-matrix.h] is not among the sources).  The sink stores the
    colour at the addressed coordinate and nowhere else. *)
#[export] Instance canvas_sink : PixelSink (gmap (Z * Z) RGB) :=
  fun canvas x y r g b => <[(x, y) := (r, g, b)]> canvas.

(** A sink that only records the calls it receives, oldest first. *)
#[export] Instance recording_sink : PixelSink (list (Z * Z * RGB)) :=
  fun calls x y r g b => calls ++ [(x, y, (r, g, b))].

(** ** What a render loop does to the outside

    The calls a loop iteration makes on the matrix, the text rasterizer and
    the operating system, in program order.  The frame copied by
    [CopyImageToCanvas] is named by its side and its index in that side's
    image vector. *)

Inductive Side := LeftSide | RightSide.

Inductive Command :=
| DoSetBrightness (brightness : Z)
| DoClear
| DoCopyImage (side : Side) (index : nat) (offset_x offset_y : Z)
| DoDrawClock
| DoBlankBand (y_from y_to : Z)
| DoDrawFactText (text : string) (scroll_offset : Z)
| DoSwapOnVSync
| DoUsleep (usec : Z).

(** The image vector of a side. *)
Definition images_of (side : Side) (left_images right_images : ImageVector)
  : ImageVector :=
  match side with LeftSide => left_images | RightSide => right_images end.

(** The calls of [CopyImageToCanvas] among the commands of an iteration. *)
Definition is_copy_image (c : Command) : bool :=
  match c with
  | DoCopyImage _ _ _ _ => true
  | _ => false
  end.

(** The brightness values an iteration hands to [SetBrightness]. *)
Definition brightness_of (c : Command) : option Z :=
  match c with
  | DoSetBrightness brightness => Some brightness
  | _ => None
  end.

Definition brightness_calls (commands : list Command) : list Z :=
  omap brightness_of commands.

(** ** The frame loop of the animated displays

    [while (!interrupt_received) { for (size_t frame = 0; frame < max_frames;
    ++frame) { if (interrupt_received) break; body } }].
    The interrupt flag is raised from outside.  A run is described by the
    inputs the environment hands to the iterations that are executed before
    the flag is seen, one input per iteration: when the inputs are used up,
    the flag is up. *)

Section FrameLoop.

Context {Tick State Output : Type}.
Variable body : nat -> Tick -> State -> State * Output.
Variable max_frames : nat.

(** The [for] loop from [frame] on; [count] is [max_frames - frame]. *)
Fixpoint for_frames (count frame : nat) (ticks : list Tick) (s : State)
  : list Output * (list Tick * State) :=
  match count, ticks with
  | S count', t :: ticks' =>
      let '(s', out) := body frame t s in
      let '(outs, rest) := for_frames count' (S frame) ticks' s' in
      (out :: outs, rest)
  | _, _ => ([], (ticks, s))
  end.

(** The enclosing [while]: one pass of the [for] loop after the other. *)
Fixpoint while_running (fuel : nat) (ticks : list Tick) (s : State)
  : list Output :=
  match fuel, ticks with
  | S fuel', _ :: _ =>
      let '(outs, (ticks', s')) := for_frames max_frames 0 ticks s in
      outs ++ while_running fuel' ticks' s'
  | _, _ => []
  end.

Definition frame_loop (ticks : list Tick) (s : State) : list Output :=
  while_running (length ticks) ticks s.

End FrameLoop.

(** The same run seen as one sequence of iterations: what the counter
    [frame] is in the iteration after one that had it at [frame]. *)
Definition next_frame (max_frames frame : nat) : nat :=
  if (S frame <? max_frames)%nat then S frame else O.

Fixpoint iterations_from {Tick State Output : Type}
    (body : nat -> Tick -> State -> State * Output) (max_frames frame : nat)
    (ticks : list Tick) (s : State) : list Output :=
  match ticks with
  | [] => []
  | t :: ticks' =>
      let '(s', out) := body frame t s in
      out :: iterations_from body max_frames (next_frame max_frames frame)
                             ticks' s'
  end.

(** A plain [while (!interrupt_received) { body }]. *)
Fixpoint while_loop {Tick State Output : Type}
    (body : Tick -> State -> State * Output) (ticks : list Tick) (s : State)
  : list Output :=
  match ticks with
  | [] => []
  | t :: ticks' =>
      let '(s', out) := body t s in out :: while_loop body ticks' s'
  end.

(** "Default delay if none specified": what the last line of the delay
    computation makes of a value. *)
Definition or_default_delay (delay : Z) : Z :=
  if delay <=? 0 then 10 else delay.

(** [int delay = image.animationDelay()]: the delay of a frame as the
    loops store it. *)
Definition delay_of (image : Image) : Z := to_int (animationDelay image).

(** The per-frame delay of the animated loops, in hundredths of a second.
    [frame < images.size()] and [images[frame]] are one list lookup.  The
    sum [delay + right_delay] is a sum of two [int]s in an [int]: it is
    written as the 32-bit two's complement machine computes it, with its
    wrap-around (in the language an overflowing signed sum is undefined),
    and [/] on [int] truncates. *)
Definition frame_delay (left_images right_images : ImageVector) (frame : nat)
  : Z :=
  let delay :=
    match left_images !! frame with
    | Some image => delay_of image
    | None => 0
    end in
  let delay :=
    match right_images !! frame with
    | Some image =>
        let right_delay := delay_of image in
        if 0 <? delay then Z.quot (to_int (delay + right_delay)) 2
        else right_delay
    | None => delay
    end in
  or_default_delay delay.

(** [usleep(delay * 10000)]: the product is an [int], wrapping like the
    sum, and [usleep] takes it as [useconds_t], an unsigned 32-bit
    number. *)
Definition usleep_usec (delay : Z) : Z :=
  to_size_t 32 (to_int (delay * 10000)).

(** A loaded bitmap font, as far as the loops consult it: the advance
    width [Font::CharacterWidth] reports for a code point. *)
Record Font := mkFont { CharacterWidth : Z -> Z }.

(** ** Compositing a frame

    [CopyImageToCanvas] is the same in the three programs but for the
    second test of its outer [for]: the plain viewer has none, the weather
    variant stops at [IMAGE_HEIGHT], the fact variant at
    [IMAGE_HEIGHT + IMAGE_Y].  [row_limit] is that bound, if there is
    one. *)

Section CopyLoops.

Variable ScaleQuantumToChar : Z -> Z.
Variable size_t_bits : Z.

Context {C : Type} `{PixelSink C}.

(** The inner [for]: the pixels [x], [x+1], ... of row [y]; [remaining]
    is [image.columns() - x].  A pixel is copied if [alphaQuantum() < 256]. *)
Fixpoint copy_pixels (remaining : nat) (x y : Z) (image : Image)
    (canvas : C) (offset_x offset_y : Z) : C :=
  match remaining with
  | O => canvas
  | S remaining' =>
      let c := pixelColor image x y in
      let canvas' :=
        if alphaQuantum c <? 256 then
          SetPixel canvas (to_int (to_size_t size_t_bits (x + offset_x)))
                   (to_int (to_size_t size_t_bits (y + offset_y)))
                   (ScaleQuantumToChar (redQuantum c))
                   (ScaleQuantumToChar (greenQuantum c))
                   (ScaleQuantumToChar (blueQuantum c))
        else canvas in
      copy_pixels remaining' (x + 1) y image canvas' offset_x offset_y
  end.

(** The second test of the outer [for], on the [size_t] sum. *)
Definition row_allowed (row_limit : option Z) (y offset_y : Z) : bool :=
  match row_limit with
  | Some limit =>
      to_size_t size_t_bits (y + offset_y) <? to_size_t size_t_bits limit
  | None => true
  end.

(** The outer [for]: rows [y], [y+1], ... while [y < image.rows()]
    ([remaining] is [image.rows() - y]) and the row is allowed; it ends at
    the first row that is not. *)
Fixpoint copy_lines (row_limit : option Z) (remaining : nat) (y : Z)
    (image : Image) (canvas : C) (offset_x offset_y : Z) : C :=
  match remaining with
  | O => canvas
  | S remaining' =>
      if row_allowed row_limit y offset_y then
        copy_lines row_limit remaining' (y + 1) image
          (copy_pixels (columns image) 0 y image canvas offset_x offset_y)
          offset_x offset_y
      else canvas
  end.

End CopyLoops.

(** A row limit that is an [int] not below 0. *)
Definition limit_in_range (row_limit : option Z) : Prop :=
  match row_limit with
  | Some limit => 0 <= limit < 2 ^ 31
  | None => True
  end.

(** What a copied pixel looks like in the sink. *)
Definition scaled_colour (ScaleQuantumToChar : Z -> Z) (c : Color) : RGB :=
  (ScaleQuantumToChar (redQuantum c), ScaleQuantumToChar (greenQuantum c),
   ScaleQuantumToChar (blueQuantum c)).

(** The canvas cell [(px, py)] shows a pixel of an image placed at
    [(offset_x, offset_y)]: it lies in the image's rectangle, above the
    row limit, and the pixel is one that is copied. *)
Definition shows_pixel (row_limit : option Z) (image : Image)
    (offset_x offset_y px py : Z) : bool :=
  (offset_x <=? px) && (px <? offset_x + Z.of_nat (columns image))
  && (offset_y <=? py) && (py <? offset_y + Z.of_nat (rows image))
  && match row_limit with Some limit => py <? limit | None => true end
  && (alphaQuantum (pixelColor image (px - offset_x) (py - offset_y)) <? 256).

(** ** Start-up

    What [main] meets when it starts: whether the matrix flags parse, the
    argument count left after them, whether the matrix could be created,
    what [LoadFont] makes of a path ([None]: it returns [false]), and the
    frames [LoadImageAndScaleImage] yields for the two file names (none on
    a decode failure). *)
Record Startup := mkStartup {
  flags_parse : bool;
  argc : Z;
  matrix_created : bool;
  LoadFont : string -> option Font;
  left_loaded : ImageVector;
  right_loaded : ImageVector
}.

Inductive Display := StaticDisplay | AnimatedDisplay.

(** "At least one image is animated" chooses the animated loop. *)
Definition choose_display (left_images right_images : ImageVector)
  : Display :=
  let left_animated := (1 <? length left_images)%nat in
  let right_animated := (1 <? length right_images)%nat in
  if negb left_animated && negb right_animated
  then StaticDisplay else AnimatedDisplay.

(** ** The clock + weather variant (first program of [testing.cc]) *)

Module Weather.

(** [main] either returns an exit code before anything is shown, or runs
    one of the two display loops until the interrupt (and then returns 0).
    [font = None] is a [Font] object no file was loaded into: drawing text
    with it shows nothing. *)
Inductive MainResult :=
| Exit (code : Z)
| Shows (display : Display) (font : option Font).

(** "Load font for text rendering": the first path, then the two
    alternatives in turn. *)
Definition load_font (start : Startup) : option Font :=
  match LoadFont start "../fonts/4x6.bdf" with
  | Some font => Some font
  | None =>
      match LoadFont start "fonts/4x6.bdf" with
      | Some font => Some font
      | None => LoadFont start "/usr/share/fonts/misc/4x6.bdf"
      end
  end.

Definition main (start : Startup) : MainResult :=
  if negb (flags_parse start) then Exit 1
  else if (argc start <? 3) || (4 <? argc start) then Exit 1
  else if negb (matrix_created start) then Exit 1
  else
    let font := load_font start in
    match left_loaded start, right_loaded start with
    | [], _ => Exit 1
    | _, [] => Exit 1
    | left_images, right_images =>
        Shows (choose_display left_images right_images) font
    end.

(** *** Layout, compositing and loops of the weather variant *)

Definition MATRIX_WIDTH : Z := 64.
Definition MATRIX_HEIGHT : Z := 32.
Definition LEFT_IMAGE_X : Z := 0.
Definition RIGHT_IMAGE_X : Z := 40.
Definition CLOCK_X : Z := 24.
Definition CLOCK_WIDTH : Z := 16.
Definition IMAGE_HEIGHT : Z := 27.
Definition WEATHER_Y : Z := 28.

Definition CopyImageToCanvas (ScaleQuantumToChar : Z -> Z) (size_t_bits : Z)
    {C : Type} `{PixelSink C} (image : Image) (canvas : C)
    (offset_x offset_y : Z) : C :=
  copy_lines ScaleQuantumToChar size_t_bits (Some IMAGE_HEIGHT)
             (rows image) 0 image canvas offset_x offset_y.

(** What an iteration of a loop of this variant does to the outside. *)
Inductive Call :=
| CallClear
| CallCopyImage (side : Side) (index : nat) (offset_x offset_y : Z)
| CallDrawText (x y : Z) (text : string)
| CallSwapOnVSync
| CallUsleep (usec : Z).

(** "Rough centering": where a text of [len] characters starts. *)
Definition centered_x (len : Z) : Z :=
  CLOCK_X + Z.quot (CLOCK_WIDTH - len * 4) 2.

(** [DrawClock], on the two buffers [strftime] filled. *)
Definition DrawClock (time_buffer date_buffer : string) : list Call :=
  [ CallDrawText (centered_x (Z.of_nat (String.length time_buffer))) 12
                 time_buffer;
    CallDrawText (centered_x (Z.of_nat (String.length date_buffer))) 20
                 date_buffer ].

Definition DrawWeatherText (weather_text : string) (scroll_offset : Z)
  : list Call :=
  [ CallDrawText scroll_offset (WEATHER_Y + 3) weather_text ].

(** "Rough width calculation". *)
Definition weather_width_of (weather_text : string) : Z :=
  Z.of_nat (String.length weather_text) * 4.

(** "Update scroll position". *)
Definition advance_scroll (weather_width scroll_offset : Z) : Z :=
  let moved := scroll_offset - 1 in
  if moved <? - weather_width then MATRIX_WIDTH else moved.

(** What an iteration reads: the two clock texts. *)
Record Tick := mkTick { time_buffer : string; date_buffer : string }.

(** One iteration of [ShowDualStaticImagesWithClock]; the state is
    [scroll_offset]. *)
Definition static_body (weather_text : string) (t : Tick)
    (scroll_offset : Z) : Z * list Call :=
  (advance_scroll (weather_width_of weather_text) scroll_offset,
   [ CallClear;
     CallCopyImage LeftSide 0 LEFT_IMAGE_X 0;
     CallCopyImage RightSide 0 RIGHT_IMAGE_X 0 ]
   ++ DrawClock (time_buffer t) (date_buffer t)
   ++ DrawWeatherText weather_text scroll_offset
   ++ [ CallUsleep 100000 ]).

Definition ShowDualStaticImagesWithClock (weather_text : string)
    (ticks : list Tick) : list (list Call) :=
  while_loop (static_body weather_text) ticks MATRIX_WIDTH.

(** One iteration of the [for] loop of [ShowDualAnimatedImagesWithClock]. *)
Definition animated_body (left_images right_images : ImageVector)
    (weather_text : string) (frame : nat) (t : Tick) (scroll_offset : Z)
  : Z * list Call :=
  (advance_scroll (weather_width_of weather_text) scroll_offset,
   [ CallClear;
     CallCopyImage LeftSide (frame mod length left_images)%nat
                   LEFT_IMAGE_X 0;
     CallCopyImage RightSide (frame mod length right_images)%nat
                   RIGHT_IMAGE_X 0 ]
   ++ DrawClock (time_buffer t) (date_buffer t)
   ++ DrawWeatherText weather_text scroll_offset
   ++ [ CallSwapOnVSync;
        CallUsleep (usleep_usec (frame_delay left_images right_images frame)) ]).

Definition ShowDualAnimatedImagesWithClock
    (left_images right_images : ImageVector) (weather_text : string)
    (ticks : list Tick) : list (list Call) :=
  let max_frames := Nat.max (length left_images) (length right_images) in
  frame_loop (animated_body left_images right_images weather_text)
             max_frames ticks MATRIX_WIDTH.

(** The positions at which an iteration draws the weather text. *)
Definition weather_text_at (weather_text : string) (calls : list Call)
  : list Z :=
  omap (fun call =>
          match call with
          | CallDrawText x y text =>
              if (y =? WEATHER_Y + 3) && String.eqb text weather_text
              then Some x else None
          | _ => None
          end) calls.

End Weather.

(** ** The plain dual image viewer *)

Module Dual.

Definition LEFT_IMAGE_X : Z := 0.
Definition RIGHT_IMAGE_X : Z := 40.

(** One iteration of the [for] loop of [ShowDualAnimatedImages]. *)
Definition animated_body (left_images right_images : ImageVector)
    (frame : nat) (_ : unit) (s : unit) : unit * list Command :=
  (s, [ DoClear;
        DoCopyImage LeftSide (frame mod length left_images)%nat LEFT_IMAGE_X 0;
        DoCopyImage RightSide (frame mod length right_images)%nat
                    RIGHT_IMAGE_X 0;
        DoSwapOnVSync;
        DoUsleep (usleep_usec (frame_delay left_images right_images frame)) ]).

(** [ShowDualAnimatedImages], run for [iterations] iterations before the
    interrupt arrives. *)
Definition ShowDualAnimatedImages (left_images right_images : ImageVector)
    (iterations : nat) : list (list Command) :=
  let max_frames := Nat.max (length left_images) (length right_images) in
  frame_loop (animated_body left_images right_images) max_frames
             (replicate iterations tt) tt.

(** [CopyImageToCanvas] of the plain viewer: every row of the image. *)
Definition CopyImageToCanvas (ScaleQuantumToChar : Z -> Z) (size_t_bits : Z)
    {C : Type} `{PixelSink C} (image : Image) (canvas : C)
    (offset_x offset_y : Z) : C :=
  copy_lines ScaleQuantumToChar size_t_bits None
             (rows image) 0 image canvas offset_x offset_y.

(** [main] of the plain viewer: it wants exactly the two file names. *)
Inductive MainResult :=
| Exit (code : Z)
| Shows (display : Display).

Definition main (start : Startup) : MainResult :=
  if negb (flags_parse start) then Exit 1
  else if negb (argc start =? 3) then Exit 1
  else if negb (matrix_created start) then Exit 1
  else
    match left_loaded start, right_loaded start with
    | [], _ => Exit 1
    | _, [] => Exit 1
    | left_images, right_images =>
        Shows (choose_display left_images right_images)
    end.

End Dual.

(** ** The daily fact variant (second program of [testing.cc]) *)

Module Facts.

Definition MATRIX_WIDTH : Z := 64.
Definition MATRIX_HEIGHT : Z := 32.
Definition LEFT_IMAGE_WIDTH : Z := 18.
Definition RIGHT_IMAGE_WIDTH : Z := 18.
Definition LEFT_IMAGE_X : Z := 0.
Definition RIGHT_IMAGE_X : Z := 46.
Definition GAP_WIDTH : Z := 28.
Definition CLOCK_X : Z := 18.
Definition CLOCK_WIDTH : Z := 28.
Definition IMAGE_HEIGHT : Z := 21.
Definition IMAGE_Y : Z := 1.
Definition WEATHER_Y : Z := 28.

Section Copy.

(** [ScaleQuantumToChar] is a macro of the image library whose value
    depends on the quantum depth it was built with. *)
Variable ScaleQuantumToChar : Z -> Z.

(** The width of [size_t] on the target. *)
Variable size_t_bits : Z.

Context {C : Type} `{PixelSink C}.

(** The inner [for] of [CopyImageToCanvas]: columns [x], [x+1], ... of row
    [y]; [remaining] is [image.columns() - x]. *)
Fixpoint copy_columns (remaining : nat) (x y : Z) (image : Image)
    (canvas : C) (offset_x offset_y : Z) : C :=
  match remaining with
  | O => canvas
  | S remaining' =>
      let c := pixelColor image x y in
      let canvas' :=
        if alphaQuantum c <? 256 then
          SetPixel canvas (to_int (to_size_t size_t_bits (x + offset_x)))
                   (to_int (to_size_t size_t_bits (y + offset_y)))
                   (ScaleQuantumToChar (redQuantum c))
                   (ScaleQuantumToChar (greenQuantum c))
                   (ScaleQuantumToChar (blueQuantum c))
        else canvas in
      copy_columns remaining' (x + 1) y image canvas' offset_x offset_y
  end.

(** The outer [for]: it runs while [y < image.rows()] (tracked by
    [remaining = image.rows() - y]) and
    [y + offset_y < IMAGE_HEIGHT + IMAGE_Y], and stops at the first [y]
    that fails the test. *)
Fixpoint copy_rows (remaining : nat) (y : Z) (image : Image)
    (canvas : C) (offset_x offset_y : Z) : C :=
  match remaining with
  | O => canvas
  | S remaining' =>
      if to_size_t size_t_bits (y + offset_y)
         <? to_size_t size_t_bits (IMAGE_HEIGHT + IMAGE_Y) then
        copy_rows remaining' (y + 1) image
          (copy_columns (columns image) 0 y image canvas offset_x offset_y)
          offset_x offset_y
      else canvas
  end.

Definition CopyImageToCanvas (image : Image) (canvas : C)
    (offset_x offset_y : Z) : C :=
  copy_rows (rows image) 0 image canvas offset_x offset_y.

End Copy.

(** [GetStringWidth]: the widths of the bytes of [text], summed. *)
Fixpoint GetStringWidth (font : Font) (text : string) : Z :=
  match text with
  | EmptyString => 0
  | String c text' =>
      CharacterWidth font (Z.of_N (Ascii.N_of_ascii c))
      + GetStringWidth font text'
  end.

(** [IsDimHoursEST], on the hour and minute of the local time it reads. *)
Definition IsDimHoursEST (hour min : Z) : bool :=
  ((hour =? 23) && (30 <=? min)) || (hour <? 8).

(** What one iteration of a render loop reads from its environment:
    [time(nullptr)], the local hour and minute seen by [IsDimHoursEST], the
    [strftime] rendering of the time, and the text [GetCurrentFact] copies
    out of the shared slot. *)
Record Tick := mkTick {
  now : Z;
  tm_hour : Z;
  tm_min : Z;
  current_time_str : string;
  current_fact_text : string
}.

(** The local variables the render loops carry from one iteration to the
    next. *)
Record RenderState := mkRenderState {
  scroll_offset : Z;
  last_fact_text : string;
  fact_width : Z;
  last_brightness_check : Z;
  last_brightness : Z;
  last_time_str : string;
  last_scroll_offset : Z
}.

Definition initial_state : RenderState :=
  {| scroll_offset := MATRIX_WIDTH;
     last_fact_text := "";
     fact_width := 0;
     last_brightness_check := 0;
     last_brightness := -1;
     last_time_str := "";
     last_scroll_offset := -1 |}.

(** The brightness block at the top of both loops; [interval] is 1800 in
    the static loop and 60 in the animated one. *)
Definition check_brightness (interval : Z) (t : Tick) (s : RenderState)
  : RenderState * list Command :=
  if interval <=? now t - last_brightness_check s then
    let brightness := if IsDimHoursEST (tm_hour t) (tm_min t) then 10 else 100 in
    if negb (brightness =? last_brightness s) then
      ({| scroll_offset := scroll_offset s;
          last_fact_text := last_fact_text s;
          fact_width := fact_width s;
          last_brightness_check := now t;
          last_brightness := brightness;
          last_time_str := last_time_str s;
          last_scroll_offset := last_scroll_offset s |},
       [DoSetBrightness brightness])
    else
      ({| scroll_offset := scroll_offset s;
          last_fact_text := last_fact_text s;
          fact_width := fact_width s;
          last_brightness_check := now t;
          last_brightness := last_brightness s;
          last_time_str := last_time_str s;
          last_scroll_offset := last_scroll_offset s |},
       [])
  else (s, []).

(** "Check if fact changed": a new text restarts the ticker at the right
    edge and has its width measured. *)
Definition observe_fact (fact_font : Font) (t : Tick) (s : RenderState)
  : RenderState :=
  if negb (String.eqb (current_fact_text t) (last_fact_text s)) then
    {| scroll_offset := MATRIX_WIDTH;
       last_fact_text := current_fact_text t;
       fact_width := GetStringWidth fact_font (current_fact_text t);
       last_brightness_check := last_brightness_check s;
       last_brightness := last_brightness s;
       last_time_str := last_time_str s;
       last_scroll_offset := last_scroll_offset s |}
  else s.

(** "Update scroll position": [scroll_offset--] and the wrap to the right
    edge. *)
Definition advance_scroll (s : RenderState) : RenderState :=
  let moved := scroll_offset s - 1 in
  {| scroll_offset := if moved <? - fact_width s then MATRIX_WIDTH else moved;
     last_fact_text := last_fact_text s;
     fact_width := fact_width s;
     last_brightness_check := last_brightness_check s;
     last_brightness := last_brightness s;
     last_time_str := last_time_str s;
     last_scroll_offset := last_scroll_offset s |}.

Definition set_last_time_str (str : string) (s : RenderState) : RenderState :=
  {| scroll_offset := scroll_offset s;
     last_fact_text := last_fact_text s;
     fact_width := fact_width s;
     last_brightness_check := last_brightness_check s;
     last_brightness := last_brightness s;
     last_time_str := str;
     last_scroll_offset := last_scroll_offset s |}.

Definition set_last_scroll_offset (z : Z) (s : RenderState) : RenderState :=
  {| scroll_offset := scroll_offset s;
     last_fact_text := last_fact_text s;
     fact_width := fact_width s;
     last_brightness_check := last_brightness_check s;
     last_brightness := last_brightness s;
     last_time_str := last_time_str s;
     last_scroll_offset := z |}.

(** One iteration of the [while] loop of [ShowDualStaticImagesWithClock]. *)
Definition static_body (fact_font : Font) (t : Tick) (s : RenderState)
  : RenderState * list Command :=
  let '(s1, set_brightness) := check_brightness 1800 t s in
  let s2 := observe_fact fact_font t s1 in
  let time_changed :=
    negb (String.eqb (current_time_str t) (last_time_str s2)) in
  let s3 :=
    if time_changed then set_last_time_str (current_time_str t) s2 else s2 in
  let draws :=
    (if time_changed then [DoClear] else [])
    ++ [ DoCopyImage LeftSide 0 LEFT_IMAGE_X IMAGE_Y;
         DoCopyImage RightSide 0 RIGHT_IMAGE_X IMAGE_Y;
         DoDrawClock;
         DoBlankBand 20 MATRIX_HEIGHT;
         DoDrawFactText (current_fact_text t) (scroll_offset s3);
         DoSwapOnVSync ] in
  (advance_scroll s3, set_brightness ++ draws ++ [DoUsleep 8000]).

Definition ShowDualStaticImagesWithClock (fact_font : Font)
    (ticks : list Tick) : list (list Command) :=
  while_loop (static_body fact_font) ticks initial_state.

(** One iteration of the [for] loop of [ShowDualAnimatedImagesWithClock]. *)
Definition animated_body (left_images right_images : ImageVector)
    (fact_font : Font) (frame : nat) (t : Tick) (s : RenderState)
  : RenderState * list Command :=
  let '(s1, set_brightness) := check_brightness 60 t s in
  let s2 := observe_fact fact_font t s1 in
  let redraw :=
    negb (String.eqb (current_time_str t) (last_time_str s2))
    || negb (String.eqb (current_fact_text t) (last_fact_text s2))
    || negb (scroll_offset s2 =? last_scroll_offset s2) in
  let s3 :=
    if redraw then
      set_last_scroll_offset (scroll_offset s2)
        (set_last_time_str (current_time_str t) s2)
    else s2 in
  let draws :=
    if redraw then
      [ DoClear;
        DoCopyImage LeftSide (frame mod length left_images)%nat
                    LEFT_IMAGE_X IMAGE_Y;
        DoCopyImage RightSide (frame mod length right_images)%nat
                    RIGHT_IMAGE_X IMAGE_Y;
        DoDrawClock;
        DoDrawFactText (current_fact_text t) (scroll_offset s2);
        DoSwapOnVSync ]
    else [] in
  (advance_scroll s3,
   set_brightness ++ draws
   ++ [DoUsleep (usleep_usec (frame_delay left_images right_images frame))]).

Definition ShowDualAnimatedImagesWithClock
    (left_images right_images : ImageVector) (fact_font : Font)
    (ticks : list Tick) : list (list Command) :=
  let max_frames := Nat.max (length left_images) (length right_images) in
  frame_loop (animated_body left_images right_images fact_font) max_frames
             ticks initial_state.

(** *** The daily fact: cache, fetch, retry and the refresh thread *)

(** How one request to the fact endpoint ends, in the order the code tells
    the cases apart. *)
Inductive NetOutcome :=
| CurlInitFailed
| CurlError
| JsonParseError
| TextMissing
| TextNotConvertible
| TextField (text : string).

(** What the refresh code reads from outside: the local date at its k-th
    reading of the clock, the outcome of its k-th call of the endpoint,
    and whether a cache file can be opened for writing. *)
Record Env := mkEnv {
  dates : nat -> string;
  net : nat -> NetOutcome;
  can_write : string -> bool
}.

(** The lines the refresh code prints and the sleeps it takes. *)
Inductive Event :=
| LoadedCachedFact (today : string)
| FetchingFromApi (today : string)
| ErrorReported (message : string)
| CachedFact (today : string)
| AttemptFailed (attempt wait_seconds : Z)
| Slept (seconds : Z)
| NewDayDetected (current_date last_date : string)
| FactLoaded (current_date new_fact : string)
| KeepingCurrentFact
| ExceptionInFactUpdate.

(** The state the refresh code works on: the shared slot [current_fact],
    the files of the cache directory by path, how often the clock and the
    endpoint have been consulted, and what has been printed so far. *)
Record World := mkWorld {
  current_fact : string;
  files : gmap string string;
  clock_reads : nat;
  api_calls : nat;
  log : list Event
}.

(** A call either returns or throws; either way it leaves a world. *)
Inductive Result (A : Type) :=
| Ok (a : A)
| Raise.

Arguments Ok {A} a.
Arguments Raise {A}.

Definition M (A : Type) : Type := World -> Result A * World.

Definition ret {A : Type} (a : A) : M A := fun w => (Ok a, w).

Definition raise {A : Type} : M A := fun w => (Raise, w).

Definition bind {A B : Type} (c : M A) (k : A -> M B) : M B :=
  fun w =>
    match c w with
    | (Ok a, w') => k a w'
    | (Raise, w') => (Raise, w')
    end.

Notation "'let*' x ':=' c 'in' k" := (bind c (fun x => k))
  (at level 10, x name, c at level 100, k at level 200, only parsing).

Definition emit (e : Event) : M unit :=
  fun w =>
    (Ok tt,
     {| current_fact := current_fact w; files := files w;
        clock_reads := clock_reads w; api_calls := api_calls w;
        log := log w ++ [e] |}).

(** [GetTodayDateLocal]: one reading of the clock. *)
Definition GetTodayDateLocal (E : Env) : M string :=
  fun w =>
    (Ok (dates E (clock_reads w)),
     {| current_fact := current_fact w; files := files w;
        clock_reads := S (clock_reads w); api_calls := api_calls w;
        log := log w |}).

(** One request to the endpoint. *)
Definition call_api (E : Env) : M NetOutcome :=
  fun w =>
    (Ok (net E (api_calls w)),
     {| current_fact := current_fact w; files := files w;
        clock_reads := clock_reads w; api_calls := S (api_calls w);
        log := log w |}).

Definition read_file (path : string) : M (option string) :=
  fun w => (Ok (files w !! path), w).

Definition write_file (path content : string) : M unit :=
  fun w =>
    (Ok tt,
     {| current_fact := current_fact w; files := <[path := content]> (files w);
        clock_reads := clock_reads w; api_calls := api_calls w;
        log := log w |}).

(** The assignment to [current_fact] under [fact_mutex]. *)
Definition publish (text : string) : M unit :=
  fun w =>
    (Ok tt,
     {| current_fact := text; files := files w;
        clock_reads := clock_reads w; api_calls := api_calls w;
        log := log w |}).

(** The clean-up of the fetched text "for LED display". *)

Definition is_space (c : Ascii.ascii) : bool := Ascii.eqb c " "%char.

(** [std::replace(begin, end, from, ' ')]. *)
Fixpoint replace_with_space (from : Ascii.ascii) (text : string) : string :=
  match text with
  | EmptyString => EmptyString
  | String c text' =>
      String (if Ascii.eqb c from then " "%char else c)
             (replace_with_space from text')
  end.

(** The [find("  ", pos)] / [replace(pos, 2, " ")] loop: wherever two
    spaces meet, one goes and the search resumes at the same place. *)
Fixpoint collapse_spaces (text : string) : string :=
  match text with
  | EmptyString => EmptyString
  | String c text' =>
      match text' with
      | String c' _ =>
          if is_space c && is_space c' then collapse_spaces text'
          else String c (collapse_spaces text')
      | EmptyString => String c EmptyString
      end
  end.

(** [erase(0, find_first_not_of(" "))]. *)
Fixpoint trim_left (text : string) : string :=
  match text with
  | EmptyString => EmptyString
  | String c text' => if is_space c then trim_left text' else text
  end.

(** [erase(find_last_not_of(" ") + 1)]. *)
Fixpoint trim_right (text : string) : string :=
  match text with
  | EmptyString => EmptyString
  | String c text' =>
      match trim_right text' with
      | EmptyString => if is_space c then EmptyString else String c EmptyString
      | kept => String c kept
      end
  end.

Definition limit_length (text : string) : string :=
  if (150 <? String.length text)%nat
  then String.substring 0 147 text +:+ "..."
  else text.

Definition fact_prefix : string := "Today's fact: ".

Definition clean_fact_text (text : string) : string :=
  let text := replace_with_space (Ascii.ascii_of_nat 10) text in
  let text := replace_with_space (Ascii.ascii_of_nat 13) text in
  let text := collapse_spaces text in
  let text := trim_right (trim_left text) in
  fact_prefix +:+ limit_length text.

Definition cache_dir : string := "/tmp/cats-cache".

Definition cache_path_of (today : string) : string :=
  cache_dir +:+ "/" +:+ today +:+ ".txt".

(** The second half of [FetchOrLoadFactOfTheDay]: "If not cached or cache
    is empty, fetch from API", clean the text up and save it. *)
Definition fetch_from_api (E : Env) (today : string) : M string :=
  let* _ := emit (FetchingFromApi today) in
  let* outcome := call_api E in
  match outcome with
  | CurlInitFailed =>
      let* _ := emit (ErrorReported "Failed to initialize CURL") in
      ret "Could not fetch fact"
  | CurlError =>
      let* _ := emit (ErrorReported "CURL error") in
      ret "Could not fetch today's fact"
  | JsonParseError =>
      let* _ := emit (ErrorReported "JSON parse error") in
      ret "Error parsing today's fact"
  | TextMissing => ret "Today's fact not found in response"
  | TextNotConvertible => raise
  | TextField text =>
      let fact_text := clean_fact_text text in
      let* _ :=
        if can_write E (cache_path_of today) then
          let* _ := write_file (cache_path_of today) fact_text in
          emit (CachedFact today)
        else ret tt in
      ret fact_text
  end.

(** [FetchOrLoadFactOfTheDay]: "Try to load from cache first".  A cache
    file that is absent or empty is no hit.  (Creating the cache directory
    is taken to succeed.) *)
Definition FetchOrLoadFactOfTheDay (E : Env) : M string :=
  let* today := GetTodayDateLocal E in
  let* cached := read_file (cache_path_of today) in
  match cached with
  | Some cached_fact =>
      if negb (String.eqb cached_fact "") then
        let* _ := emit (LoadedCachedFact today) in
        ret cached_fact
      else fetch_from_api E today
  | None => fetch_from_api E today
  end.

(** [fact.rfind("Today's fact:", 0) == 0]: the text starts with the
    label. *)
Definition is_valid_fact (fact : string) : bool :=
  String.prefix "Today's fact:" fact.

Definition retries_exhausted : string := "Could not fetch fact after retries".

(** The [for] loop of [FetchFactWithRetry] from [attempt] on; [remaining]
    is the number of values [attempt] still takes up to [max_retries]. *)
Fixpoint retry_from (E : Env) (remaining : nat) (attempt wait_seconds : Z)
  : M string :=
  match remaining with
  | O => ret retries_exhausted
  | S remaining' =>
      let* fact := FetchOrLoadFactOfTheDay E in
      if is_valid_fact fact then ret fact
      else
        let* _ := emit (AttemptFailed attempt wait_seconds) in
        let* _ := emit (Slept wait_seconds) in
        retry_from E remaining' (attempt + 1) wait_seconds
  end.

Definition FetchFactWithRetry (E : Env) (max_retries wait_seconds : Z)
  : M string :=
  retry_from E (Z.to_nat max_retries) 1 wait_seconds.

(** The test [FactUpdateThread] applies before it publishes. *)
Definition worth_publishing (new_fact : string) : bool :=
  negb (String.eqb new_fact "")
  && negb (String.eqb new_fact "Could not fetch today's fact")
  && negb (String.eqb new_fact "Error parsing today's fact")
  && negb (String.eqb new_fact "Today's fact not found in response").

(** The [try] block of one wake of [FactUpdateThread]; it returns the
    value [last_date] has at its end. *)
Definition fact_update_try (E : Env) (last_date : string) : M string :=
  let* current_date := GetTodayDateLocal E in
  if negb (String.eqb current_date last_date) then
    let* _ := emit (NewDayDetected current_date last_date) in
    let* new_fact := FetchFactWithRetry E 6 10 in
    let* _ :=
      if worth_publishing new_fact then
        let* _ := publish new_fact in
        emit (FactLoaded current_date new_fact)
      else emit KeepingCurrentFact in
    ret current_date
  else ret last_date.

(** One wake: the [try] block, the [catch] that only reports, and the
    half-hour sleep. *)
Definition fact_update_wake (E : Env) (last_date : string) (w : World)
  : string * World :=
  let '(last_date', w') :=
    match fact_update_try E last_date w with
    | (Ok date, w1) => (date, w1)
    | (Raise, w1) => (last_date, snd (emit ExceptionInFactUpdate w1))
    end in
  (last_date', snd (emit (Slept 1800) w')).

(** The loop of [FactUpdateThread] for the [wakes] iterations it makes
    before it sees [should_stop_fact_thread]. *)
Fixpoint fact_update_loop (E : Env) (wakes : nat) (last_date : string)
    (w : World) : string * World :=
  match wakes with
  | O => (last_date, w)
  | S wakes' =>
      let '(last_date', w') := fact_update_wake E last_date w in
      fact_update_loop E wakes' last_date' w'
  end.

Definition FactUpdateThread (E : Env) (wakes : nat) (w : World) : World :=
  snd (fact_update_loop E wakes "" w).

(** The number of calls of [FetchOrLoadFactOfTheDay] a log shows: each
    call prints exactly one of its two opening lines. *)
Definition is_fetch_attempt (e : Event) : bool :=
  match e with
  | LoadedCachedFact _ | FetchingFromApi _ => true
  | _ => false
  end.

Definition fetch_attempts (events : list Event) : nat :=
  length (filter (fun e => is_fetch_attempt e = true) events).

(** [DrawClock] of this variant: where a text of [len] characters starts
    ("approximate character width of 4 pixels"). *)
Definition centered_x (len : Z) : Z :=
  CLOCK_X + Z.quot (CLOCK_WIDTH - len * 4) 2 - 2.

(** *** Start-up of the fact variant *)

Inductive MainResult :=
| Exit (code : Z)
| Shows (display : Display) (font fact_font : Font).

(** The ticker font: 6x13, then 6x9, then 5x8, and the clock font when
    none of them loads ([fact_font_ptr = &font]). *)
Definition load_fact_font (start : Startup) (font : Font) : Font :=
  match LoadFont start "/opt/cats-display/fonts/6x13.bdf" with
  | Some fact_font => fact_font
  | None =>
      match LoadFont start "/opt/cats-display/fonts/6x9.bdf" with
      | Some fact_font => fact_font
      | None =>
          match LoadFont start "/opt/cats-display/fonts/5x8.bdf" with
          | Some fact_font => fact_font
          | None => font
          end
      end
  end.

Definition main (start : Startup) : MainResult :=
  if negb (flags_parse start) then Exit 1
  else if argc start <? 3 then Exit 1
  else if negb (matrix_created start) then Exit 1
  else
    match LoadFont start "/opt/cats-display/fonts/5x7.bdf" with
    | None => Exit 1
    | Some font =>
        let fact_font := load_fact_font start font in
        match left_loaded start, right_loaded start with
        | [], _ => Exit 1
        | _, [] => Exit 1
        | left_images, right_images =>
            Shows (choose_display left_images right_images) font fact_font
        end
    end.

End Facts.

(** ** The attempts of a retry sequence

    The world [FetchFactWithRetry] continues in after an attempt that did
    not yield a fact: it has reported the failure and slept. *)
Definition after_failed_attempt (attempt wait_seconds : Z) (w : Facts.World)
  : Facts.World :=
  (Facts.emit (Facts.Slept wait_seconds)
     (Facts.emit (Facts.AttemptFailed attempt wait_seconds) w).2).2.

(** The first [n] attempts of a retry sequence that starts in [w] with
    attempt number [attempt], none of them being taken for a success:
    what each call of [FetchOrLoadFactOfTheDay] gives, and the world right
    after it. *)
Fixpoint attempts (E : Facts.Env) (n : nat) (attempt wait_seconds : Z)
    (w : Facts.World) : list (Facts.Result string * Facts.World) :=
  match n with
  | O => []
  | S n' =>
      let made := Facts.FetchOrLoadFactOfTheDay E w in
      made :: attempts E n' (attempt + 1) wait_seconds
                (after_failed_attempt attempt wait_seconds made.2)
  end.

(** An attempt that returned a text without the label. *)
Definition attempt_failed (made : Facts.Result string * Facts.World) : Prop :=
  exists fact : string,
    made.1 = Facts.Ok fact /\ Facts.is_valid_fact fact = false.

(** ** Ordered font fallback

    An ordered list of font paths stands for: the first of them that
    loads, if any does. *)
Fixpoint first_loadable (start : Startup) (paths : list string) : option Font :=
  match paths with
  | [] => None
  | path :: paths' =>
      match LoadFont start path with
      | Some font => Some font
      | None => first_loadable start paths'
      end
  end.

Definition weather_font_paths : list string :=
  [ "../fonts/4x6.bdf"; "fonts/4x6.bdf"; "/usr/share/fonts/misc/4x6.bdf" ].

Definition clock_font_path : string := "/opt/cats-display/fonts/5x7.bdf".

Definition fact_font_paths : list string :=
  [ "/opt/cats-display/fonts/6x13.bdf"; "/opt/cats-display/fonts/6x9.bdf";
    "/opt/cats-display/fonts/5x8.bdf" ].

(** ** The brightness policy of a run

    [ticks] are the inputs of a run's iterations and [run] what each
    iteration did.  The policy: an iteration sets the brightness at most
    once; two iterations that set it are at least [interval] seconds apart
    by the clock the loop reads; and a value that is set differs from the
    one set by the call before it. *)
Definition brightness_policy_holds (interval : Z) (ticks : list Facts.Tick)
    (run : list (list Command)) : Prop :=
  (forall (i : nat) (c : list Command),
      run !! i = Some c -> (length (brightness_calls c) <= 1)%nat)
  /\ (forall (i j : nat) (ti tj : Facts.Tick) (ci cj : list Command),
        (i < j)%nat ->
        ticks !! i = Some ti -> ticks !! j = Some tj ->
        run !! i = Some ci -> run !! j = Some cj ->
        brightness_calls ci <> [] -> brightness_calls cj <> [] ->
        interval <= Facts.now tj - Facts.now ti)
  /\ (forall (i j : nat) (ci cj : list Command) (bi bj : Z),
        (i < j)%nat ->
        run !! i = Some ci -> run !! j = Some cj ->
        bi ∈ brightness_calls ci -> bj ∈ brightness_calls cj ->
        (forall (k : nat) (ck : list Command),
            (i < k < j)%nat -> run !! k = Some ck ->
            brightness_calls ck = []) ->
        bi <> bj).

(** ** The ticker state a render loop of the fact variant keeps

    The width on record is that of the text on record, and the offset is
    at the right edge or between there and the text's whole width to the
    left of the matrix. *)
Definition ticker_in_range (fact_font : Font) (s : Facts.RenderState)
  : Prop :=
  Facts.fact_width s = Facts.GetStringWidth fact_font (Facts.last_fact_text s)
  /\ Facts.scroll_offset s <= Facts.MATRIX_WIDTH
  /\ (Facts.scroll_offset s = Facts.MATRIX_WIDTH
      \/ - Facts.fact_width s <= Facts.scroll_offset s).

(** ** Conditions on the refresh code's surroundings *)

(** A request that ends in one of the four failures the code reports with
    a text. *)
Definition request_fails (outcome : Facts.NetOutcome) : bool :=
  match outcome with
  | Facts.CurlInitFailed | Facts.CurlError | Facts.JsonParseError
  | Facts.TextMissing => true
  | Facts.TextNotConvertible | Facts.TextField _ => false
  end.

(** No date has a fact in the cache: its file is absent or empty. *)
Definition nothing_cached (cache : gmap string string) : Prop :=
  forall today : string,
    cache !! Facts.cache_path_of today = None
    \/ cache !! Facts.cache_path_of today = Some "".

(** What the cache may hold after the code has run, compared with what it
    held before: every file is as it was or holds a labelled fact. *)
Definition cache_grown_by_facts (before after : gmap string string) : Prop :=
  forall (path text : string),
    after !! path = Some text ->
    before !! path = Some text \/ Facts.is_valid_fact text = true.

(** ** Shapes of a text *)

(** Every character of the text passes the test. *)
Fixpoint string_forall (P : Ascii.ascii -> bool) (text : string) : bool :=
  match text with
  | EmptyString => true
  | String c text' => P c && string_forall P text'
  end.

(** The text does not begin with a space. *)
Definition no_leading_space (text : string) : bool :=
  match text with
  | EmptyString => true
  | String c _ => negb (Facts.is_space c)
  end.

(** No two spaces of the text are neighbours. *)
Fixpoint no_double_space (text : string) : bool :=
  match text with
  | EmptyString => true
  | String c text' =>
      negb (Facts.is_space c && negb (no_leading_space text'))
      && no_double_space text'
  end.

(** Neither a line feed nor a carriage return. *)
Definition not_line_break (c : Ascii.ascii) : bool :=
  negb (Ascii.eqb c (Ascii.ascii_of_nat 10))
  && negb (Ascii.eqb c (Ascii.ascii_of_nat 13)).

(** * Example inputs *)

(** A frame 30 rows high and fully opaque white. *)
Definition tall_white_image : Image :=
  {| rows := 30; columns := 2;
     pixelColor := fun _ _ => mkColor 255 255 255 0;
     animationDelay := 0 |}.

(** A one-pixel black frame with the given display delay. *)
Definition frame_with_delay (delay : Z) : Image :=
  {| rows := 1; columns := 1;
     pixelColor := fun _ _ => mkColor 0 0 0 0;
     animationDelay := delay |}.

(** A 6-pixel-wide font, a moment of a run, and a ticker about to leave
    the matrix on the left. *)
Definition font_6_wide : Font := {| CharacterWidth := fun _ => 6 |}.

Definition tick_at (seconds hour min : Z) (fact : string) : Facts.Tick :=
  {| Facts.now := seconds; Facts.tm_hour := hour; Facts.tm_min := min;
     Facts.current_time_str := "12:00"; Facts.current_fact_text := fact |}.

Definition ticker_leaving : Facts.RenderState :=
  {| Facts.scroll_offset := -12;
     Facts.last_fact_text := "hi";
     Facts.fact_width := 12;
     Facts.last_brightness_check := 1000000;
     Facts.last_brightness := 100;
     Facts.last_time_str := "12:00";
     Facts.last_scroll_offset := -11 |}.

(** Three iterations whose dim/bright decision toggles: noon, then
    midnight 30 seconds later, then midnight 61 seconds after the first. *)
Definition toggling_ticks : list Facts.Tick :=
  [ tick_at 1000000 12 0 "hi"; tick_at 1000030 0 0 "hi";
    tick_at 1000061 0 0 "hi" ].

(** A start-up at which the flags parse, two file names are given, the
    matrix is there and both images decode (to one frame each), with a
    given font directory. *)
Definition startup_with (fonts : string -> option Font) : Startup :=
  {| flags_parse := true; argc := 3; matrix_created := true;
     LoadFont := fonts;
     left_loaded := [frame_with_delay 0];
     right_loaded := [frame_with_delay 0] |}.

(** The refresh code on 2 January 2024 with an empty cache directory: with
    the network down; and with a network that answers the second request. *)
Definition offline : Facts.Env :=
  {| Facts.dates := fun _ => "2024-01-02";
     Facts.net := fun _ => Facts.CurlError;
     Facts.can_write := fun _ => true |}.

Definition second_request_answered : Facts.Env :=
  {| Facts.dates := fun _ => "2024-01-02";
     Facts.net := fun k =>
       match k with
       | 1%nat => Facts.TextField "Bananas are  berries. "
       | _ => Facts.CurlError
       end;
     Facts.can_write := fun _ => true |}.

Definition world_showing (text : string) : Facts.World :=
  {| Facts.current_fact := text; Facts.files := ∅;
     Facts.clock_reads := 0; Facts.api_calls := 0; Facts.log := [] |}.

(** The same empty cache after one request has already been made. *)
Definition world_after_one_request : Facts.World :=
  {| Facts.current_fact := "old"; Facts.files := ∅;
     Facts.clock_reads := 1; Facts.api_calls := 1; Facts.log := [] |}.

(** A moment of the weather variant's clock. *)
Definition weather_noon : Weather.Tick :=
  {| Weather.time_buffer := "12:00"; Weather.date_buffer := "01/02" |}.

(** The endpoint answers with a "text" member that is no text, so that
    reading it throws; and a cache directory in which somebody left a file
    for the day that is no fact. *)
Definition garbled_answers : Facts.Env :=
  {| Facts.dates := fun _ => "2024-01-02";
     Facts.net := fun _ => Facts.TextNotConvertible;
     Facts.can_write := fun _ => true |}.

Definition world_with_stray_file : Facts.World :=
  {| Facts.current_fact := "old";
     Facts.files := {[ "/tmp/cats-cache/2024-01-02.txt" := "hello" ]};
     Facts.clock_reads := 0; Facts.api_calls := 0; Facts.log := [] |}.

(** * Properties *)

(** ** Compositing stays above the ticker band *)

Section CopyProperties.

Variable ScaleQuantumToChar : Z -> Z.
Variable size_t_bits : Z.
Hypothesis size_t_wide : 32 <= size_t_bits.

Lemma size_t_range : 2 ^ 32 <= 2 ^ size_t_bits.
Proof. apply Z.pow_le_mono_r; lia. Qed.

Lemma to_int_small (z : Z) : 0 <= z < 2 ^ 31 -> to_int z = z.
Proof.
  intros Hz. unfold to_int.
  rewrite Z.mod_small by lia. lia.
Qed.

(** Whatever the sink, a property that survives every [SetPixel] into the
    rows [0 .. 21] survives the whole copy. *)
Lemma copy_columns_preserves {C : Type} `{PixelSink C} (P : C -> Prop)
    (row : Z) :
  (forall c x r g b, P c -> P (SetPixel c x row r g b)) ->
  forall (n : nat) (x y : Z) (image : Image) (canvas : C)
         (offset_x offset_y : Z),
    to_int (to_size_t size_t_bits (y + offset_y)) = row ->
    P canvas ->
    P (Facts.copy_columns ScaleQuantumToChar size_t_bits n x y image canvas
         offset_x offset_y).
Proof.
  intros Hset n. induction n as [|n IH]; intros x y image canvas ox oy Hrow HP.
  - exact HP.
  - simpl. apply IH; [exact Hrow|].
    destruct (alphaQuantum (pixelColor image x y) <? 256); [|exact HP].
    rewrite Hrow. now apply Hset.
Qed.

Lemma copy_rows_preserves {C : Type} `{PixelSink C} (P : C -> Prop) :
  (forall c x y r g b,
      0 <= y < Facts.IMAGE_Y + Facts.IMAGE_HEIGHT ->
      P c -> P (SetPixel c x y r g b)) ->
  forall (n : nat) (y : Z) (image : Image) (canvas : C)
         (offset_x offset_y : Z),
    P canvas ->
    P (Facts.copy_rows ScaleQuantumToChar size_t_bits n y image canvas offset_x offset_y).
Proof.
  intros Hset n. induction n as [|n IH]; intros y image canvas ox oy HP.
  - exact HP.
  - simpl.
    destruct (Z.ltb_spec (to_size_t size_t_bits (y + oy))
                (to_size_t size_t_bits (Facts.IMAGE_HEIGHT + Facts.IMAGE_Y)))
      as [Hlt|Hge]; [|exact HP].
    apply IH.
    pose proof size_t_range as Hrange.
    assert (Hb : 0 <= to_size_t size_t_bits (y + oy))
      by (apply Z.mod_pos_bound; lia).
    replace (to_size_t size_t_bits (Facts.IMAGE_HEIGHT + Facts.IMAGE_Y))
      with 22 in Hlt
      by (symmetry; apply Z.mod_small;
          unfold Facts.IMAGE_HEIGHT, Facts.IMAGE_Y; lia).
    apply (copy_columns_preserves P (to_size_t size_t_bits (y + oy))).
    + intros c x r g b Hc. apply Hset; [|exact Hc].
      unfold Facts.IMAGE_Y, Facts.IMAGE_HEIGHT. lia.
    + apply to_int_small. lia.
    + exact HP.
Qed.

(** C10: in the fact variant, compositing a frame issues no [SetPixel]
    for a row [>= IMAGE_Y + IMAGE_HEIGHT] (row 22), whatever the image's
    height, its content and the offsets; so every canvas cell of the lower
    band, the ticker rows included, is left as it was. *)
Theorem CopyImageToCanvas_stays_above_row_22
    (image : Image) (offset_x offset_y : Z) :
  Forall (fun call : Z * Z * RGB =>
            0 <= call.1.2 < Facts.IMAGE_Y + Facts.IMAGE_HEIGHT)
         (Facts.CopyImageToCanvas ScaleQuantumToChar size_t_bits image
            ([] : list (Z * Z * RGB)) offset_x offset_y)
  /\ forall (canvas : gmap (Z * Z) RGB) (px py : Z),
       Facts.IMAGE_Y + Facts.IMAGE_HEIGHT <= py ->
       Facts.CopyImageToCanvas ScaleQuantumToChar size_t_bits image canvas
         offset_x offset_y !! (px, py) = canvas !! (px, py).
Proof.
  split.
  - unfold Facts.CopyImageToCanvas.
    apply (copy_rows_preserves
             (Forall (fun call : Z * Z * RGB =>
                        0 <= call.1.2 < Facts.IMAGE_Y + Facts.IMAGE_HEIGHT))).
    + intros c x y r g b Hy Hc. unfold SetPixel, recording_sink.
      apply Forall_app. split; [exact Hc|].
      constructor; [exact Hy|constructor].
    + constructor.
  - intros canvas px py Hpy. unfold Facts.CopyImageToCanvas.
    apply (copy_rows_preserves
             (fun c : gmap (Z * Z) RGB => c !! (px, py) = canvas !! (px, py))).
    + intros c x y r g b Hy Hc. unfold SetPixel, canvas_sink.
      rewrite lookup_insert_ne; [exact Hc|]. intros Heq.
      inversion Heq. lia.
    + reflexivity.
Qed.

End CopyProperties.

Lemma CopyImageToCanvas_stays_above_row_22_witness :
  Facts.CopyImageToCanvas (fun q => q) 64 tall_white_image
    (<[(46, 25) := (1, 2, 3)]> (∅ : gmap (Z * Z) RGB))
    Facts.RIGHT_IMAGE_X Facts.IMAGE_Y !! (46, 25)
  = Some (1, 2, 3).
Proof.
  rewrite (proj2 (CopyImageToCanvas_stays_above_row_22 (fun q => q) 64
                    ltac:(lia) tall_white_image
                    Facts.RIGHT_IMAGE_X Facts.IMAGE_Y)).
  - apply lookup_insert_eq.
  - unfold Facts.IMAGE_Y, Facts.IMAGE_HEIGHT. lia.
Defined.

(** ** The frame loop *)

Section FrameLoopProperties.

Context {Tick State Output : Type}.
Variable body : nat -> Tick -> State -> State * Output.
Variable max_frames : nat.
Hypothesis some_frames : (0 < max_frames)%nat.

(** One pass of the [for] loop is a run of consecutive iterations; what it
    leaves is continued with the counter back at 0. *)
Lemma for_frames_iterations (count : nat) :
  forall (frame : nat) (ticks : list Tick) (s : State),
    (0 < count)%nat -> (frame + count = max_frames)%nat ->
    forall outs rest s',
      for_frames body count frame ticks s = (outs, (rest, s')) ->
      outs ++ iterations_from body max_frames 0 rest s'
      = iterations_from body max_frames frame ticks s
      /\ (ticks <> [] -> (length rest < length ticks)%nat).
Proof.
  induction count as [|count IH]; intros frame ticks s Hpos Hsum outs rest s' Hfor.
  - lia.
  - destruct ticks as [|t ticks].
    + simpl in Hfor. injection Hfor as <- <- <-.
      split; [reflexivity|congruence].
    + simpl in Hfor. simpl iterations_from.
      destruct (body frame t s) as [s1 out].
      destruct (for_frames body count (S frame) ticks s1)
        as [outs1 [rest1 s1']] eqn:Hrec.
      injection Hfor as <- <- <-.
      destruct count as [|count].
      * simpl in Hrec. injection Hrec as <- <- <-.
        unfold next_frame.
        replace (S frame <? max_frames)%nat with false
          by (symmetry; apply Nat.ltb_ge; lia).
        split; [reflexivity|]. intros _. simpl. lia.
      * destruct (IH (S frame) ticks s1 ltac:(lia) ltac:(lia) _ _ _ Hrec)
          as [Heq Hlen].
        unfold next_frame.
        replace (S frame <? max_frames)%nat with true
          by (symmetry; apply Nat.ltb_lt; lia).
        split.
        -- simpl. now rewrite Heq.
        -- intros _. simpl. destruct ticks as [|t' ticks].
           ++ simpl in Hrec. injection Hrec as <- <- <-. simpl. lia.
           ++ specialize (Hlen ltac:(congruence)). simpl in *. lia.
Qed.

Lemma while_running_iterations (fuel : nat) :
  forall (ticks : list Tick) (s : State),
    (length ticks <= fuel)%nat ->
    while_running body max_frames fuel ticks s
    = iterations_from body max_frames 0 ticks s.
Proof.
  induction fuel as [|fuel IH]; intros ticks s Hfuel.
  - destruct ticks; [reflexivity|simpl in Hfuel; lia].
  - destruct ticks as [|t ticks]; [reflexivity|].
    cbn [while_running].
    destruct (for_frames body max_frames 0 (t :: ticks) s)
      as [outs [rest s']] eqn:Hfor.
    destruct (for_frames_iterations max_frames 0 (t :: ticks) s
                some_frames ltac:(lia) _ _ _ Hfor) as [Heq Hlen].
    specialize (Hlen ltac:(congruence)).
    rewrite IH by (simpl in *; lia).
    exact Heq.
Qed.

(** The nested loops run every iteration the environment allows, with the
    counter restarting at 0 after [max_frames - 1]. *)
Lemma frame_loop_iterations (ticks : list Tick) (s : State) :
  frame_loop body max_frames ticks s
  = iterations_from body max_frames 0 ticks s.
Proof. unfold frame_loop. now apply while_running_iterations. Qed.

Lemma iterations_from_length (ticks : list Tick) :
  forall (frame : nat) (s : State),
    length (iterations_from body max_frames frame ticks s) = length ticks.
Proof.
  induction ticks as [|t ticks IH]; intros frame s; simpl; [reflexivity|].
  destruct (body frame t s) as [s1 out]. simpl. now rewrite IH.
Qed.

Lemma next_frame_mod (i : nat) :
  next_frame max_frames (i mod max_frames) = (S i mod max_frames)%nat.
Proof.
  unfold next_frame.
  pose proof (Nat.mod_upper_bound i max_frames ltac:(lia)) as Hlt.
  destruct (Nat.ltb_spec (S (i mod max_frames)) max_frames) as [Hs|Hs].
  - replace (S i) with (1 + i)%nat by lia.
    rewrite <- Nat.Div0.add_mod_idemp_r.
    symmetry. apply Nat.mod_small. lia.
  - assert (Hm : (i mod max_frames = max_frames - 1)%nat) by lia.
    replace (S i) with (1 + i)%nat by lia.
    rewrite <- Nat.Div0.add_mod_idemp_r, Hm.
    replace (1 + (max_frames - 1))%nat with max_frames by lia.
    symmetry. apply Nat.Div0.mod_same.
Qed.

(** The [i]-th iteration runs the body with [frame = i mod max_frames]. *)
Lemma iterations_from_lookup (ticks : list Tick) :
  forall (start : nat) (s : State) (i : nat) (out : Output),
    iterations_from body max_frames (start mod max_frames) ticks s !! i
    = Some out ->
    exists (t : Tick) (s_i : State),
      ticks !! i = Some t
      /\ out = (body ((start + i) mod max_frames) t s_i).2.
Proof.
  induction ticks as [|t ticks IH]; intros start s i out Hout.
  - destruct i; discriminate.
  - simpl in Hout. destruct (body (start mod max_frames) t s) as [s1 o] eqn:Hb.
    destruct i as [|i].
    + simpl in Hout. inversion Hout; subst.
      exists t, s. rewrite Nat.add_0_r, Hb. split; reflexivity.
    + simpl in Hout. rewrite next_frame_mod in Hout.
      destruct (IH (S start) s1 i out Hout) as (t' & s_i & Ht & Ho).
      exists t', s_i. split; [exact Ht|].
      now replace (start + S i)%nat with (S start + i)%nat by lia.
Qed.

Lemma frame_loop_lookup (ticks : list Tick) (s : State) (i : nat)
    (out : Output) :
  frame_loop body max_frames ticks s !! i = Some out ->
  exists (t : Tick) (s_i : State),
    ticks !! i = Some t /\ out = (body (i mod max_frames) t s_i).2.
Proof.
  rewrite frame_loop_iterations.
  rewrite <- (Nat.Div0.mod_0_l max_frames) at 1.
  intros Hout. apply iterations_from_lookup in Hout. exact Hout.
Qed.

Lemma frame_loop_length (ticks : list Tick) (s : State) :
  length (frame_loop body max_frames ticks s) = length ticks.
Proof. rewrite frame_loop_iterations. apply iterations_from_length. Qed.

End FrameLoopProperties.

(** ** Which frames the animated loops show *)

Lemma max_frames_positive (left_images right_images : ImageVector) :
  left_images <> [] ->
  (0 < Nat.max (length left_images) (length right_images))%nat.
Proof. destruct left_images; [congruence|simpl; lia]. Qed.

Lemma lcm_mod_max (a b : nat) : (Nat.lcm a b mod Nat.max a b = 0)%nat.
Proof.
  destruct (Nat.max_spec a b) as [[_ ->]|[_ ->]];
    apply Nat.Lcm0.mod_divide.
  - apply Nat.divide_lcm_r.
  - apply Nat.divide_lcm_l.
Qed.

Lemma Dual_iteration (left_images right_images : ImageVector) (n i : nat) :
  left_images <> [] -> (i < n)%nat ->
  Dual.ShowDualAnimatedImages left_images right_images n !! i
  = Some (Dual.animated_body left_images right_images
            (i mod Nat.max (length left_images) (length right_images)) tt tt).2.
Proof.
  intros Hleft Hi. unfold Dual.ShowDualAnimatedImages.
  pose proof (max_frames_positive left_images right_images Hleft) as Hmax.
  destruct (lookup_lt_is_Some_2
              (frame_loop (Dual.animated_body left_images right_images)
                 (Nat.max (length left_images) (length right_images))
                 (replicate n tt) tt) i) as [out Hout].
  { rewrite frame_loop_length by exact Hmax. now rewrite length_replicate. }
  rewrite Hout.
  apply frame_loop_lookup in Hout; [|exact Hmax].
  destruct Hout as (t & s_i & _ & ->). now destruct t, s_i.
Qed.

Lemma check_brightness_commands (interval : Z) (t : Facts.Tick)
    (s : Facts.RenderState) :
  (Facts.check_brightness interval t s).2 = []
  \/ exists brightness : Z,
       (Facts.check_brightness interval t s).2 = [DoSetBrightness brightness].
Proof.
  unfold Facts.check_brightness.
  destruct (interval <=? Facts.now t - Facts.last_brightness_check s);
    [|now left].
  destruct (negb _); [right; eexists; reflexivity|now left].
Qed.

(** What an iteration of the fact variant's animated loop copies: the two
    frames of its counter when it redraws (and then it presents the buffer),
    nothing when it does not. *)
Lemma Facts_animated_body_copies (left_images right_images : ImageVector)
    (fact_font : Font) (frame : nat) (t : Facts.Tick) (s : Facts.RenderState) :
  let commands :=
    (Facts.animated_body left_images right_images fact_font frame t s).2 in
  ((DoSwapOnVSync ∈ commands)
   /\ List.filter is_copy_image commands
      = [ DoCopyImage LeftSide (frame mod length left_images)%nat
                      Facts.LEFT_IMAGE_X Facts.IMAGE_Y;
          DoCopyImage RightSide (frame mod length right_images)%nat
                      Facts.RIGHT_IMAGE_X Facts.IMAGE_Y ])
  \/ ((DoSwapOnVSync ∉ commands)
      /\ List.filter is_copy_image commands = []).
Proof.
  unfold Facts.animated_body.
  destruct (check_brightness_commands 60 t s) as [Hb|[b Hb]];
    destruct (Facts.check_brightness 60 t s) as [s1 calls];
    simpl in Hb; subst calls; cbv zeta.
  all: match goal with |- context [if ?c then _ else []] => destruct c end.
  all: cbn [snd app List.filter is_copy_image].
  all: first
         [ left; split; [|reflexivity];
           rewrite !elem_of_cons; tauto
         | right; split; [|reflexivity];
           rewrite ?elem_of_cons, elem_of_nil;
           intros Hin; decompose [or] Hin; try discriminate; contradiction ].
Qed.

(** C2 (as the code has it): for two animation sources of lengths [a] and
    [b], the render loop counts [frame] from 0 to [max a b - 1] and then
    starts again at 0, so that its [i]-th iteration runs with
    [f = i mod (max a b)]; in that iteration the sources show the frames
    [f mod a] and [f mod b]: the plain viewer copies exactly these two in
    every iteration, the fact variant copies exactly these two in every
    iteration that redraws (one that presents a buffer) and none in the
    others; and in the iteration [i = lcm a b] both sources show their
    frame 0. *)
Theorem animated_loops_show_frame_mod_length
    (left_images right_images : ImageVector) (i : nat) :
  left_images <> [] -> right_images <> [] ->
  let a := length left_images in
  let b := length right_images in
  let f := (i mod Nat.max a b)%nat in
  (forall n : nat, (i < n)%nat ->
     Dual.ShowDualAnimatedImages left_images right_images n !! i
     = Some [ DoClear;
              DoCopyImage LeftSide (f mod a)%nat Dual.LEFT_IMAGE_X 0;
              DoCopyImage RightSide (f mod b)%nat Dual.RIGHT_IMAGE_X 0;
              DoSwapOnVSync;
              DoUsleep (usleep_usec
                          (frame_delay left_images right_images f)) ])
  /\ (forall (fact_font : Font) (ticks : list Facts.Tick)
             (commands : list Command),
        Facts.ShowDualAnimatedImagesWithClock left_images right_images
          fact_font ticks !! i = Some commands ->
        (DoSwapOnVSync ∈ commands ->
         List.filter is_copy_image commands
         = [ DoCopyImage LeftSide (f mod a)%nat
                         Facts.LEFT_IMAGE_X Facts.IMAGE_Y;
             DoCopyImage RightSide (f mod b)%nat
                         Facts.RIGHT_IMAGE_X Facts.IMAGE_Y ])
        /\ (DoSwapOnVSync ∉ commands ->
            List.filter is_copy_image commands = []))
  /\ (i = Nat.lcm a b ->
      (forall n : nat, (i < n)%nat ->
         Dual.ShowDualAnimatedImages left_images right_images n !! i
         = Some [ DoClear;
                  DoCopyImage LeftSide 0 Dual.LEFT_IMAGE_X 0;
                  DoCopyImage RightSide 0 Dual.RIGHT_IMAGE_X 0;
                  DoSwapOnVSync;
                  DoUsleep (usleep_usec
                              (frame_delay left_images right_images 0)) ])
      /\ (forall (fact_font : Font) (ticks : list Facts.Tick)
                 (commands : list Command),
            Facts.ShowDualAnimatedImagesWithClock left_images right_images
              fact_font ticks !! i = Some commands ->
            DoSwapOnVSync ∈ commands ->
            List.filter is_copy_image commands
            = [ DoCopyImage LeftSide 0 Facts.LEFT_IMAGE_X Facts.IMAGE_Y;
                DoCopyImage RightSide 0 Facts.RIGHT_IMAGE_X Facts.IMAGE_Y ])).
Proof.
  intros Hleft Hright a b f.
  pose proof (max_frames_positive left_images right_images Hleft) as Hmax.
  assert (Hdual : forall n : nat, (i < n)%nat ->
            Dual.ShowDualAnimatedImages left_images right_images n !! i
            = Some [ DoClear;
                     DoCopyImage LeftSide (f mod a)%nat Dual.LEFT_IMAGE_X 0;
                     DoCopyImage RightSide (f mod b)%nat Dual.RIGHT_IMAGE_X 0;
                     DoSwapOnVSync;
                     DoUsleep (usleep_usec
                                 (frame_delay left_images right_images f)) ]).
  { intros n Hi. rewrite (Dual_iteration _ _ n i Hleft Hi). reflexivity. }
  assert (Hfacts : forall (fact_font : Font) (ticks : list Facts.Tick)
                          (commands : list Command),
            Facts.ShowDualAnimatedImagesWithClock left_images right_images
              fact_font ticks !! i = Some commands ->
            (DoSwapOnVSync ∈ commands ->
             List.filter is_copy_image commands
             = [ DoCopyImage LeftSide (f mod a)%nat
                             Facts.LEFT_IMAGE_X Facts.IMAGE_Y;
                 DoCopyImage RightSide (f mod b)%nat
                             Facts.RIGHT_IMAGE_X Facts.IMAGE_Y ])
            /\ (DoSwapOnVSync ∉ commands ->
                List.filter is_copy_image commands = [])).
  { intros fact_font ticks commands Hcmds.
    unfold Facts.ShowDualAnimatedImagesWithClock in Hcmds.
    apply frame_loop_lookup in Hcmds; [|exact Hmax].
    destruct Hcmds as (t & s_i & _ & ->).
    destruct (Facts_animated_body_copies left_images right_images fact_font
                f t s_i) as [[Hswap Hcopies]|[Hnone Hcopies]].
    - split; [intros _; exact Hcopies|]. intros Hno. now destruct Hno.
    - split; [|intros _; exact Hcopies]. intros Hswap. now destruct Hnone. }
  split; [exact Hdual|]. split; [exact Hfacts|].
  intros Hlcm.
  assert (Hf : f = 0%nat) by (subst f i; apply lcm_mod_max).
  split.
  - intros n Hi. rewrite (Hdual n Hi), Hf, !Nat.Div0.mod_0_l. reflexivity.
  - intros fact_font ticks commands Hcmds Hswap.
    rewrite (proj1 (Hfacts fact_font ticks commands Hcmds) Hswap).
    now rewrite Hf, !Nat.Div0.mod_0_l.
Qed.

(** Sources of 2 and 3 frames: the seventh iteration of the plain viewer
    ([i = 6 = lcm 2 3]) shows frame 0 of both, and the second iteration of
    the fact variant, which redraws, copies frame 1 of both. *)
Lemma animated_loops_show_frame_mod_length_witness :
  Dual.ShowDualAnimatedImages
    [frame_with_delay 10; frame_with_delay 10]
    [frame_with_delay 4; frame_with_delay 4; frame_with_delay 4] 7 !! 6%nat
  = Some [ DoClear;
           DoCopyImage LeftSide 0 Dual.LEFT_IMAGE_X 0;
           DoCopyImage RightSide 0 Dual.RIGHT_IMAGE_X 0;
           DoSwapOnVSync;
           DoUsleep 70000 ]
  /\ exists commands : list Command,
       Facts.ShowDualAnimatedImagesWithClock
         [frame_with_delay 10; frame_with_delay 10]
         [frame_with_delay 4; frame_with_delay 4; frame_with_delay 4]
         font_6_wide toggling_ticks !! 1%nat = Some commands
       /\ (DoSwapOnVSync ∈ commands)
       /\ List.filter is_copy_image commands
          = [ DoCopyImage LeftSide 1 Facts.LEFT_IMAGE_X Facts.IMAGE_Y;
              DoCopyImage RightSide 1 Facts.RIGHT_IMAGE_X Facts.IMAGE_Y ].
Proof.
  split.
  - apply (proj1 (animated_loops_show_frame_mod_length
                    [frame_with_delay 10; frame_with_delay 10]
                    [frame_with_delay 4; frame_with_delay 4;
                     frame_with_delay 4]
                    6 ltac:(discriminate) ltac:(discriminate)) 7%nat).
    simpl. lia.
  - eexists. split; [vm_compute; reflexivity|].
    assert (Hswap : DoSwapOnVSync
                      ∈ [ DoClear;
                          DoCopyImage LeftSide 1 0 1;
                          DoCopyImage RightSide 1 46 1;
                          DoDrawClock;
                          DoDrawFactText "hi" 63;
                          DoSwapOnVSync;
                          DoUsleep 70000 ]).
    { rewrite !elem_of_cons. tauto. }
    split; [exact Hswap|].
    apply (proj1 (proj1 (proj2 (animated_loops_show_frame_mod_length
                    [frame_with_delay 10; frame_with_delay 10]
                    [frame_with_delay 4; frame_with_delay 4;
                     frame_with_delay 4]
                    1 ltac:(discriminate) ltac:(discriminate)))
                    font_6_wide toggling_ticks _ ltac:(vm_compute; reflexivity))
             Hswap).
Defined.

(** C2 as the spec words it fails: with sources of 2 and 3 frames the
    fourth iteration ([f = 3]) shows the left source's frame 0, not its
    frame [3 mod 2 = 1]. *)
Lemma frame_counter_is_not_unbounded :
  exists commands : list Command,
    Dual.ShowDualAnimatedImages
      [frame_with_delay 10; frame_with_delay 10]
      [frame_with_delay 4; frame_with_delay 4; frame_with_delay 4] 4 !! 3%nat
    = Some commands
    /\ DoCopyImage LeftSide 0 Dual.LEFT_IMAGE_X 0 ∈ commands
    /\ DoCopyImage LeftSide (3 mod 2) Dual.LEFT_IMAGE_X 0 ∉ commands.
Proof.
  eexists. split; [reflexivity|]. split.
  - rewrite !elem_of_cons. auto.
  - rewrite !elem_of_cons, elem_of_nil.
    intros Hin. decompose [or] Hin; try discriminate; contradiction.
Qed.

(** ** The per-frame delay *)

(** What the conversion to [int] gives. *)
Lemma to_int_range (z : Z) : - 2 ^ 31 <= to_int z <= INT_MAX.
Proof.
  unfold to_int, INT_MAX.
  pose proof (Z.mod_pos_bound (z + 2 ^ 31) (2 ^ 32) ltac:(lia)). lia.
Qed.

Lemma to_int_fits (z : Z) : - 2 ^ 31 <= z <= INT_MAX -> to_int z = z.
Proof.
  unfold to_int, INT_MAX. intros Hz. rewrite Z.mod_small by lia. lia.
Qed.

Lemma to_int_wraps (z : Z) :
  INT_MAX < z <= 2 * INT_MAX -> to_int z = z - 2 ^ 32.
Proof.
  unfold to_int, INT_MAX. intros Hz.
  replace (z + 2 ^ 31) with (z - 2 ^ 31 + 1 * 2 ^ 32) by lia.
  rewrite Z.mod_add by lia. rewrite Z.mod_small by lia. lia.
Qed.

Lemma delay_of_range (image : Image) :
  - 2 ^ 31 <= delay_of image <= INT_MAX.
Proof. apply to_int_range. Qed.

(** C3 (as the code has it): at frame [f], with the delays as the loop
    stores them in [int]s: when [f] is within both frame counts and the
    left delay is positive, the delay is the truncated mean of the two
    delays, provided their sum fits an [int] (when it does not, the
    wrapped sum is negative and the default 10 is slept); when [f] is
    within both and the left delay is not positive, it is the right
    source's delay; when only one source's frame count exceeds [f], it is
    that source's own delay; and in each case the default 10 (hundredths
    of a second) replaces a value that is not positive. *)
Theorem frame_delay_by_cases
    (left_images right_images : ImageVector) (f : nat) :
  (forall l r : Image,
      left_images !! f = Some l -> right_images !! f = Some r ->
      0 < delay_of l -> delay_of l + delay_of r <= INT_MAX ->
      frame_delay left_images right_images f
      = or_default_delay (Z.quot (delay_of l + delay_of r) 2))
  /\ (forall l r : Image,
        left_images !! f = Some l -> right_images !! f = Some r ->
        0 < delay_of l -> INT_MAX < delay_of l + delay_of r ->
        frame_delay left_images right_images f = 10)
  /\ (forall l r : Image,
        left_images !! f = Some l -> right_images !! f = Some r ->
        delay_of l <= 0 ->
        frame_delay left_images right_images f
        = or_default_delay (delay_of r))
  /\ (forall l : Image,
        left_images !! f = Some l -> right_images !! f = None ->
        frame_delay left_images right_images f
        = or_default_delay (delay_of l))
  /\ (forall r : Image,
        left_images !! f = None -> right_images !! f = Some r ->
        frame_delay left_images right_images f
        = or_default_delay (delay_of r))
  /\ (left_images !! f = None -> right_images !! f = None ->
      frame_delay left_images right_images f = 10).
Proof.
  unfold frame_delay.
  split; [|split; [|split; [|split; [|split]]]].
  - intros l r -> -> Hpos Hfits.
    replace (0 <? delay_of l) with true by (symmetry; apply Z.ltb_lt; lia).
    pose proof (delay_of_range r) as Hr.
    rewrite to_int_fits by lia. reflexivity.
  - intros l r -> -> Hpos Hover.
    replace (0 <? delay_of l) with true by (symmetry; apply Z.ltb_lt; lia).
    pose proof (delay_of_range l) as Hl. pose proof (delay_of_range r) as Hr.
    rewrite to_int_wraps by lia.
    unfold or_default_delay.
    replace (Z.quot (delay_of l + delay_of r - 2 ^ 32) 2 <=? 0) with true;
      [reflexivity|].
    symmetry. apply Z.leb_le. apply Z.quot_le_upper_bound; unfold INT_MAX in *; lia.
  - intros l r -> -> Hneg.
    now replace (0 <? delay_of l) with false
      by (symmetry; apply Z.ltb_ge; lia).
  - now intros l -> ->.
  - now intros r -> ->.
  - now intros -> ->.
Qed.

(** The spec's example: lengths 3 and 5 with delays 10 and 4 give 7 for
    [f = 0 .. 2] (here [f = 2]) and 4 for [f = 3, 4] (here [f = 4]). *)
Lemma frame_delay_by_cases_witness :
  frame_delay (replicate 3 (frame_with_delay 10))
              (replicate 5 (frame_with_delay 4)) 2 = 7
  /\ frame_delay (replicate 3 (frame_with_delay 10))
                 (replicate 5 (frame_with_delay 4)) 4 = 4.
Proof.
  split.
  - apply (proj1 (frame_delay_by_cases
                    (replicate 3 (frame_with_delay 10))
                    (replicate 5 (frame_with_delay 4)) 2)
             (frame_with_delay 10) (frame_with_delay 4));
      [reflexivity|reflexivity|vm_compute; reflexivity
      |vm_compute; discriminate].
  - apply (proj1 (proj2 (proj2 (proj2 (proj2 (frame_delay_by_cases
                    (replicate 3 (frame_with_delay 10))
                    (replicate 5 (frame_with_delay 4)) 4)))))
             (frame_with_delay 4)); reflexivity.
Defined.

(** C3 as the spec words it fails: a still left image (one frame, delay 0)
    beside an animation with delay 10.  At frame 0, which both have, the
    mean is 5 (positive, so the default does not apply), but the loop
    sleeps 10. *)
Lemma mean_not_taken_for_zero_left_delay :
  [frame_with_delay 0] !! 0%nat = Some (frame_with_delay 0)
  /\ [frame_with_delay 10; frame_with_delay 10] !! 0%nat
     = Some (frame_with_delay 10)
  /\ Z.quot (animationDelay (frame_with_delay 0)
             + animationDelay (frame_with_delay 10)) 2 = 5
  /\ frame_delay [frame_with_delay 0]
                 [frame_with_delay 10; frame_with_delay 10] 0 = 10
  /\ frame_delay [frame_with_delay 0]
                 [frame_with_delay 10; frame_with_delay 10] 0
     <> Z.quot (animationDelay (frame_with_delay 0)
                + animationDelay (frame_with_delay 10)) 2.
Proof.
  split; [reflexivity|]. split; [reflexivity|]. split; [reflexivity|].
  split; [vm_compute; reflexivity|]. vm_compute. discriminate.
Qed.

(** ** The ticker's scroll position *)

(** Neither loop body touches the ticker fields except through
    [observe_fact] and [advance_scroll]. *)
Lemma check_brightness_keeps_ticker (interval : Z) (t : Facts.Tick)
    (s : Facts.RenderState) :
  Facts.scroll_offset (Facts.check_brightness interval t s).1
  = Facts.scroll_offset s
  /\ Facts.fact_width (Facts.check_brightness interval t s).1
     = Facts.fact_width s
  /\ Facts.last_fact_text (Facts.check_brightness interval t s).1
     = Facts.last_fact_text s.
Proof.
  unfold Facts.check_brightness.
  destruct (interval <=? Facts.now t - Facts.last_brightness_check s);
    [|now repeat split].
  destruct (negb _); now repeat split.
Qed.

Lemma observe_fact_ticker (fact_font : Font) (t : Facts.Tick)
    (s s0 : Facts.RenderState) :
  Facts.scroll_offset s = Facts.scroll_offset s0 ->
  Facts.fact_width s = Facts.fact_width s0 ->
  Facts.last_fact_text s = Facts.last_fact_text s0 ->
  Facts.scroll_offset (Facts.observe_fact fact_font t s)
  = Facts.scroll_offset (Facts.observe_fact fact_font t s0)
  /\ Facts.fact_width (Facts.observe_fact fact_font t s)
     = Facts.fact_width (Facts.observe_fact fact_font t s0)
  /\ Facts.last_fact_text (Facts.observe_fact fact_font t s)
     = Facts.last_fact_text (Facts.observe_fact fact_font t s0).
Proof.
  intros Ho Hw Hl. unfold Facts.observe_fact. rewrite Hl.
  destruct (negb _); now repeat split.
Qed.

(** The ticker fields after an iteration of either loop, and the position
    the text was drawn at, are those of [observe_fact] followed by
    [advance_scroll]. *)
Lemma static_body_ticker (fact_font : Font) (t : Facts.Tick)
    (s : Facts.RenderState) :
  let seen := Facts.observe_fact fact_font t s in
  let s' := (Facts.static_body fact_font t s).1 in
  Facts.scroll_offset s' = Facts.scroll_offset (Facts.advance_scroll seen)
  /\ Facts.fact_width s' = Facts.fact_width seen
  /\ Facts.last_fact_text s' = Facts.last_fact_text seen
  /\ forall (text : string) (x : Z),
       DoDrawFactText text x ∈ (Facts.static_body fact_font t s).2 ->
       text = Facts.current_fact_text t /\ x = Facts.scroll_offset seen.
Proof.
  unfold Facts.static_body.
  destruct (check_brightness_keeps_ticker 1800 t s) as (Ho & Hw & Hl).
  destruct (check_brightness_commands 1800 t s) as [Hb|[b Hb]];
    destruct (Facts.check_brightness 1800 t s) as [s1 calls];
    simpl in Ho, Hw, Hl, Hb; subst calls;
    destruct (observe_fact_ticker fact_font t s1 s Ho Hw Hl) as (Ho' & Hw' & Hl').
  all: destruct (negb (String.eqb (Facts.current_time_str t) _)); simpl.
  all: rewrite Ho', Hw'; split; [reflexivity|split; [reflexivity|]].
  all: split; [assumption|].
  all: intros text x; rewrite ?elem_of_cons, ?elem_of_nil.
  all: intros Hin; decompose [or] Hin; try discriminate; try contradiction.
  all: match goal with H : DoDrawFactText _ _ = _ |- _ => inversion H end.
  all: split; reflexivity.
Qed.

Lemma animated_body_ticker (left_images right_images : ImageVector)
    (fact_font : Font) (frame : nat) (t : Facts.Tick)
    (s : Facts.RenderState) :
  let seen := Facts.observe_fact fact_font t s in
  let s' :=
    (Facts.animated_body left_images right_images fact_font frame t s).1 in
  Facts.scroll_offset s' = Facts.scroll_offset (Facts.advance_scroll seen)
  /\ Facts.fact_width s' = Facts.fact_width seen
  /\ Facts.last_fact_text s' = Facts.last_fact_text seen
  /\ forall (text : string) (x : Z),
       DoDrawFactText text x
         ∈ (Facts.animated_body left_images right_images fact_font
              frame t s).2 ->
       text = Facts.current_fact_text t /\ x = Facts.scroll_offset seen.
Proof.
  unfold Facts.animated_body.
  destruct (check_brightness_keeps_ticker 60 t s) as (Ho & Hw & Hl).
  destruct (check_brightness_commands 60 t s) as [Hb|[b Hb]];
    destruct (Facts.check_brightness 60 t s) as [s1 calls];
    simpl in Ho, Hw, Hl, Hb; subst calls;
    destruct (observe_fact_ticker fact_font t s1 s Ho Hw Hl) as (Ho' & Hw' & Hl').
  all: match goal with |- context [if ?c then _ else []] => destruct c end.
  all: simpl; rewrite Ho', Hw'; split; [reflexivity|split; [reflexivity|]].
  all: split; [assumption|].
  all: intros text x; rewrite ?elem_of_cons, ?elem_of_nil.
  all: intros Hin; decompose [or] Hin; try discriminate; try contradiction.
  all: match goal with H : DoDrawFactText _ _ = _ |- _ => inversion H end.
  all: split; reflexivity.
Qed.

(** C4: in every iteration of the static and of the animated render loop
    of the fact variant, from every state: a ticker text that differs from
    the one seen last puts the offset at [MATRIX_WIDTH] (64) and has the
    width measured anew, whatever the offset was; the text is drawn at
    that offset; then the offset goes down by exactly 1, unless that would
    take it below [- fact_width], in which case (and, for offsets up to
    64, only then) it is back at [MATRIX_WIDTH]. *)
Theorem ticker_scroll_step
    (left_images right_images : ImageVector) (fact_font : Font) (frame : nat)
    (t : Facts.Tick) (s s' : Facts.RenderState) (commands : list Command) :
  Facts.static_body fact_font t s = (s', commands)
  \/ Facts.animated_body left_images right_images fact_font frame t s
     = (s', commands) ->
  let changed :=
    negb (String.eqb (Facts.current_fact_text t) (Facts.last_fact_text s)) in
  let shown_at :=
    if changed then Facts.MATRIX_WIDTH else Facts.scroll_offset s in
  let width :=
    if changed then Facts.GetStringWidth fact_font (Facts.current_fact_text t)
    else Facts.fact_width s in
  Facts.last_fact_text s' = Facts.current_fact_text t
  /\ Facts.fact_width s' = width
  /\ (forall (text : string) (x : Z),
        DoDrawFactText text x ∈ commands ->
        text = Facts.current_fact_text t /\ x = shown_at)
  /\ (shown_at - 1 < - width -> Facts.scroll_offset s' = Facts.MATRIX_WIDTH)
  /\ (- width <= shown_at - 1 -> Facts.scroll_offset s' = shown_at - 1)
  /\ (shown_at <= Facts.MATRIX_WIDTH ->
      (Facts.scroll_offset s' = Facts.MATRIX_WIDTH <-> shown_at - 1 < - width)).
Proof.
  intros Hbody changed shown_at width.
  assert (Hseen :
    Facts.scroll_offset s'
    = Facts.scroll_offset
        (Facts.advance_scroll (Facts.observe_fact fact_font t s))
    /\ Facts.fact_width s'
       = Facts.fact_width (Facts.observe_fact fact_font t s)
    /\ Facts.last_fact_text s'
       = Facts.last_fact_text (Facts.observe_fact fact_font t s)
    /\ forall (text : string) (x : Z),
         DoDrawFactText text x ∈ commands ->
         text = Facts.current_fact_text t
         /\ x = Facts.scroll_offset (Facts.observe_fact fact_font t s)).
  { destruct Hbody as [Hbody|Hbody].
    - pose proof (static_body_ticker fact_font t s) as Hs.
      rewrite Hbody in Hs. exact Hs.
    - pose proof (animated_body_ticker left_images right_images fact_font
                    frame t s) as Hs.
      rewrite Hbody in Hs. exact Hs. }
  destruct Hseen as (Ho & Hw & Hl & Hdraw).
  assert (Hobs :
    Facts.scroll_offset (Facts.observe_fact fact_font t s) = shown_at
    /\ Facts.fact_width (Facts.observe_fact fact_font t s) = width
    /\ Facts.last_fact_text (Facts.observe_fact fact_font t s)
       = Facts.current_fact_text t).
  { subst shown_at width changed. unfold Facts.observe_fact.
    destruct (String.eqb_spec (Facts.current_fact_text t)
                (Facts.last_fact_text s)) as [Heq|Hne]; simpl; auto. }
  destruct Hobs as (Hso & Hsw & Hsl).
  rewrite Hso in Hdraw. rewrite Hsw in Hw. rewrite Hsl in Hl.
  unfold Facts.advance_scroll in Ho. simpl in Ho.
  rewrite Hso, Hsw in Ho.
  split; [exact Hl|]. split; [exact Hw|]. split; [exact Hdraw|].
  rewrite Ho. unfold Facts.MATRIX_WIDTH in *.
  destruct (Z.ltb_spec (shown_at - 1) (- width)) as [Hlt|Hge].
  - split; [reflexivity|]. split; [lia|]. intros _. split; auto.
  - split; [lia|]. split; [reflexivity|]. intros Hle. split; lia.
Qed.

(** The ticker "hi" (12 pixels wide) at offset -12 wraps to 64. *)
Lemma ticker_scroll_step_witness :
  Facts.scroll_offset (Facts.static_body font_6_wide
                         (tick_at 1000060 12 0 "hi") ticker_leaving).1
  = Facts.MATRIX_WIDTH.
Proof.
  destruct (ticker_scroll_step [] [] font_6_wide 0
              (tick_at 1000060 12 0 "hi") ticker_leaving _ _
              (or_introl eq_refl)) as (_ & _ & _ & Hwrap & _).
  apply Hwrap. vm_compute. reflexivity.
Defined.

(** ** The brightness policy *)

Lemma iterations_from_cons {Tick State Output : Type}
    (body : nat -> Tick -> State -> State * Output) (max_frames frame : nat)
    (t : Tick) (ticks : list Tick) (s : State) :
  iterations_from body max_frames frame (t :: ticks) s
  = (body frame t s).2
    :: iterations_from body max_frames (next_frame max_frames frame) ticks
         (body frame t s).1.
Proof. simpl. now destruct (body frame t s). Qed.

Lemma while_loop_iterations {Tick State Output : Type}
    (body : Tick -> State -> State * Output) (max_frames : nat)
    (ticks : list Tick) :
  forall (frame : nat) (s : State),
    while_loop body ticks s
    = iterations_from (fun _ => body) max_frames frame ticks s.
Proof.
  induction ticks as [|t ticks IH]; intros frame s; [reflexivity|].
  simpl. destruct (body t s) as [s1 out]. now rewrite <- IH.
Qed.

Lemma check_brightness_calls (interval : Z) (t : Facts.Tick)
    (s : Facts.RenderState) :
  let s' := (Facts.check_brightness interval t s).1 in
  let calls := brightness_calls (Facts.check_brightness interval t s).2 in
  (calls = []
   /\ Facts.last_brightness s' = Facts.last_brightness s
   /\ (Facts.last_brightness_check s' = Facts.last_brightness_check s
       \/ (interval <= Facts.now t - Facts.last_brightness_check s
           /\ Facts.last_brightness_check s' = Facts.now t)))
  \/ (exists b : Z,
        calls = [b]
        /\ b <> Facts.last_brightness s
        /\ interval <= Facts.now t - Facts.last_brightness_check s
        /\ Facts.last_brightness s' = b
        /\ Facts.last_brightness_check s' = Facts.now t).
Proof.
  unfold Facts.check_brightness.
  destruct (Z.leb_spec interval
              (Facts.now t - Facts.last_brightness_check s)) as [Hle|Hgt].
  - set (b := if Facts.IsDimHoursEST _ _ then 10 else 100).
    destruct (Z.eqb_spec b (Facts.last_brightness s)) as [Heq|Hne]; simpl.
    + left. repeat split; auto.
    + right. exists b. repeat split; auto.
  - left. simpl. repeat split; auto.
Qed.

Section BrightnessProperties.

Variable interval : Z.
Hypothesis interval_not_negative : 0 <= interval.

Variable body :
  nat -> Facts.Tick -> Facts.RenderState -> Facts.RenderState * list Command.

(** The body treats brightness as [check_brightness] does. *)
Hypothesis body_checks_brightness :
  forall (frame : nat) (t : Facts.Tick) (s : Facts.RenderState),
    brightness_calls (body frame t s).2
    = brightness_calls (Facts.check_brightness interval t s).2
    /\ Facts.last_brightness (body frame t s).1
       = Facts.last_brightness (Facts.check_brightness interval t s).1
    /\ Facts.last_brightness_check (body frame t s).1
       = Facts.last_brightness_check (Facts.check_brightness interval t s).1.

Variable max_frames : nat.

Lemma body_brightness (frame : nat) (t : Facts.Tick) (s : Facts.RenderState) :
  (brightness_calls (body frame t s).2 = []
   /\ Facts.last_brightness (body frame t s).1 = Facts.last_brightness s
   /\ Facts.last_brightness_check s
      <= Facts.last_brightness_check (body frame t s).1)
  \/ (exists b : Z,
        brightness_calls (body frame t s).2 = [b]
        /\ b <> Facts.last_brightness s
        /\ interval <= Facts.now t - Facts.last_brightness_check s
        /\ Facts.last_brightness (body frame t s).1 = b
        /\ Facts.last_brightness_check (body frame t s).1 = Facts.now t).
Proof.
  destruct (body_checks_brightness frame t s) as (-> & -> & ->).
  destruct (check_brightness_calls interval t s)
    as [(Hc & Hb & Hlbc)|(b & Hc & Hne & Hle & Hb & Hlbc)].
  - left. split; [exact Hc|]. split; [exact Hb|].
    destruct Hlbc as [->|[Hle ->]]; lia.
  - right. exists b. auto.
Qed.

Lemma one_call_per_iteration (ticks : list Facts.Tick) :
  forall (frame : nat) (s : Facts.RenderState) (i : nat)
         (c : list Command),
    iterations_from body max_frames frame ticks s !! i = Some c ->
    (length (brightness_calls c) <= 1)%nat.
Proof.
  induction ticks as [|t ticks IH]; intros frame s i c Hc.
  - destruct i; discriminate.
  - rewrite iterations_from_cons in Hc. destruct i as [|i].
    + injection Hc as <-.
      destruct (body_brightness frame t s) as [(-> & _)|(b & -> & _)];
        simpl; lia.
    + exact (IH _ _ _ _ Hc).
Qed.

(** A call comes no earlier than [interval] after the last check. *)
Lemma call_after_last_check (ticks : list Facts.Tick) :
  forall (frame : nat) (s : Facts.RenderState) (j : nat) (tj : Facts.Tick)
         (cj : list Command),
    iterations_from body max_frames frame ticks s !! j = Some cj ->
    ticks !! j = Some tj ->
    brightness_calls cj <> [] ->
    Facts.last_brightness_check s + interval <= Facts.now tj.
Proof.
  induction ticks as [|t ticks IH]; intros frame s j tj cj Hc Ht Hcall.
  - destruct j; discriminate.
  - rewrite iterations_from_cons in Hc. destruct j as [|j].
    + injection Hc as <-. injection Ht as <-.
      destruct (body_brightness frame t s) as [(Hnone & _)|(b & _ & _ & Hle & _)];
        [congruence|lia].
    + simpl in Ht. specialize (IH _ _ _ _ _ Hc Ht Hcall).
      destruct (body_brightness frame t s)
        as [(_ & _ & Hlbc)|(b & _ & _ & Hle & _ & Hlbc)]; lia.
Qed.

Lemma calls_are_spaced (ticks : list Facts.Tick) :
  forall (frame : nat) (s : Facts.RenderState) (i j : nat)
         (ti tj : Facts.Tick) (ci cj : list Command),
    (i < j)%nat ->
    ticks !! i = Some ti -> ticks !! j = Some tj ->
    iterations_from body max_frames frame ticks s !! i = Some ci ->
    iterations_from body max_frames frame ticks s !! j = Some cj ->
    brightness_calls ci <> [] -> brightness_calls cj <> [] ->
    interval <= Facts.now tj - Facts.now ti.
Proof.
  induction ticks as [|t ticks IH];
    intros frame s i j ti tj ci cj Hij Hti Htj Hci Hcj Hcalli Hcallj.
  - destruct i; discriminate.
  - rewrite iterations_from_cons in Hci, Hcj.
    destruct j as [|j]; [lia|]. simpl in Htj, Hcj.
    destruct i as [|i].
    + injection Hci as <-. injection Hti as <-.
      pose proof (call_after_last_check _ _ _ _ _ _ Hcj Htj Hcallj) as Hafter.
      destruct (body_brightness frame t s)
        as [(Hnone & _)|(b & _ & _ & _ & _ & Hlbc)]; [congruence|].
      rewrite Hlbc in Hafter. lia.
    + simpl in Hti, Hci.
      eapply (IH _ _ i j);
        [|exact Hti|exact Htj|exact Hci|exact Hcj|exact Hcalli|exact Hcallj].
      lia.
Qed.

(** The first call of a run sets a value other than the one in force. *)
Lemma first_call_changes_brightness (ticks : list Facts.Tick) :
  forall (frame : nat) (s : Facts.RenderState) (j : nat)
         (cj : list Command) (bj : Z),
    iterations_from body max_frames frame ticks s !! j = Some cj ->
    bj ∈ brightness_calls cj ->
    (forall (k : nat) (ck : list Command),
        (k < j)%nat ->
        iterations_from body max_frames frame ticks s !! k = Some ck ->
        brightness_calls ck = []) ->
    bj <> Facts.last_brightness s.
Proof.
  induction ticks as [|t ticks IH]; intros frame s j cj bj Hcj Hbj Hquiet.
  - destruct j; discriminate.
  - rewrite iterations_from_cons in Hcj.
    destruct (body_brightness frame t s)
      as [(Hnone & Hb & _)|(b & Hone & Hne & _)].
    + destruct j as [|j].
      * injection Hcj as <-. rewrite Hnone in Hbj.
        now apply elem_of_nil in Hbj.
      * rewrite <- Hb. apply (IH _ _ j cj bj Hcj Hbj).
        intros k ck Hk Hck. apply (Hquiet (S k) ck); [lia|].
        now rewrite iterations_from_cons.
    + destruct j as [|j].
      * injection Hcj as <-. rewrite Hone in Hbj.
        apply list_elem_of_singleton in Hbj. now subst bj.
      * specialize (Hquiet 0%nat (body frame t s).2 ltac:(lia)).
        rewrite iterations_from_cons in Hquiet.
        specialize (Hquiet eq_refl). congruence.
Qed.

Lemma consecutive_calls_differ (ticks : list Facts.Tick) :
  forall (frame : nat) (s : Facts.RenderState) (i j : nat)
         (ci cj : list Command) (bi bj : Z),
    (i < j)%nat ->
    iterations_from body max_frames frame ticks s !! i = Some ci ->
    iterations_from body max_frames frame ticks s !! j = Some cj ->
    bi ∈ brightness_calls ci -> bj ∈ brightness_calls cj ->
    (forall (k : nat) (ck : list Command),
        (i < k < j)%nat ->
        iterations_from body max_frames frame ticks s !! k = Some ck ->
        brightness_calls ck = []) ->
    bi <> bj.
Proof.
  induction ticks as [|t ticks IH];
    intros frame s i j ci cj bi bj Hij Hci Hcj Hbi Hbj Hquiet.
  - destruct i; discriminate.
  - destruct j as [|j]; [lia|].
    rewrite iterations_from_cons in Hci, Hcj. simpl in Hcj.
    destruct i as [|i].
    + injection Hci as <-.
      destruct (body_brightness frame t s)
        as [(Hnone & _)|(b & Hone & _ & _ & Hb & _)].
      * rewrite Hnone in Hbi. now apply elem_of_nil in Hbi.
      * rewrite Hone in Hbi. apply list_elem_of_singleton in Hbi. subst bi.
        rewrite <- Hb. apply not_eq_sym.
        apply (first_call_changes_brightness _ _ _ j cj bj Hcj Hbj).
        intros k ck Hk Hck. apply (Hquiet (S k) ck); [lia|].
        now rewrite iterations_from_cons.
    + simpl in Hci.
      apply (IH _ _ i j ci cj bi bj ltac:(lia) Hci Hcj Hbi Hbj).
      intros k ck Hk Hck. apply (Hquiet (S k) ck); [lia|].
      now rewrite iterations_from_cons.
Qed.

Lemma iterations_keep_brightness_policy (ticks : list Facts.Tick)
    (frame : nat) (s : Facts.RenderState) :
  brightness_policy_holds interval ticks
    (iterations_from body max_frames frame ticks s).
Proof.
  split; [|split].
  - intros i c. apply one_call_per_iteration.
  - intros i j ti tj ci cj. apply calls_are_spaced.
  - intros i j ci cj bi bj. apply consecutive_calls_differ.
Qed.

End BrightnessProperties.

Lemma observe_fact_keeps_brightness (fact_font : Font) (t : Facts.Tick)
    (s : Facts.RenderState) :
  Facts.last_brightness (Facts.observe_fact fact_font t s)
  = Facts.last_brightness s
  /\ Facts.last_brightness_check (Facts.observe_fact fact_font t s)
     = Facts.last_brightness_check s.
Proof. unfold Facts.observe_fact. destruct (negb _); now split. Qed.

Lemma static_body_checks_brightness (fact_font : Font) (t : Facts.Tick)
    (s : Facts.RenderState) :
  brightness_calls (Facts.static_body fact_font t s).2
  = brightness_calls (Facts.check_brightness 1800 t s).2
  /\ Facts.last_brightness (Facts.static_body fact_font t s).1
     = Facts.last_brightness (Facts.check_brightness 1800 t s).1
  /\ Facts.last_brightness_check (Facts.static_body fact_font t s).1
     = Facts.last_brightness_check (Facts.check_brightness 1800 t s).1.
Proof.
  unfold Facts.static_body.
  destruct (Facts.check_brightness 1800 t s) as [s1 calls]. simpl.
  destruct (observe_fact_keeps_brightness fact_font t s1) as [Hb Hc].
  unfold brightness_calls. rewrite !omap_app.
  destruct (negb (String.eqb (Facts.current_time_str t) _)); simpl;
    rewrite app_nil_r; auto.
Qed.

Lemma animated_body_checks_brightness
    (left_images right_images : ImageVector) (fact_font : Font) (frame : nat)
    (t : Facts.Tick) (s : Facts.RenderState) :
  brightness_calls
    (Facts.animated_body left_images right_images fact_font frame t s).2
  = brightness_calls (Facts.check_brightness 60 t s).2
  /\ Facts.last_brightness
       (Facts.animated_body left_images right_images fact_font frame t s).1
     = Facts.last_brightness (Facts.check_brightness 60 t s).1
  /\ Facts.last_brightness_check
       (Facts.animated_body left_images right_images fact_font frame t s).1
     = Facts.last_brightness_check (Facts.check_brightness 60 t s).1.
Proof.
  unfold Facts.animated_body.
  destruct (Facts.check_brightness 60 t s) as [s1 calls]. simpl.
  destruct (observe_fact_keeps_brightness fact_font t s1) as [Hb Hc].
  unfold brightness_calls. rewrite !omap_app.
  match goal with |- context [if ?c then _ else []] => destruct c end;
    simpl; rewrite app_nil_r; auto.
Qed.

(** C7: in every run of a render loop of the fact variant the brightness
    setter is called at most once per iteration, two calls are at least
    the re-check interval apart (1800 seconds in the static loop, 60 in the
    animated one) whatever the dim/bright decisions are, and a call sets a
    value that differs from the one applied last. *)
Theorem brightness_set_at_most_once_per_interval
    (fact_font : Font) (ticks : list Facts.Tick) :
  brightness_policy_holds 1800 ticks
    (Facts.ShowDualStaticImagesWithClock fact_font ticks)
  /\ forall left_images right_images : ImageVector,
       left_images <> [] ->
       brightness_policy_holds 60 ticks
         (Facts.ShowDualAnimatedImagesWithClock left_images right_images
            fact_font ticks).
Proof.
  split.
  - unfold Facts.ShowDualStaticImagesWithClock.
    rewrite (while_loop_iterations _ 1 ticks 0).
    apply iterations_keep_brightness_policy; [lia|].
    intros _ t s. apply static_body_checks_brightness.
  - intros left_images right_images Hleft.
    unfold Facts.ShowDualAnimatedImagesWithClock.
    rewrite frame_loop_iterations
      by now apply max_frames_positive.
    apply iterations_keep_brightness_policy; [lia|].
    intros frame t s. apply animated_body_checks_brightness.
Qed.

(** With the decision toggling in every iteration, the animated loop sets
    the brightness in the first and in the third iteration only, 61
    seconds apart. *)
Lemma brightness_set_at_most_once_per_interval_witness :
  brightness_calls <$>
    Facts.ShowDualAnimatedImagesWithClock
      [frame_with_delay 10; frame_with_delay 10] [frame_with_delay 4]
      font_6_wide toggling_ticks
  = [[100]; []; [10]]
  /\ 60 <= Facts.now (tick_at 1000061 0 0 "hi")
           - Facts.now (tick_at 1000000 12 0 "hi").
Proof.
  split; [reflexivity|].
  destruct (proj2 (brightness_set_at_most_once_per_interval
                     font_6_wide toggling_ticks)
              [frame_with_delay 10; frame_with_delay 10]
              [frame_with_delay 4]
              ltac:(discriminate)) as (_ & Hspaced & _).
  eapply (Hspaced 0%nat 2%nat); try reflexivity; [lia| |]; discriminate.
Defined.

(** ** Fonts at start-up *)

(** C8 (as the code has it): with the flags parsed, the matrix created and
    both images decoded, the weather variant tries its three font paths in
    order and goes on to show the images with whatever it got, without
    text if none loads; the fact variant tries its three ticker font paths
    in order and uses the clock font for the ticker if none loads, but it
    exits with code 1 when the clock font itself does not load. *)
Theorem font_fallback_at_startup (start : Startup) :
  flags_parse start = true -> matrix_created start = true ->
  left_loaded start <> [] -> right_loaded start <> [] ->
  (3 <= argc start <= 4 ->
   Weather.main start
   = Weather.Shows (choose_display (left_loaded start) (right_loaded start))
                   (first_loadable start weather_font_paths))
  /\ (3 <= argc start ->
      Facts.main start
      = match LoadFont start clock_font_path with
        | Some font =>
            Facts.Shows (choose_display (left_loaded start) (right_loaded start))
                        font
                        (default font (first_loadable start fact_font_paths))
        | None => Facts.Exit 1
        end).
Proof.
  intros Hflags Hmatrix Hleft Hright. split; intros Hargc.
  - unfold Weather.main. rewrite Hflags, Hmatrix. simpl.
    replace (argc start <? 3) with false by (symmetry; apply Z.ltb_ge; lia).
    replace (4 <? argc start) with false by (symmetry; apply Z.ltb_ge; lia).
    simpl.
    replace (Weather.load_font start) with (first_loadable start weather_font_paths).
    + destruct (left_loaded start); [congruence|].
      destruct (right_loaded start); [congruence|reflexivity].
    + unfold Weather.load_font. simpl.
      repeat match goal with |- context [LoadFont start ?p] =>
               destruct (LoadFont start p) end; reflexivity.
  - unfold Facts.main. rewrite Hflags, Hmatrix. simpl.
    replace (argc start <? 3) with false by (symmetry; apply Z.ltb_ge; lia).
    unfold clock_font_path.
    destruct (LoadFont start "/opt/cats-display/fonts/5x7.bdf") as [font|];
      [|reflexivity].
    replace (Facts.load_fact_font start font)
      with (default font (first_loadable start fact_font_paths)).
    + destruct (left_loaded start); [congruence|].
      destruct (right_loaded start); [congruence|reflexivity].
    + unfold Facts.load_fact_font. simpl.
      repeat match goal with |- context [LoadFont start ?p] =>
               destruct (LoadFont start p) end; reflexivity.
Qed.

(** With no font file loadable at all, the weather variant shows its
    images without text. *)
Lemma font_fallback_at_startup_witness :
  Weather.main (startup_with (fun _ => None))
  = Weather.Shows StaticDisplay None.
Proof.
  apply (proj1 (font_fallback_at_startup (startup_with (fun _ => None))
                  eq_refl eq_refl ltac:(discriminate) ltac:(discriminate))).
  simpl. lia.
Defined.

(** C8 as the spec words it fails for the fact variant: with no font file
    loadable (and nothing else wrong) it shows nothing and exits with
    code 1, where the same start-up with the fonts in place shows the
    images. *)
Lemma fact_variant_exits_without_clock_font :
  Facts.main (startup_with (fun _ => None)) = Facts.Exit 1
  /\ Facts.main (startup_with (fun _ => Some font_6_wide))
     = Facts.Shows StaticDisplay font_6_wide font_6_wide.
Proof. split; reflexivity. Qed.

(** ** Fetching with retry *)

Lemma fetch_attempts_app (l1 l2 : list Facts.Event) :
  Facts.fetch_attempts (l1 ++ l2)
  = (Facts.fetch_attempts l1 + Facts.fetch_attempts l2)%nat.
Proof. unfold Facts.fetch_attempts. now rewrite filter_app, length_app. Qed.

(** Every call of [FetchOrLoadFactOfTheDay] shows as one attempt in the
    log, whether it returns or throws. *)
Lemma fetch_counts_once (E : Facts.Env) (w : Facts.World) :
  Facts.fetch_attempts (Facts.log (Facts.FetchOrLoadFactOfTheDay E w).2)
  = S (Facts.fetch_attempts (Facts.log w)).
Proof.
  unfold Facts.FetchOrLoadFactOfTheDay, Facts.fetch_from_api, Facts.bind,
    Facts.GetTodayDateLocal, Facts.read_file, Facts.call_api, Facts.emit,
    Facts.write_file, Facts.ret, Facts.raise.
  simpl.
  destruct (Facts.files w !! _) as [cached|]; simpl.
  1: destruct (String.eqb cached ""); simpl.
  all: try (rewrite fetch_attempts_app; simpl; lia).
  all: destruct (Facts.net E (Facts.api_calls w)); simpl.
  all: try destruct (Facts.can_write E _); simpl.
  all: rewrite ?fetch_attempts_app; simpl;
    unfold Facts.fetch_attempts; simpl; lia.
Qed.

Lemma after_failed_attempt_count (attempt wait_seconds : Z)
    (w : Facts.World) :
  Facts.fetch_attempts (Facts.log (after_failed_attempt attempt wait_seconds w))
  = Facts.fetch_attempts (Facts.log w).
Proof.
  unfold after_failed_attempt, Facts.emit. simpl.
  rewrite !fetch_attempts_app. unfold Facts.fetch_attempts. simpl. lia.
Qed.

Lemma retry_from_all_fail (E : Facts.Env) (n : nat) :
  forall (attempt wait_seconds : Z) (w : Facts.World),
    Forall attempt_failed (attempts E n attempt wait_seconds w) ->
    exists w' : Facts.World,
      Facts.retry_from E n attempt wait_seconds w
      = (Facts.Ok Facts.retries_exhausted, w')
      /\ Facts.fetch_attempts (Facts.log w')
         = (Facts.fetch_attempts (Facts.log w) + n)%nat.
Proof.
  induction n as [|n IH]; intros attempt wait_seconds w Hfail.
  - exists w. split; [reflexivity|lia].
  - simpl in Hfail. apply Forall_cons in Hfail as [Hfirst Hrest].
    destruct Hfirst as (fact & Hfact & Hinvalid).
    pose proof (fetch_counts_once E w) as Hcount.
    destruct (Facts.FetchOrLoadFactOfTheDay E w) as [r w1] eqn:Hfetch.
    simpl in Hfact, Hrest, Hcount. subst r.
    destruct (IH _ _ _ Hrest) as (w' & Hret & Hattempts).
    exists w'. split.
    + simpl. unfold Facts.bind at 1. rewrite Hfetch, Hinvalid. exact Hret.
    + rewrite Hattempts, after_failed_attempt_count, Hcount. lia.
Qed.

Lemma retry_from_first_success (E : Facts.Env) (n : nat) :
  forall (attempt wait_seconds : Z) (w : Facts.World) (k : nat)
         (fact : string) (w1 : Facts.World),
    attempts E n attempt wait_seconds w !! k = Some (Facts.Ok fact, w1) ->
    Facts.is_valid_fact fact = true ->
    Forall attempt_failed (take k (attempts E n attempt wait_seconds w)) ->
    Facts.retry_from E n attempt wait_seconds w = (Facts.Ok fact, w1)
    /\ Facts.fetch_attempts (Facts.log w1)
       = (Facts.fetch_attempts (Facts.log w) + S k)%nat.
Proof.
  induction n as [|n IH]; intros attempt wait_seconds w k fact w1 Hk Hvalid Hfail.
  - destruct k; discriminate.
  - simpl in Hk, Hfail.
    pose proof (fetch_counts_once E w) as Hcount.
    destruct (Facts.FetchOrLoadFactOfTheDay E w) as [r w0] eqn:Hfetch.
    simpl in Hk, Hfail, Hcount.
    destruct k as [|k].
    + injection Hk as -> ->. split.
      * simpl. unfold Facts.bind at 1. now rewrite Hfetch, Hvalid.
      * rewrite Hcount. lia.
    + simpl in Hk, Hfail. apply Forall_cons in Hfail as [Hfirst Hrest].
      destruct Hfirst as (fact0 & Hfact0 & Hinvalid). simpl in Hfact0. subst r.
      destruct (IH _ _ _ _ _ _ Hk Hvalid Hrest) as [Hret Hattempts].
      split.
      * simpl. unfold Facts.bind at 1. rewrite Hfetch, Hinvalid. exact Hret.
      * rewrite Hattempts, after_failed_attempt_count, Hcount. lia.
Qed.

Lemma retry_from_first_raise (E : Facts.Env) (n : nat) :
  forall (attempt wait_seconds : Z) (w : Facts.World) (k : nat)
         (w1 : Facts.World),
    attempts E n attempt wait_seconds w !! k = Some (Facts.Raise, w1) ->
    Forall attempt_failed (take k (attempts E n attempt wait_seconds w)) ->
    Facts.retry_from E n attempt wait_seconds w = (Facts.Raise, w1)
    /\ Facts.fetch_attempts (Facts.log w1)
       = (Facts.fetch_attempts (Facts.log w) + S k)%nat.
Proof.
  induction n as [|n IH]; intros attempt wait_seconds w k w1 Hk Hfail.
  - destruct k; discriminate.
  - simpl in Hk, Hfail.
    pose proof (fetch_counts_once E w) as Hcount.
    destruct (Facts.FetchOrLoadFactOfTheDay E w) as [r w0] eqn:Hfetch.
    simpl in Hk, Hfail, Hcount.
    destruct k as [|k].
    + injection Hk as -> ->. split.
      * simpl. unfold Facts.bind at 1. now rewrite Hfetch.
      * rewrite Hcount. lia.
    + simpl in Hk, Hfail. apply Forall_cons in Hfail as [Hfirst Hrest].
      destruct Hfirst as (fact0 & Hfact0 & Hinvalid). simpl in Hfact0. subst r.
      destruct (IH _ _ _ _ _ Hk Hrest) as [Hret Hattempts].
      split.
      * simpl. unfold Facts.bind at 1. rewrite Hfetch, Hinvalid. exact Hret.
      * rewrite Hattempts, after_failed_attempt_count, Hcount. lia.
Qed.

(** Either every attempt of a sequence returns a text without the label,
    or there is a first one that does something else: it returns a text
    with the label, or it throws. *)
Lemma first_attempt_not_failed
    (tries : list (Facts.Result string * Facts.World)) :
  Forall attempt_failed tries
  \/ exists (k : nat) (w1 : Facts.World),
       Forall attempt_failed (take k tries)
       /\ (tries !! k = Some (Facts.Raise, w1)
           \/ exists fact : string,
                tries !! k = Some (Facts.Ok fact, w1)
                /\ Facts.is_valid_fact fact = true).
Proof.
  induction tries as [|[r w0] tries IH].
  - left. constructor.
  - destruct r as [fact|].
    + destruct (Facts.is_valid_fact fact) eqn:Hvalid.
      * right. exists 0%nat, w0. split; [constructor|].
        right. exists fact. split; [reflexivity|exact Hvalid].
      * assert (Hhead : attempt_failed (Facts.Ok fact, w0))
          by (exists fact; split; [reflexivity|exact Hvalid]).
        destruct IH as [Hall|(k & w1 & Hbefore & Hkth)].
        -- left. apply List.Forall_cons; assumption.
        -- right. exists (S k), w1. split; [|exact Hkth].
           simpl. apply List.Forall_cons; assumption.
    + right. exists 0%nat, w0. split; [constructor|]. left. reflexivity.
Qed.

(** C5 (as the code has it): for every [max_retries] (in particular from 1
    on), with [tries] what the successive calls of
    [FetchOrLoadFactOfTheDay] give: if every attempt returns a text without
    the label, the retry makes exactly [max_retries] attempts and returns
    the failure text, without throwing; if an attempt returns a text with
    the label (those before it having returned texts without), that text
    is returned at once, with no further attempt; if an attempt throws
    (those before it having returned texts without the label), the
    exception leaves [FetchFactWithRetry] at once, with no further attempt
    and no failure text; and one of the three always is the case. *)
Theorem FetchFactWithRetry_attempts
    (E : Facts.Env) (max_retries wait_seconds : Z) (w : Facts.World) :
  let tries := attempts E (Z.to_nat max_retries) 1 wait_seconds w in
  (Forall attempt_failed tries ->
   exists w' : Facts.World,
     Facts.FetchFactWithRetry E max_retries wait_seconds w
     = (Facts.Ok Facts.retries_exhausted, w')
     /\ Facts.fetch_attempts (Facts.log w')
        = (Facts.fetch_attempts (Facts.log w) + Z.to_nat max_retries)%nat)
  /\ (forall (k : nat) (fact : string) (w1 : Facts.World),
        tries !! k = Some (Facts.Ok fact, w1) ->
        Facts.is_valid_fact fact = true ->
        Forall attempt_failed (take k tries) ->
        Facts.FetchFactWithRetry E max_retries wait_seconds w
        = (Facts.Ok fact, w1)
        /\ Facts.fetch_attempts (Facts.log w1)
           = (Facts.fetch_attempts (Facts.log w) + S k)%nat)
  /\ (forall (k : nat) (w1 : Facts.World),
        tries !! k = Some (Facts.Raise, w1) ->
        Forall attempt_failed (take k tries) ->
        Facts.FetchFactWithRetry E max_retries wait_seconds w
        = (Facts.Raise, w1)
        /\ Facts.fetch_attempts (Facts.log w1)
           = (Facts.fetch_attempts (Facts.log w) + S k)%nat)
  /\ (Forall attempt_failed tries
      \/ exists (k : nat) (w1 : Facts.World),
           Forall attempt_failed (take k tries)
           /\ (tries !! k = Some (Facts.Raise, w1)
               \/ exists fact : string,
                    tries !! k = Some (Facts.Ok fact, w1)
                    /\ Facts.is_valid_fact fact = true)).
Proof.
  intros tries. unfold Facts.FetchFactWithRetry.
  split; [|split; [|split]].
  - apply retry_from_all_fail.
  - apply retry_from_first_success.
  - apply retry_from_first_raise.
  - apply first_attempt_not_failed.
Qed.

(** With the network down, three attempts are made and the failure text
    comes back; with the second request answered, the second attempt's
    fact comes back after two attempts; with an answer whose "text" member
    cannot be read as a text, the first attempt's exception comes out. *)
Lemma FetchFactWithRetry_attempts_witness :
  (exists w' : Facts.World,
     Facts.FetchFactWithRetry offline 3 10 (world_showing "old")
     = (Facts.Ok Facts.retries_exhausted, w')
     /\ Facts.fetch_attempts (Facts.log w') = 3%nat)
  /\ (Facts.FetchFactWithRetry second_request_answered 3 10
        (world_showing "old")).1
     = Facts.Ok "Today's fact: Bananas are berries."
  /\ (Facts.FetchFactWithRetry garbled_answers 3 10
        (world_showing "old")).1
     = Facts.Raise.
Proof.
  split; [|split].
  - apply (proj1 (FetchFactWithRetry_attempts offline 3 10
                    (world_showing "old"))).
    change (Z.to_nat 3) with 3%nat. cbn [attempts].
    repeat (apply List.Forall_cons;
            [eexists; split; vm_compute; reflexivity|]).
    apply List.Forall_nil.
  - refine (f_equal fst
              (proj1 (proj1 (proj2 (FetchFactWithRetry_attempts
                               second_request_answered 3 10
                               (world_showing "old"))) 1%nat _ _ _ _ _)));
      [vm_compute; reflexivity|vm_compute; reflexivity|].
    apply List.Forall_cons; [|apply List.Forall_nil].
    eexists; split; vm_compute; reflexivity.
  - refine (f_equal fst
              (proj1 (proj1 (proj2 (proj2 (FetchFactWithRetry_attempts
                               garbled_answers 3 10
                               (world_showing "old")))) 0%nat _ _ _)));
      [vm_compute; reflexivity|].
    apply List.Forall_nil.
Defined.

(** C5 as the spec words it fails: when the endpoint answers with a "text"
    member that cannot be read as a text, no call of the fetch returns a
    text at all, with or without the label; yet a retry sequence of three
    makes one attempt, not three, and that attempt's exception comes out
    of it instead of the failure text. *)
Lemma throwing_fetch_is_not_retried :
  (forall w : Facts.World,
      Facts.files w = ∅ ->
      (Facts.FetchOrLoadFactOfTheDay garbled_answers w).1 = Facts.Raise)
  /\ exists w' : Facts.World,
       Facts.FetchFactWithRetry garbled_answers 3 10 (world_showing "old")
       = (Facts.Raise, w')
       /\ Facts.fetch_attempts (Facts.log w') = 1%nat
       /\ Facts.files w' = ∅.
Proof.
  split.
  - intros w Hfiles.
    unfold Facts.FetchOrLoadFactOfTheDay, Facts.bind at 1 2,
      Facts.GetTodayDateLocal, Facts.read_file.
    cbn [fst snd Facts.files]. rewrite Hfiles, lookup_empty. reflexivity.
  - eexists. split; [vm_compute; reflexivity|]. split; reflexivity.
Qed.

(** ** The date-keyed cache *)

Lemma cache_miss_fetches (E : Facts.Env) (w : Facts.World) :
  let today := Facts.dates E (Facts.clock_reads w) in
  Facts.files w !! Facts.cache_path_of today = None
  \/ Facts.files w !! Facts.cache_path_of today = Some "" ->
  Facts.FetchOrLoadFactOfTheDay E w
  = Facts.fetch_from_api E today (Facts.GetTodayDateLocal E w).2.
Proof.
  intros today Hmiss.
  unfold Facts.FetchOrLoadFactOfTheDay, Facts.bind at 1 2,
    Facts.GetTodayDateLocal, Facts.read_file. simpl.
  fold today. destruct Hmiss as [-> | ->]; reflexivity.
Qed.

Lemma fetch_from_api_calls (E : Facts.Env) (today : string)
    (w : Facts.World) :
  Facts.api_calls (Facts.fetch_from_api E today w).2
  = S (Facts.api_calls w).
Proof.
  unfold Facts.fetch_from_api, Facts.bind, Facts.call_api, Facts.emit,
    Facts.write_file, Facts.ret, Facts.raise. simpl.
  destruct (Facts.net E (Facts.api_calls w)); simpl; try reflexivity.
  destruct (Facts.can_write E _); reflexivity.
Qed.

Lemma cache_hit_returns (E : Facts.Env) (w : Facts.World) (text : string) :
  let today := Facts.dates E (Facts.clock_reads w) in
  Facts.files w !! Facts.cache_path_of today = Some text ->
  text <> "" ->
  Facts.FetchOrLoadFactOfTheDay E w
  = (Facts.Ok text,
     (Facts.emit (Facts.LoadedCachedFact today)
        (Facts.GetTodayDateLocal E w).2).2).
Proof.
  intros today Hhit Hne.
  unfold Facts.FetchOrLoadFactOfTheDay, Facts.bind at 1 2,
    Facts.GetTodayDateLocal, Facts.read_file. simpl.
  fold today. rewrite Hhit.
  destruct (String.eqb_spec text "") as [Heq|_]; [contradiction|].
  reflexivity.
Qed.

(** C6: a cache file that is absent or empty for today's date key is a
    miss, and the call goes on to the endpoint; a file with a text in it
    is a hit that returns exactly that text without calling the endpoint;
    and a fact the code has fetched and stored is what the next call on
    the same day returns, again without calling the endpoint. *)
Theorem cache_round_trip (E : Facts.Env) (w : Facts.World) :
  let today := Facts.dates E (Facts.clock_reads w) in
  let path := Facts.cache_path_of today in
  (Facts.files w !! path = None \/ Facts.files w !! path = Some "" ->
   Facts.FetchOrLoadFactOfTheDay E w
   = Facts.fetch_from_api E today (Facts.GetTodayDateLocal E w).2
   /\ Facts.api_calls (Facts.FetchOrLoadFactOfTheDay E w).2
      = S (Facts.api_calls w))
  /\ (forall text : string,
        Facts.files w !! path = Some text -> text <> "" ->
        exists w' : Facts.World,
          Facts.FetchOrLoadFactOfTheDay E w = (Facts.Ok text, w')
          /\ Facts.api_calls w' = Facts.api_calls w
          /\ Facts.files w' = Facts.files w
          /\ Facts.log w' = Facts.log w ++ [Facts.LoadedCachedFact today])
  /\ (forall raw : string,
        Facts.files w !! path = None \/ Facts.files w !! path = Some "" ->
        Facts.net E (Facts.api_calls w) = Facts.TextField raw ->
        Facts.can_write E path = true ->
        Facts.dates E (S (Facts.clock_reads w)) = today ->
        exists w1 w2 : Facts.World,
          Facts.FetchOrLoadFactOfTheDay E w
          = (Facts.Ok (Facts.clean_fact_text raw), w1)
          /\ Facts.files w1 !! path = Some (Facts.clean_fact_text raw)
          /\ Facts.FetchOrLoadFactOfTheDay E w1
             = (Facts.Ok (Facts.clean_fact_text raw), w2)
          /\ Facts.api_calls w2 = Facts.api_calls w1).
Proof.
  intros today path. split; [|split].
  - intros Hmiss. rewrite (cache_miss_fetches E w Hmiss).
    split; [reflexivity|]. rewrite fetch_from_api_calls. reflexivity.
  - intros text Hhit Hne. eexists. split.
    + exact (cache_hit_returns E w text Hhit Hne).
    + repeat split.
  - intros raw Hmiss Hnet Hwrite Hday.
    rewrite (cache_miss_fetches E w Hmiss).
    unfold Facts.fetch_from_api, Facts.bind at 1 2, Facts.emit at 1,
      Facts.call_api. simpl. rewrite Hnet. fold today. fold path.
    rewrite Hwrite. simpl.
    eexists. eexists. split; [reflexivity|]. split.
    + simpl. apply lookup_insert_eq.
    + assert (Hstored :
        Facts.clean_fact_text raw <> "") by (unfold Facts.clean_fact_text; discriminate).
      match goal with |- context [Facts.FetchOrLoadFactOfTheDay E ?w1] =>
        pose proof (cache_hit_returns E w1 (Facts.clean_fact_text raw)) as Hget
      end.
      simpl in Hget. rewrite Hday in Hget. fold today in Hget. fold path in Hget.
      rewrite lookup_insert_eq in Hget.
      specialize (Hget eq_refl Hstored).
      split; [exact Hget|reflexivity].
Qed.

(** A fact fetched on the second request of the day is stored, and the
    next call on that day returns it from the cache. *)
Lemma cache_round_trip_witness :
  exists w1 w2 : Facts.World,
    Facts.FetchOrLoadFactOfTheDay second_request_answered
      world_after_one_request
    = (Facts.Ok "Today's fact: Bananas are berries.", w1)
    /\ Facts.files w1 !! "/tmp/cats-cache/2024-01-02.txt"
       = Some "Today's fact: Bananas are berries."
    /\ Facts.FetchOrLoadFactOfTheDay second_request_answered w1
       = (Facts.Ok "Today's fact: Bananas are berries.", w2)
    /\ Facts.api_calls w2 = Facts.api_calls w1.
Proof.
  apply (proj2 (proj2 (cache_round_trip second_request_answered
                         world_after_one_request))
           "Bananas are  berries. ").
  - left. reflexivity.
  - reflexivity.
  - reflexivity.
  - reflexivity.
Defined.

(** ** The refresh thread *)

Lemma worth_publishing_retries_exhausted :
  Facts.worth_publishing Facts.retries_exhausted = true.
Proof. reflexivity. Qed.

(** What one wake does on a date it has not handled yet, once the retry
    sequence has returned [new_fact]. *)
Lemma new_day_wake (E : Facts.Env) (last_date : string) (w : Facts.World)
    (new_fact : string) (w1 : Facts.World) :
  let today := Facts.dates E (Facts.clock_reads w) in
  today <> last_date ->
  Facts.FetchFactWithRetry E 6 10
    (Facts.emit (Facts.NewDayDetected today last_date)
       (Facts.GetTodayDateLocal E w).2).2
  = (Facts.Ok new_fact, w1) ->
  Facts.fact_update_wake E last_date w
  = (today,
     (Facts.emit (Facts.Slept 1800)
        (if Facts.worth_publishing new_fact then
           (Facts.emit (Facts.FactLoaded today new_fact)
              (Facts.publish new_fact w1).2).2
         else (Facts.emit Facts.KeepingCurrentFact w1).2)).2).
Proof.
  intros today Hnew Hfetch.
  unfold Facts.fact_update_wake, Facts.fact_update_try.
  unfold Facts.bind at 1. simpl. fold today.
  destruct (String.eqb_spec today last_date) as [Heq|_]; [contradiction|].
  simpl. unfold Facts.bind at 1. simpl.
  unfold Facts.bind at 1.
  simpl in Hfetch. fold today in Hfetch. rewrite Hfetch.
  destruct (Facts.worth_publishing new_fact); reflexivity.
Qed.

(** Whatever the retry sequence returns passes the thread's test: the
    texts the test excludes are those of single attempts, which the retry
    sequence never hands on.  So the branch "Failed to fetch today's fact,
    keeping current one" is not taken after a retry sequence that
    returns. *)
Lemma retry_result_is_published (E : Facts.Env) (n : nat) :
  forall (attempt wait_seconds : Z) (w : Facts.World) (fact : string)
         (w' : Facts.World),
    Facts.retry_from E n attempt wait_seconds w = (Facts.Ok fact, w') ->
    Facts.worth_publishing fact = true.
Proof.
  induction n as [|n IH]; intros attempt wait_seconds w fact w' Hret.
  - injection Hret as <- _. reflexivity.
  - simpl in Hret. unfold Facts.bind at 1 in Hret.
    destruct (Facts.FetchOrLoadFactOfTheDay E w) as [[fetched|] w1];
      [|discriminate].
    destruct (Facts.is_valid_fact fetched) eqn:Hvalid.
    + injection Hret as <- _. unfold Facts.worth_publishing.
      destruct (String.eqb_spec fetched "") as [->|_]; [discriminate|].
      destruct (String.eqb_spec fetched "Could not fetch today's fact")
        as [->|_]; [discriminate|].
      destruct (String.eqb_spec fetched "Error parsing today's fact")
        as [->|_]; [discriminate|].
      destruct (String.eqb_spec fetched "Today's fact not found in response")
        as [->|_]; [discriminate|].
      reflexivity.
    + exact (IH _ _ _ _ _ Hret).
Qed.

(** C1 (what the code does instead): when all six attempts of the day's
    retry sequence fail, the wake publishes the retry failure text into
    the shared slot, whatever was shown before. *)
Theorem failed_refresh_publishes_failure_text
    (E : Facts.Env) (last_date : string) (w : Facts.World) :
  let today := Facts.dates E (Facts.clock_reads w) in
  today <> last_date ->
  Forall attempt_failed
    (attempts E 6 1 10
       (Facts.emit (Facts.NewDayDetected today last_date)
          (Facts.GetTodayDateLocal E w).2).2) ->
  Facts.current_fact (Facts.fact_update_wake E last_date w).2
  = Facts.retries_exhausted.
Proof.
  intros today Hnew Hfail.
  destruct (retry_from_all_fail E 6 1 10 _ Hfail) as (w1 & Hret & _).
  rewrite (new_day_wake E last_date w Facts.retries_exhausted w1 Hnew Hret).
  reflexivity.
Qed.

(** The failing input: "Today's fact: old" is on display, the date turns
    to 2024-01-02, the cache is empty and the network is down. *)
Lemma failed_refresh_publishes_failure_text_witness :
  Facts.current_fact
    (Facts.fact_update_wake offline "2024-01-01"
       (world_showing "Today's fact: old")).2
  = "Could not fetch fact after retries".
Proof.
  apply (failed_refresh_publishes_failure_text offline "2024-01-01"
           (world_showing "Today's fact: old")).
  - discriminate.
  - cbn [attempts].
    repeat (apply List.Forall_cons;
            [eexists; split; vm_compute; reflexivity|]).
    apply List.Forall_nil.
Defined.

(** A wake on the date handled last only reads the clock and sleeps. *)
Lemma same_day_wake (E : Facts.Env) (last_date : string) (w : Facts.World) :
  Facts.dates E (Facts.clock_reads w) = last_date ->
  Facts.fact_update_wake E last_date w
  = (last_date,
     (Facts.emit (Facts.Slept 1800) (Facts.GetTodayDateLocal E w).2).2).
Proof.
  intros Hsame.
  unfold Facts.fact_update_wake, Facts.fact_update_try.
  unfold Facts.bind at 1. simpl. rewrite Hsame.
  now rewrite String.eqb_refl.
Qed.

Lemma same_day_wakes (E : Facts.Env) (last_date : string) (k : nat) :
  forall w : Facts.World,
    (forall i : nat, (i < k)%nat ->
       Facts.dates E (Facts.clock_reads w + i) = last_date) ->
    (Facts.fact_update_loop E k last_date w).1 = last_date
    /\ Facts.fetch_attempts
         (Facts.log (Facts.fact_update_loop E k last_date w).2)
       = Facts.fetch_attempts (Facts.log w)
    /\ Facts.api_calls (Facts.fact_update_loop E k last_date w).2
       = Facts.api_calls w
    /\ Facts.current_fact (Facts.fact_update_loop E k last_date w).2
       = Facts.current_fact w
    /\ Facts.files (Facts.fact_update_loop E k last_date w).2
       = Facts.files w.
Proof.
  induction k as [|k IH]; intros w Hdates.
  - now repeat split.
  - simpl. rewrite same_day_wake.
    2: { rewrite <- (Hdates 0%nat ltac:(lia)). f_equal. lia. }
    destruct (IH (Facts.emit (Facts.Slept 1800)
                    (Facts.GetTodayDateLocal E w).2).2)
      as (Hd & Ha & Hc & Hf & Hfiles).
    { intros i Hi. simpl. rewrite <- (Hdates (S i) ltac:(lia)).
      f_equal. lia. }
    rewrite Hd, Ha, Hc, Hf, Hfiles. simpl.
    rewrite fetch_attempts_app. unfold Facts.fetch_attempts at 2. simpl.
    repeat split. lia.
Qed.

(** C9: when a wake sees a date it has not handled and its retry sequence
    returns (a fact or the failure text alike), the date is recorded, and
    in all the wakes that follow on that same date nothing is fetched:
    no call of [FetchOrLoadFactOfTheDay], no request to the endpoint, and
    the shared slot and the cache stay as they are. *)
Theorem handled_date_not_fetched_again
    (E : Facts.Env) (last_date : string) (w : Facts.World)
    (new_fact : string) (w1 : Facts.World) :
  let today := Facts.dates E (Facts.clock_reads w) in
  today <> last_date ->
  Facts.FetchFactWithRetry E 6 10
    (Facts.emit (Facts.NewDayDetected today last_date)
       (Facts.GetTodayDateLocal E w).2).2
  = (Facts.Ok new_fact, w1) ->
  let woken := Facts.fact_update_wake E last_date w in
  woken.1 = today
  /\ forall k : nat,
       (forall i : nat, (i < k)%nat ->
          Facts.dates E (Facts.clock_reads woken.2 + i) = today) ->
       let later := Facts.fact_update_loop E k woken.1 woken.2 in
       later.1 = today
       /\ Facts.fetch_attempts (Facts.log later.2)
          = Facts.fetch_attempts (Facts.log woken.2)
       /\ Facts.api_calls later.2 = Facts.api_calls woken.2
       /\ Facts.current_fact later.2 = Facts.current_fact woken.2
       /\ Facts.files later.2 = Facts.files woken.2.
Proof.
  intros today Hnew Hfetch woken.
  assert (Hdate : woken.1 = today).
  { subst woken.
    now rewrite (new_day_wake E last_date w new_fact w1 Hnew Hfetch). }
  split; [exact Hdate|].
  intros k Hdates later. subst later. rewrite Hdate.
  now apply same_day_wakes.
Qed.

(** With the network down all day, the first wake of 2024-01-02 makes its
    six attempts and the next three wakes make none. *)
Lemma handled_date_not_fetched_again_witness :
  Facts.fetch_attempts
    (Facts.log (Facts.fact_update_loop offline 4 "2024-01-01"
                  (world_showing "old")).2)
  = 6%nat.
Proof.
  destruct (handled_date_not_fetched_again offline "2024-01-01"
              (world_showing "old")
              Facts.retries_exhausted
              (Facts.FetchFactWithRetry offline 6 10
                 (Facts.emit (Facts.NewDayDetected "2024-01-02" "2024-01-01")
                    (Facts.GetTodayDateLocal offline
                       (world_showing "old")).2).2).2
              ltac:(discriminate) ltac:(vm_compute; reflexivity))
    as [_ Hlater].
  destruct (Hlater 3%nat ltac:(reflexivity)) as (_ & Hattempts & _).
  cbn [Facts.fact_update_loop].
  destruct (Facts.fact_update_wake offline "2024-01-01" (world_showing "old"))
    as [d w2] eqn:Hwake.
  simpl in Hattempts. rewrite Hattempts.
  apply (f_equal snd) in Hwake. simpl in Hwake. subst w2.
  vm_compute. reflexivity.
Defined.

(** * Further properties *)

(** ** Where the pixels of a frame land *)

Section CopyPlacement.

Variable ScaleQuantumToChar : Z -> Z.
Variable size_t_bits : Z.
Hypothesis size_t_wide : 32 <= size_t_bits.

Lemma to_size_t_small (z : Z) :
  0 <= z < 2 ^ 31 -> to_size_t size_t_bits z = z.
Proof.
  intros Hz. unfold to_size_t. apply Z.mod_small.
  assert (2 ^ 32 <= 2 ^ size_t_bits) by (apply Z.pow_le_mono_r; lia).
  lia.
Qed.

Lemma coordinate_kept (z : Z) :
  0 <= z < 2 ^ 31 -> to_int (to_size_t size_t_bits z) = z.
Proof.
  intros Hz. rewrite to_size_t_small by exact Hz.
  unfold to_int. rewrite Z.mod_small by lia. lia.
Qed.

(** One row: the cells [x0 + offset_x ..] of row [y + offset_y] take the
    pixels that are copied; every other cell keeps its content. *)
Lemma copy_pixels_lookup (image : Image) (offset_x offset_y y : Z) (n : nat) :
  forall (x0 : Z) (canvas : gmap (Z * Z) RGB) (px py : Z),
    0 <= x0 + offset_x -> x0 + offset_x + Z.of_nat n <= 2 ^ 31 ->
    0 <= y + offset_y < 2 ^ 31 ->
    copy_pixels ScaleQuantumToChar size_t_bits n x0 y image canvas
      offset_x offset_y !! (px, py)
    = if (py =? y + offset_y) && (x0 + offset_x <=? px)
         && (px <? x0 + offset_x + Z.of_nat n)
         && (alphaQuantum (pixelColor image (px - offset_x) y) <? 256)
      then Some (scaled_colour ScaleQuantumToChar
                   (pixelColor image (px - offset_x) y))
      else canvas !! (px, py).
Proof.
  induction n as [|n IH]; intros x0 canvas px py Hx0 Hxn Hy.
  - cbn [copy_pixels].
    match goal with |- _ = (if ?c then _ else _) => destruct c eqn:Hin end;
      [|reflexivity].
    apply andb_prop in Hin as [Hin _]. apply andb_prop in Hin as [Hin Hlt].
    apply andb_prop in Hin as [_ Hle].
    apply Z.leb_le in Hle. apply Z.ltb_lt in Hlt. lia.
  - cbn [copy_pixels]. rewrite IH by lia.
    rewrite !coordinate_kept by lia.
    destruct (Z.eqb_spec py (y + offset_y)) as [->|Hrow]; simpl.
    2: { destruct (alphaQuantum (pixelColor image x0 y) <? 256);
           [|reflexivity].
         unfold SetPixel, canvas_sink. apply lookup_insert_ne. congruence. }
    destruct (Z.eq_dec px (x0 + offset_x)) as [->|Hcol].
    + replace (x0 + 1 + offset_x <=? x0 + offset_x) with false
        by (symmetry; apply Z.leb_gt; lia).
      replace (x0 + offset_x <=? x0 + offset_x) with true
        by (symmetry; apply Z.leb_le; lia).
      replace (x0 + offset_x <? x0 + offset_x + Z.of_nat (S n)) with true
        by (symmetry; apply Z.ltb_lt; lia).
      replace (x0 + offset_x - offset_x) with x0 by lia. simpl.
      destruct (alphaQuantum (pixelColor image x0 y) <? 256); [|reflexivity].
      unfold SetPixel, canvas_sink. apply lookup_insert_eq.
    + replace (x0 + 1 + offset_x <=? px) with (x0 + offset_x <=? px).
      2: { destruct (Z.leb_spec (x0 + offset_x) px);
           [symmetry; apply Z.leb_le|symmetry; apply Z.leb_gt]; lia. }
      replace (x0 + 1 + offset_x + Z.of_nat n)
        with (x0 + offset_x + Z.of_nat (S n)) by lia.
      match goal with |- (if ?c then _ else _) = _ => destruct c end;
        [reflexivity|].
      destruct (alphaQuantum (pixelColor image x0 y) <? 256); [|reflexivity].
      unfold SetPixel, canvas_sink. apply lookup_insert_ne. congruence.
Qed.

Ltac split_comparisons :=
  repeat match goal with
         | |- context [?a <=? ?b] => destruct (Z.leb_spec a b)
         | |- context [?a <? ?b] => destruct (Z.ltb_spec a b)
         | |- context [?a =? ?b] => destruct (Z.eqb_spec a b)
         end;
  simpl; try reflexivity; try lia.

(** All rows from [y0] on. *)
Lemma copy_lines_lookup (row_limit : option Z) (image : Image)
    (offset_x offset_y : Z) (n : nat) :
  forall (y0 : Z) (canvas : gmap (Z * Z) RGB) (px py : Z),
    limit_in_range row_limit ->
    0 <= offset_x -> offset_x + Z.of_nat (columns image) <= 2 ^ 31 ->
    0 <= y0 + offset_y -> y0 + offset_y + Z.of_nat n <= 2 ^ 31 ->
    copy_lines ScaleQuantumToChar size_t_bits row_limit n y0 image canvas
      offset_x offset_y !! (px, py)
    = if (offset_x <=? px) && (px <? offset_x + Z.of_nat (columns image))
         && (y0 + offset_y <=? py) && (py <? y0 + offset_y + Z.of_nat n)
         && match row_limit with Some limit => py <? limit | None => true end
         && (alphaQuantum (pixelColor image (px - offset_x) (py - offset_y))
             <? 256)
      then Some (scaled_colour ScaleQuantumToChar
                   (pixelColor image (px - offset_x) (py - offset_y)))
      else canvas !! (px, py).
Proof.
  induction n as [|n IH]; intros y0 canvas px py Hlimit Hox Hcols Hy0 Hyn.
  - cbn [copy_lines].
    match goal with |- _ = (if ?c then _ else _) => destruct c eqn:Hin end;
      [|reflexivity].
    apply andb_prop in Hin as [Hin _]. apply andb_prop in Hin as [Hin _].
    apply andb_prop in Hin as [Hin Hlt]. apply andb_prop in Hin as [_ Hle].
    apply Z.leb_le in Hle. apply Z.ltb_lt in Hlt. lia.
  - cbn [copy_lines].
    assert (Hallowed :
      row_allowed size_t_bits row_limit y0 offset_y
      = match row_limit with
        | Some limit => y0 + offset_y <? limit
        | None => true
        end).
    { unfold row_allowed. destruct row_limit as [limit|]; [|reflexivity].
      simpl in Hlimit. now rewrite !to_size_t_small by lia. }
    rewrite Hallowed.
    replace (y0 + offset_y + Z.of_nat (S n))
      with (y0 + 1 + offset_y + Z.of_nat n) by lia.
    destruct (Z.eq_dec py (y0 + offset_y)) as [->|Hrow].
    + replace (y0 + offset_y - offset_y) with y0 by lia.
      destruct row_limit as [limit|].
      * destruct (Z.ltb_spec (y0 + offset_y) limit) as [Hlt|Hge].
        -- rewrite IH, copy_pixels_lookup by (try exact Hlimit; simpl; lia).
           replace (y0 + offset_y - offset_y) with y0 by lia.
           replace (0 + offset_x) with offset_x by lia.
           split_comparisons.
        -- split_comparisons.
      * rewrite IH, copy_pixels_lookup by (try exact Hlimit; simpl; lia).
        replace (y0 + offset_y - offset_y) with y0 by lia.
        replace (0 + offset_x) with offset_x by lia.
        split_comparisons.
    + destruct row_limit as [limit|].
      * destruct (Z.ltb_spec (y0 + offset_y) limit) as [Hlt|Hge].
        -- rewrite IH, copy_pixels_lookup by (try exact Hlimit; simpl; lia).
           replace (py =? y0 + offset_y) with false
             by (symmetry; now apply Z.eqb_neq).
           simpl.
           destruct (alphaQuantum
                       (pixelColor image (px - offset_x) (py - offset_y))
                     <? 256); rewrite ?andb_true_r, ?andb_false_r;
             [|reflexivity].
           split_comparisons.
        -- destruct (alphaQuantum
                       (pixelColor image (px - offset_x) (py - offset_y))
                     <? 256); rewrite ?andb_true_r, ?andb_false_r;
             [|reflexivity].
           split_comparisons.
      * rewrite IH, copy_pixels_lookup by (try exact Hlimit; simpl; lia).
        replace (py =? y0 + offset_y) with false
          by (symmetry; now apply Z.eqb_neq).
        simpl.
        destruct (alphaQuantum
                    (pixelColor image (px - offset_x) (py - offset_y))
                  <? 256); rewrite ?andb_true_r, ?andb_false_r;
          [|reflexivity].
        split_comparisons.
Qed.

End CopyPlacement.

Lemma Facts_copy_columns_is_copy_pixels (ScaleQuantumToChar : Z -> Z)
    (size_t_bits : Z) {C : Type} `{PixelSink C} (image : Image)
    (offset_x offset_y y : Z) (n : nat) :
  forall (x : Z) (canvas : C),
    Facts.copy_columns ScaleQuantumToChar size_t_bits n x y image canvas
      offset_x offset_y
    = copy_pixels ScaleQuantumToChar size_t_bits n x y image canvas
        offset_x offset_y.
Proof.
  induction n as [|n IH]; intros x canvas; [reflexivity|].
  simpl. apply IH.
Qed.

Lemma Facts_copy_rows_is_copy_lines (ScaleQuantumToChar : Z -> Z)
    (size_t_bits : Z) {C : Type} `{PixelSink C} (image : Image)
    (offset_x offset_y : Z) (n : nat) :
  forall (y : Z) (canvas : C),
    Facts.copy_rows ScaleQuantumToChar size_t_bits n y image canvas
      offset_x offset_y
    = copy_lines ScaleQuantumToChar size_t_bits
        (Some (Facts.IMAGE_HEIGHT + Facts.IMAGE_Y)) n y image canvas
        offset_x offset_y.
Proof.
  induction n as [|n IH]; intros y canvas; [reflexivity|].
  simpl. rewrite Facts_copy_columns_is_copy_pixels.
  destruct (_ <? _); [apply IH|reflexivity].
Qed.

(** X1: the plain viewer's [CopyImageToCanvas] puts every copied pixel
    [(x, y)] of the image into the canvas cell [(x + offset_x,
    y + offset_y)], all rows included, and leaves every other cell (and
    the cells of pixels it does not copy) as they were; for offsets from 0
    on that keep the image within [int] coordinates. *)
Theorem plain_viewer_copy_places_image
    (ScaleQuantumToChar : Z -> Z) (size_t_bits : Z) (image : Image)
    (canvas : gmap (Z * Z) RGB) (offset_x offset_y px py : Z) :
  32 <= size_t_bits ->
  0 <= offset_x -> offset_x + Z.of_nat (columns image) <= 2 ^ 31 ->
  0 <= offset_y -> offset_y + Z.of_nat (rows image) <= 2 ^ 31 ->
  Dual.CopyImageToCanvas ScaleQuantumToChar size_t_bits image canvas
    offset_x offset_y !! (px, py)
  = if shows_pixel None image offset_x offset_y px py
    then Some (scaled_colour ScaleQuantumToChar
                 (pixelColor image (px - offset_x) (py - offset_y)))
    else canvas !! (px, py).
Proof.
  intros Hbits Hox Hcols Hoy Hrows. unfold Dual.CopyImageToCanvas.
  rewrite copy_lines_lookup by (simpl; auto; lia).
  unfold shows_pixel. now replace (0 + offset_y) with offset_y by lia.
Qed.

Lemma plain_viewer_copy_places_image_witness :
  Dual.CopyImageToCanvas (fun q => q) 64 tall_white_image
    (∅ : gmap (Z * Z) RGB) Dual.RIGHT_IMAGE_X 0 !! (41, 29)
  = Some (255, 255, 255).
Proof.
  rewrite (plain_viewer_copy_places_image (fun q => q) 64 tall_white_image
             ∅ Dual.RIGHT_IMAGE_X 0 41 29);
    [reflexivity|lia|unfold Dual.RIGHT_IMAGE_X; lia|vm_compute; discriminate
    |lia|vm_compute; discriminate].
Defined.

(** X2: the weather variant's [CopyImageToCanvas] places the copied pixels
    likewise, but only in rows below [IMAGE_HEIGHT] (27): rows 27 to 31,
    where the weather text scrolls, keep their content whatever the image's
    height. *)
Theorem weather_copy_places_image_above_row_27
    (ScaleQuantumToChar : Z -> Z) (size_t_bits : Z) (image : Image)
    (canvas : gmap (Z * Z) RGB) (offset_x offset_y px py : Z) :
  32 <= size_t_bits ->
  0 <= offset_x -> offset_x + Z.of_nat (columns image) <= 2 ^ 31 ->
  0 <= offset_y -> offset_y + Z.of_nat (rows image) <= 2 ^ 31 ->
  Weather.CopyImageToCanvas ScaleQuantumToChar size_t_bits image canvas
    offset_x offset_y !! (px, py)
  = if shows_pixel (Some Weather.IMAGE_HEIGHT) image offset_x offset_y px py
    then Some (scaled_colour ScaleQuantumToChar
                 (pixelColor image (px - offset_x) (py - offset_y)))
    else canvas !! (px, py).
Proof.
  intros Hbits Hox Hcols Hoy Hrows. unfold Weather.CopyImageToCanvas.
  rewrite copy_lines_lookup
    by (simpl; unfold Weather.IMAGE_HEIGHT; auto; lia).
  unfold shows_pixel. now replace (0 + offset_y) with offset_y by lia.
Qed.

Lemma weather_copy_places_image_above_row_27_witness :
  Weather.CopyImageToCanvas (fun q => q) 64 tall_white_image
    (∅ : gmap (Z * Z) RGB) Weather.RIGHT_IMAGE_X 0 !! (41, 26)
  = Some (255, 255, 255)
  /\ Weather.CopyImageToCanvas (fun q => q) 64 tall_white_image
       (∅ : gmap (Z * Z) RGB) Weather.RIGHT_IMAGE_X 0 !! (41, 27)
     = None.
Proof.
  split.
  - rewrite (weather_copy_places_image_above_row_27 (fun q => q) 64
               tall_white_image ∅ Weather.RIGHT_IMAGE_X 0 41 26);
      [reflexivity|lia|unfold Weather.RIGHT_IMAGE_X; lia
      |vm_compute; discriminate|lia|vm_compute; discriminate].
  - rewrite (weather_copy_places_image_above_row_27 (fun q => q) 64
               tall_white_image ∅ Weather.RIGHT_IMAGE_X 0 41 27);
      [reflexivity|lia|unfold Weather.RIGHT_IMAGE_X; lia
      |vm_compute; discriminate|lia|vm_compute; discriminate].
Defined.

(** X3: the fact variant's [CopyImageToCanvas] places the copied pixels
    likewise in rows below [IMAGE_HEIGHT + IMAGE_Y] (22), and every cell
    outside the image's rectangle, left and right of it as well as below,
    keeps its content. *)
Theorem fact_copy_places_image_above_row_22
    (ScaleQuantumToChar : Z -> Z) (size_t_bits : Z) (image : Image)
    (canvas : gmap (Z * Z) RGB) (offset_x offset_y px py : Z) :
  32 <= size_t_bits ->
  0 <= offset_x -> offset_x + Z.of_nat (columns image) <= 2 ^ 31 ->
  0 <= offset_y -> offset_y + Z.of_nat (rows image) <= 2 ^ 31 ->
  Facts.CopyImageToCanvas ScaleQuantumToChar size_t_bits image canvas
    offset_x offset_y !! (px, py)
  = if shows_pixel (Some (Facts.IMAGE_HEIGHT + Facts.IMAGE_Y)) image
         offset_x offset_y px py
    then Some (scaled_colour ScaleQuantumToChar
                 (pixelColor image (px - offset_x) (py - offset_y)))
    else canvas !! (px, py).
Proof.
  intros Hbits Hox Hcols Hoy Hrows. unfold Facts.CopyImageToCanvas.
  rewrite Facts_copy_rows_is_copy_lines.
  rewrite copy_lines_lookup
    by (simpl; unfold Facts.IMAGE_HEIGHT, Facts.IMAGE_Y; auto; lia).
  unfold shows_pixel. now replace (0 + offset_y) with offset_y by lia.
Qed.

Lemma fact_copy_places_image_above_row_22_witness :
  Facts.CopyImageToCanvas (fun q => q) 64 tall_white_image
    (∅ : gmap (Z * Z) RGB) Facts.RIGHT_IMAGE_X Facts.IMAGE_Y !! (47, 21)
  = Some (255, 255, 255)
  /\ Facts.CopyImageToCanvas (fun q => q) 64 tall_white_image
       (∅ : gmap (Z * Z) RGB) Facts.RIGHT_IMAGE_X Facts.IMAGE_Y !! (48, 21)
     = None.
Proof.
  split.
  - rewrite (fact_copy_places_image_above_row_22 (fun q => q) 64
               tall_white_image ∅ Facts.RIGHT_IMAGE_X Facts.IMAGE_Y 47 21);
      [reflexivity|lia|unfold Facts.RIGHT_IMAGE_X; lia
      |vm_compute; discriminate|unfold Facts.IMAGE_Y; lia
      |vm_compute; discriminate].
  - rewrite (fact_copy_places_image_above_row_22 (fun q => q) 64
               tall_white_image ∅ Facts.RIGHT_IMAGE_X Facts.IMAGE_Y 48 21);
      [reflexivity|lia|unfold Facts.RIGHT_IMAGE_X; lia
      |vm_compute; discriminate|unfold Facts.IMAGE_Y; lia
      |vm_compute; discriminate].
Defined.

(** ** The weather text's scroll position *)

Lemma weather_scroll_step (weather_width k : Z) :
  0 <= weather_width -> 0 <= k ->
  Weather.advance_scroll weather_width
    (Weather.MATRIX_WIDTH - k mod (Weather.MATRIX_WIDTH + weather_width + 1))
  = Weather.MATRIX_WIDTH
    - (k + 1) mod (Weather.MATRIX_WIDTH + weather_width + 1).
Proof.
  intros Hw Hk. unfold Weather.advance_scroll, Weather.MATRIX_WIDTH.
  set (period := 64 + weather_width + 1).
  assert (Hperiod : 0 < period) by (subst period; lia).
  pose proof (Z.mod_pos_bound k period Hperiod) as Hmod.
  destruct (Z.ltb_spec (64 - k mod period - 1) (- weather_width)) as [Hwrap|Hgo].
  - assert (Hlast : k mod period = period - 1) by (subst period; lia).
    rewrite <- Zplus_mod_idemp_l, Hlast.
    replace (period - 1 + 1) with period by lia.
    rewrite Z.mod_same by lia. lia.
  - rewrite <- Zplus_mod_idemp_l.
    rewrite (Z.mod_small (k mod period + 1)) by (subst period; lia). lia.
Qed.

Section WeatherScroll.

Variable weather_text : string.
Variable body : nat -> Weather.Tick -> Z -> Z * list Weather.Call.
Variable max_frames : nat.

Hypothesis body_scrolls :
  forall (frame : nat) (t : Weather.Tick) (scroll_offset : Z),
    (body frame t scroll_offset).1
    = Weather.advance_scroll (Weather.weather_width_of weather_text)
        scroll_offset
    /\ Weather.weather_text_at weather_text (body frame t scroll_offset).2
       = [scroll_offset].

Lemma weather_positions (ticks : list Weather.Tick) :
  forall (frame : nat) (k : Z) (i : nat) (calls : list Weather.Call),
    0 <= k ->
    iterations_from body max_frames frame ticks
      (Weather.MATRIX_WIDTH
       - k mod (Weather.MATRIX_WIDTH
                + Weather.weather_width_of weather_text + 1)) !! i
    = Some calls ->
    Weather.weather_text_at weather_text calls
    = [Weather.MATRIX_WIDTH
       - (k + Z.of_nat i)
         mod (Weather.MATRIX_WIDTH
              + Weather.weather_width_of weather_text + 1)].
Proof.
  induction ticks as [|t ticks IH]; intros frame k i calls Hk Hcalls.
  - destruct i; discriminate.
  - rewrite iterations_from_cons in Hcalls.
    destruct (body_scrolls frame t
                (Weather.MATRIX_WIDTH
                 - k mod (Weather.MATRIX_WIDTH
                          + Weather.weather_width_of weather_text + 1)))
      as [Hnext Hdrawn].
    destruct i as [|i].
    + injection Hcalls as <-. rewrite Hdrawn.
      now replace (k + Z.of_nat 0) with k by lia.
    + simpl in Hcalls. rewrite Hnext in Hcalls.
      rewrite weather_scroll_step in Hcalls
        by (unfold Weather.weather_width_of; lia).
      rewrite (IH _ (k + 1) i calls ltac:(lia) Hcalls).
      do 3 f_equal. lia.
Qed.

End WeatherScroll.

Lemma weather_text_drawn_once (weather_text : string) (scroll_offset : Z)
    (before after : list Weather.Call) (time_buffer date_buffer : string) :
  Weather.weather_text_at weather_text before = [] ->
  Weather.weather_text_at weather_text after = [] ->
  Weather.weather_text_at weather_text
    (before ++ Weather.DrawClock time_buffer date_buffer
     ++ Weather.DrawWeatherText weather_text scroll_offset ++ after)
  = [scroll_offset].
Proof.
  intros Hbefore Hafter. unfold Weather.weather_text_at in *.
  rewrite !omap_app, Hbefore, Hafter. simpl.
  now rewrite ?Z.eqb_refl, String.eqb_refl.
Qed.

(** X4: in the weather variant the [i]-th iteration of either display
    loop draws the weather text at [x = 64 - i mod (65 + 4 * length)]: it
    enters at the right edge, moves left by one pixel per iteration until
    it has left the matrix by its whole (estimated) width, and starts
    again, with period [65 + 4 * length]. *)
Theorem weather_text_position
    (left_images right_images : ImageVector) (weather_text : string)
    (ticks : list Weather.Tick) (i : nat) (calls : list Weather.Call) :
  Weather.ShowDualStaticImagesWithClock weather_text ticks !! i = Some calls
  \/ (left_images <> []
      /\ Weather.ShowDualAnimatedImagesWithClock left_images right_images
           weather_text ticks !! i = Some calls) ->
  Weather.weather_text_at weather_text calls
  = [64 - Z.of_nat i mod (65 + 4 * Z.of_nat (String.length weather_text))].
Proof.
  intros Hrun.
  replace (65 + 4 * Z.of_nat (String.length weather_text))
    with (Weather.MATRIX_WIDTH + Weather.weather_width_of weather_text + 1)
    by (unfold Weather.MATRIX_WIDTH, Weather.weather_width_of; lia).
  change 64 with Weather.MATRIX_WIDTH.
  replace (Z.of_nat i) with (0 + Z.of_nat i) by lia.
  destruct Hrun as [Hrun|[Hleft Hrun]].
  - unfold Weather.ShowDualStaticImagesWithClock in Hrun.
    rewrite (while_loop_iterations _ 1 ticks 0) in Hrun.
    apply (weather_positions weather_text
             (fun _ => Weather.static_body weather_text) 1) with ticks 0%nat;
      [|lia|].
    + intros _ t s. split; [reflexivity|].
      unfold Weather.static_body. cbn [snd].
      now apply weather_text_drawn_once.
    + rewrite Z.mod_0_l
        by (unfold Weather.MATRIX_WIDTH, Weather.weather_width_of; lia).
      now rewrite Z.sub_0_r.
  - unfold Weather.ShowDualAnimatedImagesWithClock in Hrun.
    rewrite frame_loop_iterations in Hrun by now apply max_frames_positive.
    apply (weather_positions weather_text
             (Weather.animated_body left_images right_images weather_text)
             (Nat.max (length left_images) (length right_images)))
      with ticks 0%nat; [|lia|].
    + intros frame t s. split; [reflexivity|].
      unfold Weather.animated_body. cbn [snd].
      now apply weather_text_drawn_once.
    + rewrite Z.mod_0_l
        by (unfold Weather.MATRIX_WIDTH, Weather.weather_width_of; lia).
      now rewrite Z.sub_0_r.
Qed.

Lemma weather_text_position_witness :
  Weather.weather_text_at "Sunny"
    <$> (Weather.ShowDualStaticImagesWithClock "Sunny"
           (replicate 86 weather_noon) !! 85%nat)
  = Some [64].
Proof.
  destruct (Weather.ShowDualStaticImagesWithClock "Sunny"
              (replicate 86 weather_noon) !! 85%nat) as [calls|] eqn:Hcalls.
  - simpl. f_equal.
    exact (weather_text_position [] [] "Sunny" (replicate 86 weather_noon)
             85 calls (or_introl Hcalls)).
  - vm_compute in Hcalls. discriminate.
Defined.

(** ** The fact ticker stays in range *)

Section FactTicker.

Variable fact_font : Font.
Variable body :
  nat -> Facts.Tick -> Facts.RenderState -> Facts.RenderState * list Command.
Variable max_frames : nat.

Hypothesis body_ticker :
  forall (frame : nat) (t : Facts.Tick) (s : Facts.RenderState),
    let seen := Facts.observe_fact fact_font t s in
    Facts.scroll_offset (body frame t s).1
    = Facts.scroll_offset (Facts.advance_scroll seen)
    /\ Facts.fact_width (body frame t s).1 = Facts.fact_width seen
    /\ Facts.last_fact_text (body frame t s).1 = Facts.last_fact_text seen
    /\ forall (text : string) (x : Z),
         DoDrawFactText text x ∈ (body frame t s).2 ->
         text = Facts.current_fact_text t /\ x = Facts.scroll_offset seen.

Lemma observe_fact_in_range (t : Facts.Tick) (s : Facts.RenderState) :
  ticker_in_range fact_font s ->
  ticker_in_range fact_font (Facts.observe_fact fact_font t s)
  /\ Facts.last_fact_text (Facts.observe_fact fact_font t s)
     = Facts.current_fact_text t.
Proof.
  intros Hs. unfold Facts.observe_fact.
  destruct (String.eqb_spec (Facts.current_fact_text t)
              (Facts.last_fact_text s)) as [Heq|Hne]; simpl.
  - split; [exact Hs|now symmetry].
  - split; [|reflexivity]. unfold ticker_in_range. simpl. auto with zarith.
Qed.

Lemma body_keeps_ticker_in_range (frame : nat) (t : Facts.Tick)
    (s : Facts.RenderState) :
  ticker_in_range fact_font s ->
  ticker_in_range fact_font (body frame t s).1.
Proof.
  intros Hs.
  destruct (body_ticker frame t s) as (Ho & Hw & Hl & _).
  destruct (observe_fact_in_range t s Hs) as [(Hwidth & Hle & Hlow) _].
  unfold ticker_in_range. rewrite Ho, Hw, Hl.
  split; [exact Hwidth|].
  unfold Facts.advance_scroll. simpl. unfold Facts.MATRIX_WIDTH in *.
  destruct (Z.ltb_spec
              (Facts.scroll_offset (Facts.observe_fact fact_font t s) - 1)
              (- Facts.fact_width (Facts.observe_fact fact_font t s))); lia.
Qed.

Lemma drawn_in_range (ticks : list Facts.Tick) :
  forall (frame : nat) (s : Facts.RenderState) (i : nat)
         (commands : list Command) (text : string) (x : Z),
    ticker_in_range fact_font s ->
    iterations_from body max_frames frame ticks s !! i = Some commands ->
    DoDrawFactText text x ∈ commands ->
    (exists t : Facts.Tick,
        ticks !! i = Some t /\ text = Facts.current_fact_text t)
    /\ x <= Facts.MATRIX_WIDTH
    /\ (x = Facts.MATRIX_WIDTH
        \/ - Facts.GetStringWidth fact_font text <= x).
Proof.
  induction ticks as [|t ticks IH];
    intros frame s i commands text x Hs Hcmds Hin.
  - destruct i; discriminate.
  - rewrite iterations_from_cons in Hcmds. destruct i as [|i].
    + injection Hcmds as <-.
      destruct (body_ticker frame t s) as (_ & _ & _ & Hdraw).
      destruct (Hdraw text x Hin) as [-> ->].
      destruct (observe_fact_in_range t s Hs)
        as [(Hwidth & Hle & Hlow) Htext].
      split; [exists t; split; reflexivity|].
      rewrite <- Htext, <- Hwidth. split; assumption.
    + simpl in Hcmds.
      exact (IH _ _ _ _ _ _ (body_keeps_ticker_in_range frame t s Hs)
               Hcmds Hin).
Qed.

End FactTicker.

Lemma initial_state_in_range (fact_font : Font) :
  ticker_in_range fact_font Facts.initial_state.
Proof. unfold ticker_in_range. simpl. unfold Facts.MATRIX_WIDTH. lia. Qed.

(** X5: in every run of the fact variant's render loops, however the
    ticker text changes on the way, the fact is drawn with the text just
    read from the shared slot, never right of the matrix edge ([x <= 64])
    and never further left than its own width ([x = 64] or
    [- GetStringWidth <= x]). *)
Theorem fact_ticker_drawn_in_range
    (left_images right_images : ImageVector) (fact_font : Font)
    (ticks : list Facts.Tick) (i : nat) (commands : list Command)
    (text : string) (x : Z) :
  Facts.ShowDualStaticImagesWithClock fact_font ticks !! i = Some commands
  \/ (left_images <> []
      /\ Facts.ShowDualAnimatedImagesWithClock left_images right_images
           fact_font ticks !! i = Some commands) ->
  DoDrawFactText text x ∈ commands ->
  (exists t : Facts.Tick,
      ticks !! i = Some t /\ text = Facts.current_fact_text t)
  /\ x <= Facts.MATRIX_WIDTH
  /\ (x = Facts.MATRIX_WIDTH
      \/ - Facts.GetStringWidth fact_font text <= x).
Proof.
  intros [Hrun|[Hleft Hrun]] Hin.
  - unfold Facts.ShowDualStaticImagesWithClock in Hrun.
    rewrite (while_loop_iterations _ 1 ticks 0) in Hrun.
    apply (drawn_in_range fact_font (fun _ => Facts.static_body fact_font) 1)
      with 0%nat Facts.initial_state commands; auto.
    + intros _ t s. apply static_body_ticker.
    + apply initial_state_in_range.
  - unfold Facts.ShowDualAnimatedImagesWithClock in Hrun.
    rewrite frame_loop_iterations in Hrun by now apply max_frames_positive.
    apply (drawn_in_range fact_font
             (Facts.animated_body left_images right_images fact_font)
             (Nat.max (length left_images) (length right_images)))
      with 0%nat Facts.initial_state commands; auto.
    + intros frame t s. apply animated_body_ticker.
    + apply initial_state_in_range.
Qed.

Lemma fact_ticker_drawn_in_range_witness :
  62 <= Facts.MATRIX_WIDTH
  /\ (62 = Facts.MATRIX_WIDTH
      \/ - Facts.GetStringWidth font_6_wide "hi" <= 62).
Proof.
  eapply proj2.
  eapply (fact_ticker_drawn_in_range [] [] font_6_wide toggling_ticks 2).
  - left. vm_compute. reflexivity.
  - rewrite !elem_of_cons. repeat ((left; reflexivity) || right).
Defined.

(** ** The cleaned-up fact text *)

Lemma string_forall_append (P : Ascii.ascii -> bool) (a b : string) :
  string_forall P (a +:+ b) = string_forall P a && string_forall P b.
Proof.
  induction a as [|c a IH]; simpl; [reflexivity|].
  now rewrite IH, andb_assoc.
Qed.

Lemma string_forall_replace (P : Ascii.ascii -> bool) (from : Ascii.ascii)
    (text : string) :
  (forall c : Ascii.ascii,
      P (if Ascii.eqb c from then " "%char else c) = true) ->
  string_forall P (Facts.replace_with_space from text) = true.
Proof.
  intros HP. induction text as [|c text IH]; simpl; [reflexivity|].
  now rewrite HP, IH.
Qed.

Lemma string_forall_collapse (P : Ascii.ascii -> bool) (text : string) :
  string_forall P text = true ->
  string_forall P (Facts.collapse_spaces text) = true.
Proof.
  induction text as [|c text IH]; [reflexivity|].
  intros Hall. simpl in Hall. apply andb_prop in Hall as [Hc Hrest].
  cbn [Facts.collapse_spaces]. destruct text as [|c' text'].
  - simpl. now rewrite Hc.
  - destruct (Facts.is_space c && Facts.is_space c'); [now apply IH|].
    cbn [string_forall]. now rewrite Hc, IH.
Qed.

Lemma string_forall_trim_left (P : Ascii.ascii -> bool) (text : string) :
  string_forall P text = true ->
  string_forall P (Facts.trim_left text) = true.
Proof.
  induction text as [|c text IH]; [reflexivity|].
  intros Hall. cbn [Facts.trim_left].
  destruct (Facts.is_space c); [|exact Hall].
  simpl in Hall. apply andb_prop in Hall as [_ Hrest]. now apply IH.
Qed.

Lemma string_forall_trim_right (P : Ascii.ascii -> bool) (text : string) :
  string_forall P text = true ->
  string_forall P (Facts.trim_right text) = true.
Proof.
  induction text as [|c text IH]; [reflexivity|].
  intros Hall. simpl in Hall. apply andb_prop in Hall as [Hc Hrest].
  specialize (IH Hrest). cbn [Facts.trim_right].
  destruct (Facts.trim_right text) as [|k kept].
  - destruct (Facts.is_space c); simpl; [reflexivity|now rewrite Hc].
  - cbn [string_forall] in *. now rewrite Hc, IH.
Qed.

Lemma string_forall_substring (P : Ascii.ascii -> bool) (n : nat) :
  forall text : string,
    string_forall P text = true ->
    string_forall P (String.substring 0 n text) = true.
Proof.
  induction n as [|n IH]; intros text Hall.
  - destruct text; reflexivity.
  - destruct text as [|c text]; [reflexivity|].
    simpl in Hall. apply andb_prop in Hall as [Hc Hrest].
    simpl. now rewrite Hc, IH.
Qed.

Lemma string_forall_limit (P : Ascii.ascii -> bool) (text : string) :
  P "."%char = true ->
  string_forall P text = true ->
  string_forall P (Facts.limit_length text) = true.
Proof.
  intros Hdot Hall. unfold Facts.limit_length.
  destruct (150 <? String.length text)%nat; [|exact Hall].
  rewrite string_forall_append, string_forall_substring by exact Hall.
  simpl. now rewrite Hdot.
Qed.

Lemma no_double_space_cons (c : Ascii.ascii) (text : string) :
  no_double_space (String c text)
  = negb (Facts.is_space c && negb (no_leading_space text))
    && no_double_space text.
Proof. reflexivity. Qed.

Lemma collapse_spaces_head (text : string) :
  no_leading_space (Facts.collapse_spaces text) = no_leading_space text.
Proof.
  induction text as [|c text IH]; [reflexivity|].
  cbn [Facts.collapse_spaces]. destruct text as [|c' text']; [reflexivity|].
  destruct (Facts.is_space c) eqn:Hc, (Facts.is_space c') eqn:Hc';
    cbn [andb]; try reflexivity.
  rewrite IH. cbn [no_leading_space]. now rewrite Hc, Hc'.
Qed.

Lemma collapse_spaces_no_double (text : string) :
  no_double_space (Facts.collapse_spaces text) = true.
Proof.
  induction text as [|c text IH]; [reflexivity|].
  cbn [Facts.collapse_spaces]. destruct text as [|c' text'].
  - simpl. now rewrite andb_false_r.
  - destruct (Facts.is_space c && Facts.is_space c') eqn:Hboth; [exact IH|].
    cbn [no_double_space]. rewrite IH, collapse_spaces_head. simpl.
    rewrite negb_involutive, Hboth. reflexivity.
Qed.

Lemma trim_left_shape (text : string) :
  no_leading_space (Facts.trim_left text) = true
  /\ (no_double_space text = true ->
      no_double_space (Facts.trim_left text) = true).
Proof.
  induction text as [|c text [IHhead IHdouble]]; [now split|].
  cbn [Facts.trim_left]. destruct (Facts.is_space c) eqn:Hc.
  - split; [exact IHhead|]. intros Hd. simpl in Hd.
    apply andb_prop in Hd as [_ Hd]. now apply IHdouble.
  - split; [|auto]. simpl. now rewrite Hc.
Qed.

Lemma trim_right_head (text : string) (k : Ascii.ascii) (kept : string) :
  Facts.trim_right text = String k kept ->
  exists text' : string, text = String k text'.
Proof.
  destruct text as [|c text]; [discriminate|].
  cbn [Facts.trim_right]. destruct (Facts.trim_right text).
  - destruct (Facts.is_space c); [discriminate|].
    intros Heq. injection Heq as <- _. now exists text.
  - intros Heq. injection Heq as <- _. now exists text.
Qed.

Lemma trim_right_shape (text : string) :
  (no_leading_space text = true ->
   no_leading_space (Facts.trim_right text) = true)
  /\ (no_double_space text = true ->
      no_double_space (Facts.trim_right text) = true).
Proof.
  induction text as [|c text [IHhead IHdouble]]; [now split|].
  cbn [Facts.trim_right].
  destruct (Facts.trim_right text) as [|k kept] eqn:Hkept.
  - split.
    + simpl. intros Hc. apply negb_true_iff in Hc.
      rewrite Hc. simpl. now rewrite Hc.
    + intros _. destruct (Facts.is_space c); [reflexivity|].
      simpl. now rewrite andb_false_r.
  - split; [auto|]. intros Hd. simpl in Hd.
    apply andb_prop in Hd as [Hc Hd].
    destruct (trim_right_head text k kept Hkept) as [text' ->].
    specialize (IHdouble Hd).
    rewrite no_double_space_cons, IHdouble, andb_true_r.
    exact Hc.
Qed.

Lemma substring_shape (n : nat) :
  forall text : string,
    (no_leading_space (String.substring 0 n text) = false ->
     no_leading_space text = false)
    /\ (no_double_space text = true ->
        no_double_space (String.substring 0 n text) = true).
Proof.
  induction n as [|n IH]; intros text.
  - destruct text; split; try discriminate; reflexivity.
  - destruct text as [|c text]; [split; [discriminate|reflexivity]|].
    destruct (IH text) as [IHhead IHdouble]. simpl. split; [auto|].
    intros Hd. apply andb_prop in Hd as [Hc Hd].
    rewrite (IHdouble Hd), andb_true_r.
    destruct (Facts.is_space c); [|reflexivity]. simpl in *.
    apply negb_true_iff. apply negb_true_iff in Hc.
    apply negb_false_iff in Hc. apply negb_false_iff.
    destruct (no_leading_space (String.substring 0 n text)) eqn:Hsub;
      [reflexivity|].
    rewrite (IHhead eq_refl) in Hc. discriminate.
Qed.

Lemma append_dots_shape (text : string) :
  (no_leading_space (text +:+ "...") = false ->
   no_leading_space text = false)
  /\ (no_double_space text = true ->
      no_double_space (text +:+ "...") = true).
Proof.
  induction text as [|c text [IHhead IHdouble]].
  - split; [discriminate|reflexivity].
  - simpl. split; [auto|]. intros Hd. apply andb_prop in Hd as [Hc Hd].
    rewrite (IHdouble Hd), andb_true_r.
    destruct (Facts.is_space c); [|reflexivity]. simpl in *.
    apply negb_true_iff in Hc. apply negb_false_iff in Hc.
    destruct (no_leading_space (text +:+ "...")) eqn:Happ; [reflexivity|].
    rewrite (IHhead eq_refl) in Hc. discriminate.
Qed.

Lemma limit_length_shape (text : string) :
  no_leading_space text = true -> no_double_space text = true ->
  no_leading_space (Facts.limit_length text) = true
  /\ no_double_space (Facts.limit_length text) = true.
Proof.
  intros Hhead Hdouble. unfold Facts.limit_length.
  destruct (150 <? String.length text)%nat; [|now split].
  destruct (substring_shape 147 text) as [Hsub_head Hsub_double].
  destruct (append_dots_shape (String.substring 0 147 text))
    as [Happ_head Happ_double].
  split; [|auto].
  destruct (no_leading_space (String.substring 0 147 text +:+ "..."))
    eqn:Happ; [reflexivity|].
  rewrite (Hsub_head (Happ_head eq_refl)) in Hhead. discriminate.
Qed.

Lemma labelled_shape (body : string) :
  no_leading_space body = true -> no_double_space body = true ->
  no_double_space (Facts.fact_prefix +:+ body) = true.
Proof.
  intros Hhead Hdouble. unfold Facts.fact_prefix.
  destruct body as [|c body]; [reflexivity|].
  simpl in Hhead, Hdouble |- *. rewrite Hhead. simpl. exact Hdouble.
Qed.

(** X6: however the endpoint's text looks, the cleaned-up fact has no line
    feed and no carriage return in it and no two neighbouring spaces, the
    label included. *)
Theorem cleaned_fact_is_one_line (raw : string) :
  string_forall not_line_break (Facts.clean_fact_text raw) = true
  /\ no_double_space (Facts.clean_fact_text raw) = true.
Proof.
  unfold Facts.clean_fact_text. split.
  - rewrite string_forall_append. apply andb_true_intro. split;
      [reflexivity|].
    apply string_forall_limit; [reflexivity|].
    apply string_forall_trim_right, string_forall_trim_left,
      string_forall_collapse.
    set (once := Facts.replace_with_space (ascii_of_nat 10) raw).
    assert (Honce :
      string_forall (fun c => negb (Ascii.eqb c (ascii_of_nat 10))) once
      = true).
    { apply string_forall_replace. intros c.
      destruct (Ascii.eqb_spec c (ascii_of_nat 10)) as [_|Hne];
        [reflexivity|].
      apply negb_true_iff. now apply Ascii.eqb_neq. }
    clearbody once. induction once as [|c once IH]; [reflexivity|].
    simpl in Honce. apply andb_prop in Honce as [Hc Honce].
    cbn [Facts.replace_with_space string_forall]. rewrite (IH Honce).
    rewrite andb_true_r. unfold not_line_break.
    destruct (Ascii.eqb_spec c (ascii_of_nat 13)) as [_|Hne];
      [reflexivity|].
    rewrite Hc. apply negb_true_iff. now apply Ascii.eqb_neq.
  - set (body := Facts.collapse_spaces _).
    assert (Hbody : no_double_space body = true)
      by apply collapse_spaces_no_double.
    destruct (trim_left_shape body) as [Hhead Hdouble].
    destruct (trim_right_shape (Facts.trim_left body)) as [Hhead' Hdouble'].
    destruct (limit_length_shape (Facts.trim_right (Facts.trim_left body))
                (Hhead' Hhead) (Hdouble' (Hdouble Hbody)))
      as [Hlimit_head Hlimit_double].
    now apply labelled_shape.
Qed.

Lemma length_append (a b : string) :
  String.length (a +:+ b) = (String.length a + String.length b)%nat.
Proof. induction a as [|c a IH]; simpl; [reflexivity|now rewrite IH]. Qed.

Lemma length_substring_0 (n : nat) :
  forall text : string,
    (String.length (String.substring 0 n text) <= n)%nat.
Proof.
  induction n as [|n IH]; intros text.
  - destruct text; simpl; lia.
  - destruct text as [|c text]; simpl; [lia|].
    specialize (IH text). lia.
Qed.

(** X7: whatever the endpoint's text, the cleaned-up fact starts with the
    label, so that [FetchFactWithRetry] takes it for a fact and the thread
    publishes it, and it is at most 164 characters long (the label and 150
    characters of text). *)
Theorem cleaned_fact_is_labelled_and_short (raw : string) :
  Facts.is_valid_fact (Facts.clean_fact_text raw) = true
  /\ Facts.worth_publishing (Facts.clean_fact_text raw) = true
  /\ (String.length (Facts.clean_fact_text raw) <= 164)%nat.
Proof.
  unfold Facts.clean_fact_text.
  set (body := Facts.limit_length _).
  split; [reflexivity|]. split; [reflexivity|].
  rewrite length_append. simpl String.length at 1.
  subst body. unfold Facts.limit_length.
  set (text := Facts.trim_right _).
  destruct (Nat.ltb_spec 150 (String.length text)) as [Hlong|Hshort];
    [|lia].
  rewrite length_append.
  pose proof (length_substring_0 147 text). simpl String.length at 2. lia.
Qed.

(** ** Dim hours and glyph widths *)

(** X8: for a time of day, [IsDimHoursEST] holds exactly from 23:30 to
    07:59, both included; and a brightness the check sets is 10 inside that
    window and 100 outside it. *)
Theorem dim_from_2330_to_0759 (hour min : Z) :
  0 <= hour < 24 -> 0 <= min < 60 ->
  (Facts.IsDimHoursEST hour min = true
   <-> 23 * 60 + 30 <= hour * 60 + min \/ hour * 60 + min <= 7 * 60 + 59)
  /\ forall (interval : Z) (s : Facts.RenderState) (seconds : Z)
            (time fact : string) (brightness : Z),
       DoSetBrightness brightness
         ∈ (Facts.check_brightness interval
              (Facts.mkTick seconds hour min time fact) s).2 ->
       brightness = if Facts.IsDimHoursEST hour min then 10 else 100.
Proof.
  intros Hhour Hmin. split.
  - unfold Facts.IsDimHoursEST.
    destruct (Z.eqb_spec hour 23) as [Heq|Hne],
      (Z.leb_spec 30 min) as [Hhalf|Hhalf], (Z.ltb_spec hour 8) as [Hlt|Hge];
      simpl; split; intros Hdim; try lia; try discriminate; reflexivity.
  - intros interval s seconds time fact brightness.
    unfold Facts.check_brightness. simpl.
    destruct (interval <=? seconds - Facts.last_brightness_check s);
      [|intros H; now apply elem_of_nil in H].
    destruct (negb _); simpl; intros H.
    + apply list_elem_of_singleton in H. now injection H.
    + now apply elem_of_nil in H.
Qed.

Lemma dim_from_2330_to_0759_witness :
  Facts.IsDimHoursEST 7 59 = true /\ Facts.IsDimHoursEST 8 0 <> true.
Proof.
  split.
  - apply (proj1 (dim_from_2330_to_0759 7 59 ltac:(lia) ltac:(lia))). lia.
  - intros H.
    apply (proj1 (dim_from_2330_to_0759 8 0 ltac:(lia) ltac:(lia))) in H.
    lia.
Defined.

(** X9: [GetStringWidth] of an empty text is 0, the width of two texts
    joined is the sum of their widths, and with a font whose characters all
    have the same width it is that width times the length. *)
Theorem GetStringWidth_adds_up (font : Font) (a b : string) :
  Facts.GetStringWidth font "" = 0
  /\ Facts.GetStringWidth font (a +:+ b)
     = Facts.GetStringWidth font a + Facts.GetStringWidth font b
  /\ forall width : Z,
       (forall code : Z, CharacterWidth font code = width) ->
       Facts.GetStringWidth font a = width * Z.of_nat (String.length a).
Proof.
  split; [reflexivity|]. split.
  - induction a as [|c a IH]; simpl; [reflexivity|]. rewrite IH. lia.
  - intros width Hfixed. induction a as [|c a IH]; simpl; [lia|].
    rewrite IH, Hfixed. lia.
Qed.

Lemma GetStringWidth_adds_up_witness :
  Facts.GetStringWidth font_6_wide "Today's fact: x" = 90.
Proof.
  rewrite (proj2 (proj2 (GetStringWidth_adds_up font_6_wide
                           "Today's fact: x" "")) 6); reflexivity.
Defined.

(** ** Start-up of the three programs *)

(** X10: none of the three programs shows anything unless both images
    decode: with either image missing, [main] returns 1, whatever the
    flags, the arguments, the matrix and the fonts are. *)
Theorem mains_need_both_images (start : Startup) :
  left_loaded start = [] \/ right_loaded start = [] ->
  Dual.main start = Dual.Exit 1
  /\ Weather.main start = Weather.Exit 1
  /\ Facts.main start = Facts.Exit 1.
Proof.
  intros Hmissing.
  unfold Dual.main, Weather.main, Facts.main.
  destruct (flags_parse start), (matrix_created start),
    (argc start =? 3), (argc start <? 3), (4 <? argc start),
    (LoadFont start "/opt/cats-display/fonts/5x7.bdf");
    simpl; repeat split; try reflexivity;
    destruct Hmissing as [-> | ->]; try reflexivity;
    destruct (left_loaded start); reflexivity.
Qed.

Lemma mains_need_both_images_witness :
  Facts.main {| flags_parse := true; argc := 3; matrix_created := true;
                LoadFont := fun _ => Some font_6_wide;
                left_loaded := [frame_with_delay 0];
                right_loaded := [] |}
  = Facts.Exit 1.
Proof.
  apply (mains_need_both_images
           {| flags_parse := true; argc := 3; matrix_created := true;
              LoadFont := fun _ => Some font_6_wide;
              left_loaded := [frame_with_delay 0];
              right_loaded := [] |}).
  right. reflexivity.
Defined.

Lemma choose_display_static (left_images right_images : ImageVector) :
  left_images <> [] -> right_images <> [] ->
  (choose_display left_images right_images = StaticDisplay
   <-> length left_images = 1%nat /\ length right_images = 1%nat).
Proof.
  intros Hleft Hright. unfold choose_display.
  destruct left_images as [|l [|l' left_images]]; [congruence| |];
    destruct right_images as [|r [|r' right_images]]; try congruence;
    simpl; split; intros H; try discriminate; try reflexivity;
    try (split; reflexivity); destruct H; discriminate.
Qed.

(** X11: when a program does go on to show its images, it runs the static
    loop exactly when each of the two files decoded to a single frame, and
    the animated loop as soon as one of them has more. *)
Theorem mains_choose_static_for_two_stills (start : Startup)
    (display : Display) :
  Dual.main start = Dual.Shows display
  \/ (exists font, Weather.main start = Weather.Shows display font)
  \/ (exists font fact_font,
        Facts.main start = Facts.Shows display font fact_font) ->
  (display = StaticDisplay
   <-> length (left_loaded start) = 1%nat
       /\ length (right_loaded start) = 1%nat).
Proof.
  unfold Dual.main, Weather.main, Facts.main.
  intros Hshows.
  assert (Hdisplay :
    left_loaded start <> [] /\ right_loaded start <> []
    /\ display = choose_display (left_loaded start) (right_loaded start)).
  { destruct (flags_parse start), (matrix_created start),
      (argc start =? 3), (argc start <? 3), (4 <? argc start),
      (LoadFont start "/opt/cats-display/fonts/5x7.bdf");
      simpl in Hshows;
      destruct Hshows as [H|[[font H]|[font [fact_font H]]]];
      try discriminate;
      destruct (left_loaded start) as [|l ls]; try discriminate;
      destruct (right_loaded start) as [|r rs]; try discriminate;
      injection H as <-; repeat split; discriminate. }
  destruct Hdisplay as (Hleft & Hright & ->).
  now apply choose_display_static.
Qed.

Lemma mains_choose_static_for_two_stills_witness :
  length (left_loaded (startup_with (fun _ => Some font_6_wide))) = 1%nat
  /\ length (right_loaded (startup_with (fun _ => Some font_6_wide))) = 1%nat.
Proof.
  apply (proj1 (mains_choose_static_for_two_stills
                  (startup_with (fun _ => Some font_6_wide)) StaticDisplay
                  (or_intror (or_intror
                     (ex_intro _ font_6_wide
                        (ex_intro _ font_6_wide eq_refl)))))).
  reflexivity.
Defined.

(** ** What fetching leaves alone *)

Lemma cleaned_fact_valid (raw : string) :
  Facts.is_valid_fact (Facts.clean_fact_text raw) = true.
Proof. reflexivity. Qed.

(** One call of [FetchOrLoadFactOfTheDay]: the shared slot is not touched,
    the clock is read once, at most one request is made, and the cache
    stays as it is or gains one labelled fact. *)
Lemma fetch_footprint (E : Facts.Env) (w : Facts.World) :
  let w' := (Facts.FetchOrLoadFactOfTheDay E w).2 in
  Facts.current_fact w' = Facts.current_fact w
  /\ Facts.clock_reads w' = S (Facts.clock_reads w)
  /\ (Facts.api_calls w <= Facts.api_calls w' <= S (Facts.api_calls w))%nat
  /\ cache_grown_by_facts (Facts.files w) (Facts.files w').
Proof.
  unfold Facts.FetchOrLoadFactOfTheDay, Facts.fetch_from_api, Facts.bind,
    Facts.GetTodayDateLocal, Facts.read_file, Facts.call_api, Facts.emit,
    Facts.write_file, Facts.ret, Facts.raise, cache_grown_by_facts.
  simpl.
  destruct (Facts.files w !! _) as [cached|]; simpl.
  1: destruct (String.eqb cached ""); simpl.
  1: repeat split; auto with lia.
  all: destruct (Facts.net E (Facts.api_calls w)); simpl.
  all: try destruct (Facts.can_write E _); simpl.
  all: repeat split; auto with lia.
  all: intros p content Hlookup.
  all: destruct (decide (Facts.cache_path_of
                           (Facts.dates E (Facts.clock_reads w)) = p))
         as [<-|Hne];
       [rewrite lookup_insert_eq in Hlookup; injection Hlookup as <-;
        right; apply cleaned_fact_valid
       |rewrite lookup_insert_ne in Hlookup by exact Hne; now left].
Qed.

Lemma cache_grown_by_facts_trans (a b c : gmap string string) :
  cache_grown_by_facts a b -> cache_grown_by_facts b c ->
  cache_grown_by_facts a c.
Proof.
  intros Hab Hbc path text Hc.
  destruct (Hbc path text Hc) as [Hb|Hvalid]; [|now right].
  exact (Hab path text Hb).
Qed.

Lemma retry_from_footprint (E : Facts.Env) (n : nat) :
  forall (attempt wait_seconds : Z) (w : Facts.World),
    let w' := (Facts.retry_from E n attempt wait_seconds w).2 in
    Facts.current_fact w' = Facts.current_fact w
    /\ (Facts.clock_reads w <= Facts.clock_reads w'
        <= Facts.clock_reads w + n)%nat
    /\ (Facts.api_calls w <= Facts.api_calls w'
        <= Facts.api_calls w + n)%nat
    /\ cache_grown_by_facts (Facts.files w) (Facts.files w').
Proof.
  induction n as [|n IH]; intros attempt wait_seconds w.
  - simpl. repeat split; auto with lia. intros path text Hp. now left.
  - pose proof (fetch_footprint E w) as Hfoot.
    destruct (Facts.FetchOrLoadFactOfTheDay E w) as [r w1] eqn:Hfetch.
    cbn [snd] in Hfoot. destruct Hfoot as (Hfact & Hclock & Hapi & Hcache).
    assert (Hstep :
      Facts.retry_from E (S n) attempt wait_seconds w
      = match r with
        | Facts.Ok fact =>
            if Facts.is_valid_fact fact then (Facts.Ok fact, w1)
            else Facts.retry_from E n (attempt + 1) wait_seconds
                   (after_failed_attempt attempt wait_seconds w1)
        | Facts.Raise => (Facts.Raise, w1)
        end).
    { cbn [Facts.retry_from]. unfold Facts.bind at 1. rewrite Hfetch.
      destruct r as [fact|]; [|reflexivity].
      destruct (Facts.is_valid_fact fact); reflexivity. }
    cbv zeta. rewrite Hstep. clear Hstep.
    destruct r as [fact|].
    2: { cbn [snd]. repeat split; try lia; assumption. }
    destruct (Facts.is_valid_fact fact).
    { cbn [snd]. repeat split; try lia; assumption. }
    destruct (IH (attempt + 1) wait_seconds
                (after_failed_attempt attempt wait_seconds w1))
      as (IHfact & IHclock & IHapi & IHcache).
    simpl in IHfact, IHclock, IHapi, IHcache.
    rewrite IHfact. split; [exact Hfact|]. split; [lia|]. split; [lia|].
    exact (cache_grown_by_facts_trans _ _ _ Hcache IHcache).
Qed.

(** X12: a retry sequence, however it ends, never writes the shared slot;
    it reads the clock and calls the endpoint at most [max_retries] times;
    and every file of the cache is afterwards as it was before or holds a
    labelled fact. *)
Theorem FetchFactWithRetry_footprint
    (E : Facts.Env) (max_retries wait_seconds : Z) (w : Facts.World) :
  let w' := (Facts.FetchFactWithRetry E max_retries wait_seconds w).2 in
  Facts.current_fact w' = Facts.current_fact w
  /\ (Facts.clock_reads w <= Facts.clock_reads w'
      <= Facts.clock_reads w + Z.to_nat max_retries)%nat
  /\ (Facts.api_calls w <= Facts.api_calls w'
      <= Facts.api_calls w + Z.to_nat max_retries)%nat
  /\ cache_grown_by_facts (Facts.files w) (Facts.files w').
Proof. apply retry_from_footprint. Qed.

(** ** Retrying against a failing and against a recovering endpoint *)

Lemma retry_from_step (E : Facts.Env) (n : nat) (attempt wait_seconds : Z)
    (w : Facts.World) :
  Facts.retry_from E (S n) attempt wait_seconds w
  = match Facts.FetchOrLoadFactOfTheDay E w with
    | (Facts.Ok fact, w1) =>
        if Facts.is_valid_fact fact then (Facts.Ok fact, w1)
        else Facts.retry_from E n (attempt + 1) wait_seconds
               (after_failed_attempt attempt wait_seconds w1)
    | (Facts.Raise, w1) => (Facts.Raise, w1)
    end.
Proof.
  cbn [Facts.retry_from]. unfold Facts.bind at 1.
  destruct (Facts.FetchOrLoadFactOfTheDay E w) as [[fact|] w1];
    [|reflexivity].
  destruct (Facts.is_valid_fact fact); reflexivity.
Qed.

(** With nothing cached and the request failing, a call returns one of the
    four failure texts, none of which has the label, and changes neither
    cache nor slot. *)
Lemma failing_fetch (E : Facts.Env) (w : Facts.World) :
  nothing_cached (Facts.files w) ->
  request_fails (Facts.net E (Facts.api_calls w)) = true ->
  exists (fact : string) (w1 : Facts.World),
    Facts.FetchOrLoadFactOfTheDay E w = (Facts.Ok fact, w1)
    /\ Facts.is_valid_fact fact = false
    /\ Facts.files w1 = Facts.files w
    /\ Facts.current_fact w1 = Facts.current_fact w
    /\ Facts.api_calls w1 = S (Facts.api_calls w)
    /\ Facts.clock_reads w1 = S (Facts.clock_reads w).
Proof.
  intros Hnothing Hfails.
  rewrite cache_miss_fetches by apply Hnothing.
  unfold Facts.fetch_from_api, Facts.bind, Facts.emit, Facts.call_api,
    Facts.ret. simpl.
  destruct (Facts.net E (Facts.api_calls w)); try discriminate;
    eexists; eexists; repeat split; reflexivity.
Qed.

Lemma retry_from_offline (E : Facts.Env) (n : nat) :
  forall (attempt wait_seconds : Z) (w : Facts.World),
    nothing_cached (Facts.files w) ->
    (forall i : nat, (i < n)%nat ->
       request_fails (Facts.net E (Facts.api_calls w + i)) = true) ->
    exists w' : Facts.World,
      Facts.retry_from E n attempt wait_seconds w
      = (Facts.Ok Facts.retries_exhausted, w')
      /\ Facts.files w' = Facts.files w
      /\ Facts.current_fact w' = Facts.current_fact w
      /\ Facts.api_calls w' = (Facts.api_calls w + n)%nat
      /\ Facts.clock_reads w' = (Facts.clock_reads w + n)%nat.
Proof.
  induction n as [|n IH]; intros attempt wait_seconds w Hnothing Hfail.
  - exists w. repeat split; simpl; lia.
  - destruct (failing_fetch E w Hnothing) as
      (fact & w1 & Hfetch & Hinvalid & Hfiles & Hfact & Hapi & Hclock).
    { pose proof (Hfail 0%nat (Nat.lt_0_succ n)) as Hfirst.
      now rewrite Nat.add_0_r in Hfirst. }
    rewrite retry_from_step, Hfetch, Hinvalid.
    destruct (IH (attempt + 1) wait_seconds
                (after_failed_attempt attempt wait_seconds w1))
      as (w' & Hret & Hfiles' & Hfact' & Hapi' & Hclock').
    { simpl. now rewrite Hfiles. }
    { intros i Hi. simpl. rewrite Hapi.
      pose proof (Hfail (S i) (proj1 (Nat.succ_lt_mono i n) Hi)) as Hlater.
      now replace (Facts.api_calls w + S i)%nat
        with (S (Facts.api_calls w) + i)%nat in Hlater by lia. }
    exists w'. simpl in Hfiles', Hfact', Hapi', Hclock'.
    split; [exact Hret|]. rewrite Hfiles', Hfact', Hapi', Hclock'.
    repeat split; try assumption; lia.
Qed.

(** X13: with no fact in the cache and every request failing, the retry
    sequence makes exactly [max_retries] requests and returns the failure
    text "Could not fetch fact after retries"; cache and shared slot are
    left as they were. *)
Theorem retry_against_failing_endpoint
    (E : Facts.Env) (max_retries wait_seconds : Z) (w : Facts.World) :
  nothing_cached (Facts.files w) ->
  (forall i : nat, (i < Z.to_nat max_retries)%nat ->
     request_fails (Facts.net E (Facts.api_calls w + i)) = true) ->
  exists w' : Facts.World,
    Facts.FetchFactWithRetry E max_retries wait_seconds w
    = (Facts.Ok Facts.retries_exhausted, w')
    /\ Facts.files w' = Facts.files w
    /\ Facts.current_fact w' = Facts.current_fact w
    /\ Facts.api_calls w' = (Facts.api_calls w + Z.to_nat max_retries)%nat
    /\ Facts.clock_reads w'
       = (Facts.clock_reads w + Z.to_nat max_retries)%nat.
Proof. apply retry_from_offline. Qed.

Lemma nothing_cached_empty : nothing_cached ∅.
Proof. intros today. left. apply lookup_empty. Qed.

Lemma retry_against_failing_endpoint_witness :
  exists w' : Facts.World,
    Facts.FetchFactWithRetry offline 6 10 (world_showing "old")
    = (Facts.Ok "Could not fetch fact after retries", w')
    /\ Facts.files w' = ∅
    /\ Facts.current_fact w' = "old"
    /\ Facts.api_calls w' = 6%nat
    /\ Facts.clock_reads w' = 6%nat.
Proof.
  apply (retry_against_failing_endpoint offline 6 10 (world_showing "old")).
  - apply nothing_cached_empty.
  - intros i _. reflexivity.
Defined.

Lemma retry_from_recovering (E : Facts.Env) (raw : string) (k : nat) :
  forall (n : nat) (attempt wait_seconds : Z) (w : Facts.World),
    (k < n)%nat ->
    nothing_cached (Facts.files w) ->
    (forall i : nat, (i < k)%nat ->
       request_fails (Facts.net E (Facts.api_calls w + i)) = true) ->
    Facts.net E (Facts.api_calls w + k) = Facts.TextField raw ->
    let path :=
      Facts.cache_path_of (Facts.dates E (Facts.clock_reads w + k)) in
    exists w' : Facts.World,
      Facts.retry_from E n attempt wait_seconds w
      = (Facts.Ok (Facts.clean_fact_text raw), w')
      /\ Facts.files w'
         = (if Facts.can_write E path
            then <[path := Facts.clean_fact_text raw]> (Facts.files w)
            else Facts.files w)
      /\ Facts.current_fact w' = Facts.current_fact w
      /\ Facts.api_calls w' = S (Facts.api_calls w + k)
      /\ Facts.fetch_attempts (Facts.log w')
         = S (Facts.fetch_attempts (Facts.log w) + k).
Proof.
  induction k as [|k IH];
    intros n attempt wait_seconds w Hk Hnothing Hfail Hanswer path;
    (destruct n as [|n]; [lia|]); rewrite retry_from_step.
  - subst path. rewrite Nat.add_0_r in *.
    pose proof (fetch_counts_once E w) as Hcount.
    rewrite cache_miss_fetches in * by apply Hnothing.
    unfold Facts.fetch_from_api, Facts.bind, Facts.emit, Facts.call_api,
      Facts.write_file, Facts.ret in *. simpl in *. rewrite Hanswer in *.
    rewrite ?cleaned_fact_valid.
    destruct (Facts.can_write E _); simpl in *;
      eexists; repeat split; simpl; try reflexivity; lia.
  - destruct (failing_fetch E w Hnothing) as
      (fact & w1 & Hfetch & Hinvalid & Hfiles & Hfact & Hapi & Hclock).
    { pose proof (Hfail 0%nat (Nat.lt_0_succ k)) as Hfirst.
      now rewrite Nat.add_0_r in Hfirst. }
    pose proof (fetch_counts_once E w) as Hcount.
    rewrite Hfetch in Hcount |- *. rewrite Hinvalid. cbn [snd] in Hcount.
    destruct (IH n (attempt + 1) wait_seconds
                (after_failed_attempt attempt wait_seconds w1))
      as (w' & Hret & Hfiles' & Hfact' & Hapi' & Hattempts').
    { lia. }
    { simpl. now rewrite Hfiles. }
    { intros i Hi. simpl. rewrite Hapi.
      pose proof (Hfail (S i) (proj1 (Nat.succ_lt_mono i k) Hi)) as Hlater.
      now replace (Facts.api_calls w + S i)%nat
        with (S (Facts.api_calls w) + i)%nat in Hlater by lia. }
    { simpl. rewrite Hapi. rewrite <- Hanswer. f_equal. lia. }
    exists w'. split; [exact Hret|].
    rewrite after_failed_attempt_count in Hattempts'.
    simpl in Hfiles', Hfact', Hapi'.
    rewrite Hfiles', Hfact', Hapi', Hattempts', Hclock, Hfiles, Hfact, Hapi,
      Hcount.
    subst path.
    replace (S (Facts.clock_reads w) + k)%nat
      with (Facts.clock_reads w + S k)%nat by lia.
    repeat split; lia.
Qed.

(** X14: with no fact in the cache, the first [k] requests failing and the
    next one answered with a text, a retry sequence of more than [k]
    attempts returns that text cleaned up and labelled after exactly
    [k + 1] attempts and requests, writes it to the cache file of the day
    (if the file can be written) and to no other, and leaves the shared
    slot alone. *)
Theorem retry_against_recovering_endpoint
    (E : Facts.Env) (raw : string) (k : nat)
    (max_retries wait_seconds : Z) (w : Facts.World) :
  (k < Z.to_nat max_retries)%nat ->
  nothing_cached (Facts.files w) ->
  (forall i : nat, (i < k)%nat ->
     request_fails (Facts.net E (Facts.api_calls w + i)) = true) ->
  Facts.net E (Facts.api_calls w + k) = Facts.TextField raw ->
  let path :=
    Facts.cache_path_of (Facts.dates E (Facts.clock_reads w + k)) in
  exists w' : Facts.World,
    Facts.FetchFactWithRetry E max_retries wait_seconds w
    = (Facts.Ok (Facts.clean_fact_text raw), w')
    /\ Facts.files w'
       = (if Facts.can_write E path
          then <[path := Facts.clean_fact_text raw]> (Facts.files w)
          else Facts.files w)
    /\ Facts.current_fact w' = Facts.current_fact w
    /\ Facts.api_calls w' = S (Facts.api_calls w + k)
    /\ Facts.fetch_attempts (Facts.log w')
       = S (Facts.fetch_attempts (Facts.log w) + k).
Proof. intros Hk. now apply retry_from_recovering. Qed.

(** The spec's scenario: the second request of 2024-01-02 is answered. *)
Lemma retry_against_recovering_endpoint_witness :
  exists w' : Facts.World,
    Facts.FetchFactWithRetry second_request_answered 6 10
      (world_showing "old")
    = (Facts.Ok "Today's fact: Bananas are berries.", w')
    /\ Facts.files w'
       = <["/tmp/cats-cache/2024-01-02.txt" :=
             "Today's fact: Bananas are berries."]> ∅
    /\ Facts.current_fact w' = "old"
    /\ Facts.api_calls w' = 2%nat
    /\ Facts.fetch_attempts (Facts.log w') = 2%nat.
Proof.
  apply (retry_against_recovering_endpoint second_request_answered
           "Bananas are  berries. " 1 6 10 (world_showing "old")).
  - simpl. lia.
  - apply nothing_cached_empty.
  - intros [|i] Hi; [reflexivity|lia].
  - reflexivity.
Defined.

(** ** What the refresh thread publishes *)

Lemma retry_result_fact_or_failure (E : Facts.Env) (n : nat) :
  forall (attempt wait_seconds : Z) (w : Facts.World) (fact : string)
         (w' : Facts.World),
    Facts.retry_from E n attempt wait_seconds w = (Facts.Ok fact, w') ->
    Facts.is_valid_fact fact = true \/ fact = Facts.retries_exhausted.
Proof.
  induction n as [|n IH]; intros attempt wait_seconds w fact w' Hret.
  - injection Hret as <- _. now right.
  - rewrite retry_from_step in Hret.
    destruct (Facts.FetchOrLoadFactOfTheDay E w) as [[fetched|] w1];
      [|discriminate].
    destruct (Facts.is_valid_fact fetched) eqn:Hvalid.
    + injection Hret as <- _. now left.
    + exact (IH _ _ _ _ _ Hret).
Qed.

(** X15: when a wake sees a date it has not handled and the retry sequence
    returns, the wake publishes exactly the text returned, fact or failure
    text, reports it as loaded, records the date and sleeps; it changes
    nothing else. *)
Theorem wake_publishes_what_retry_returns
    (E : Facts.Env) (last_date : string) (w : Facts.World)
    (new_fact : string) (w1 : Facts.World) :
  let today := Facts.dates E (Facts.clock_reads w) in
  today <> last_date ->
  Facts.FetchFactWithRetry E 6 10
    (Facts.emit (Facts.NewDayDetected today last_date)
       (Facts.GetTodayDateLocal E w).2).2
  = (Facts.Ok new_fact, w1) ->
  let woken := Facts.fact_update_wake E last_date w in
  woken.1 = today
  /\ Facts.current_fact woken.2 = new_fact
  /\ Facts.files woken.2 = Facts.files w1
  /\ Facts.api_calls woken.2 = Facts.api_calls w1
  /\ Facts.log woken.2
     = Facts.log w1 ++ [Facts.FactLoaded today new_fact; Facts.Slept 1800].
Proof.
  intros today Hnew Hfetch woken. subst woken.
  rewrite (new_day_wake E last_date w new_fact w1 Hnew Hfetch).
  rewrite (retry_result_is_published E 6 1 10 _ new_fact w1 Hfetch).
  simpl. repeat split. now rewrite <- app_assoc.
Qed.

Lemma wake_publishes_what_retry_returns_witness :
  Facts.current_fact
    (Facts.fact_update_wake second_request_answered "2024-01-01"
       (world_showing "old")).2
  = "Today's fact: Bananas are berries.".
Proof.
  refine (proj1 (proj2 (wake_publishes_what_retry_returns
                          second_request_answered "2024-01-01"
                          (world_showing "old")
                          "Today's fact: Bananas are berries."
                          (Facts.FetchFactWithRetry second_request_answered
                             6 10
                             (Facts.emit
                                (Facts.NewDayDetected "2024-01-02"
                                   "2024-01-01")
                                (Facts.GetTodayDateLocal
                                   second_request_answered
                                   (world_showing "old")).2).2).2
                          _ _))).
  - discriminate.
  - vm_compute. reflexivity.
Defined.

(** A wake whose retry sequence throws: the [catch] reports, the date is
    not recorded and nothing is published. *)
Lemma raising_wake (E : Facts.Env) (last_date : string) (w w1 : Facts.World) :
  let today := Facts.dates E (Facts.clock_reads w) in
  today <> last_date ->
  Facts.FetchFactWithRetry E 6 10
    (Facts.emit (Facts.NewDayDetected today last_date)
       (Facts.GetTodayDateLocal E w).2).2
  = (Facts.Raise, w1) ->
  Facts.fact_update_wake E last_date w
  = (last_date,
     (Facts.emit (Facts.Slept 1800)
        (Facts.emit Facts.ExceptionInFactUpdate w1).2).2).
Proof.
  intros today Hnew Hfetch.
  unfold Facts.fact_update_wake, Facts.fact_update_try.
  unfold Facts.bind at 1. simpl. fold today.
  destruct (String.eqb_spec today last_date) as [Heq|_]; [contradiction|].
  simpl. unfold Facts.bind at 1. simpl.
  unfold Facts.bind at 1.
  simpl in Hfetch. fold today in Hfetch. rewrite Hfetch. reflexivity.
Qed.

Lemma wake_publishes_fact_or_failure (E : Facts.Env) (last_date : string)
    (w : Facts.World) :
  let shown := Facts.current_fact (Facts.fact_update_wake E last_date w).2 in
  shown = Facts.current_fact w
  \/ Facts.is_valid_fact shown = true
  \/ shown = Facts.retries_exhausted.
Proof.
  cbv zeta.
  destruct (String.eqb_spec (Facts.dates E (Facts.clock_reads w)) last_date)
    as [Hsame|Hnew].
  - rewrite same_day_wake by exact Hsame. now left.
  - destruct (Facts.FetchFactWithRetry E 6 10
                (Facts.emit
                   (Facts.NewDayDetected
                      (Facts.dates E (Facts.clock_reads w)) last_date)
                   (Facts.GetTodayDateLocal E w).2).2)
      as [[new_fact|] w1] eqn:Hfetch.
    + rewrite (new_day_wake E last_date w new_fact w1 Hnew Hfetch).
      rewrite (retry_result_is_published E 6 1 10 _ new_fact w1 Hfetch).
      simpl. right.
      exact (retry_result_fact_or_failure E 6 1 10 _ new_fact w1 Hfetch).
    + rewrite (raising_wake E last_date w w1 Hnew Hfetch). simpl. left.
      pose proof (retry_from_footprint E 6 1 10
                    (Facts.emit
                       (Facts.NewDayDetected
                          (Facts.dates E (Facts.clock_reads w)) last_date)
                       (Facts.GetTodayDateLocal E w).2).2) as Hfoot.
      unfold Facts.FetchFactWithRetry in Hfetch.
      change (Z.to_nat 6) with 6%nat in Hfetch.
      rewrite Hfetch in Hfoot. exact (proj1 Hfoot).
Qed.

(** X16: whatever the clock, the cache and the endpoint do, after any
    number of wakes the shared slot holds the text it held at the start,
    or a labelled fact, or the failure text "Could not fetch fact after
    retries": none of the failure texts of a single attempt is ever
    published. *)
Theorem thread_publishes_facts_or_the_retry_failure
    (E : Facts.Env) (wakes : nat) (last_date : string) (w : Facts.World) :
  let shown :=
    Facts.current_fact (Facts.fact_update_loop E wakes last_date w).2 in
  shown = Facts.current_fact w
  \/ Facts.is_valid_fact shown = true
  \/ shown = Facts.retries_exhausted.
Proof.
  cbv zeta. revert last_date w.
  induction wakes as [|wakes IH]; intros last_date w; [now left|].
  cbn [Facts.fact_update_loop].
  pose proof (wake_publishes_fact_or_failure E last_date w) as Hwake.
  destruct (Facts.fact_update_wake E last_date w) as [last_date' w1].
  cbv zeta in Hwake. cbn [snd] in Hwake.
  destruct (IH last_date' w1) as [Hsame|Hnew]; [|now right].
  rewrite Hsame. exact Hwake.
Qed.

Lemma retry_from_attempts_grow (E : Facts.Env) (n : nat) :
  forall (attempt wait_seconds : Z) (w : Facts.World),
    (Facts.fetch_attempts (Facts.log w) + Nat.min 1 n
     <= Facts.fetch_attempts
          (Facts.log (Facts.retry_from E n attempt wait_seconds w).2))%nat.
Proof.
  induction n as [|n IH]; intros attempt wait_seconds w; [simpl; lia|].
  rewrite retry_from_step.
  pose proof (fetch_counts_once E w) as Hcount.
  destruct (Facts.FetchOrLoadFactOfTheDay E w) as [[fact|] w1];
    cbn [snd] in Hcount; [|simpl; lia].
  destruct (Facts.is_valid_fact fact); [simpl; lia|].
  specialize (IH (attempt + 1) wait_seconds
                (after_failed_attempt attempt wait_seconds w1)).
  rewrite after_failed_attempt_count in IH. simpl Nat.min. lia.
Qed.

(** Every wake on a date not handled yet makes at least one attempt. *)
Lemma new_day_wake_attempts (E : Facts.Env) (last_date : string)
    (w : Facts.World) :
  Facts.dates E (Facts.clock_reads w) <> last_date ->
  (S (Facts.fetch_attempts (Facts.log w))
   <= Facts.fetch_attempts
        (Facts.log (Facts.fact_update_wake E last_date w).2))%nat.
Proof.
  intros Hnew.
  pose proof (retry_from_attempts_grow E 6 1 10
                (Facts.emit
                   (Facts.NewDayDetected
                      (Facts.dates E (Facts.clock_reads w)) last_date)
                   (Facts.GetTodayDateLocal E w).2).2) as Hgrow.
  change (Facts.retry_from E 6 1 10) with (Facts.FetchFactWithRetry E 6 10)
    in Hgrow.
  destruct (Facts.FetchFactWithRetry E 6 10 _) as [[new_fact|] w1] eqn:Hfetch.
  - rewrite (new_day_wake E last_date w new_fact w1 Hnew Hfetch).
    cbn [snd] in Hgrow. simpl in Hgrow.
    rewrite fetch_attempts_app in Hgrow.
    destruct (Facts.worth_publishing new_fact); simpl;
      rewrite !fetch_attempts_app; unfold Facts.fetch_attempts in *;
      simpl in *; lia.
  - rewrite (raising_wake E last_date w w1 Hnew Hfetch).
    cbn [snd] in Hgrow. simpl in Hgrow.
    rewrite fetch_attempts_app in Hgrow. simpl.
    rewrite !fetch_attempts_app; unfold Facts.fetch_attempts in *;
      simpl in *; lia.
Qed.

(** X17: when the retry sequence of a wake throws, the wake reports the
    exception and goes to sleep with the date not recorded and the shared
    slot as it was; so the next wake on that date fetches again (unlike
    after a sequence that returned the failure text). *)
Theorem wake_that_throws_is_repeated
    (E : Facts.Env) (last_date : string) (w w1 : Facts.World) :
  let today := Facts.dates E (Facts.clock_reads w) in
  today <> last_date ->
  Facts.FetchFactWithRetry E 6 10
    (Facts.emit (Facts.NewDayDetected today last_date)
       (Facts.GetTodayDateLocal E w).2).2
  = (Facts.Raise, w1) ->
  let woken := Facts.fact_update_wake E last_date w in
  woken.1 = last_date
  /\ Facts.current_fact woken.2 = Facts.current_fact w
  /\ Facts.log woken.2
     = Facts.log w1 ++ [Facts.ExceptionInFactUpdate; Facts.Slept 1800]
  /\ (Facts.dates E (Facts.clock_reads woken.2) = today ->
      (Facts.fetch_attempts (Facts.log woken.2)
       < Facts.fetch_attempts
           (Facts.log (Facts.fact_update_wake E woken.1 woken.2).2))%nat).
Proof.
  intros today Hnew Hfetch woken.
  assert (Hwoken : woken.1 = last_date)
    by (subst woken; now rewrite (raising_wake E last_date w w1 Hnew Hfetch)).
  split; [exact Hwoken|]. split; [|split].
  - subst woken. rewrite (raising_wake E last_date w w1 Hnew Hfetch). simpl.
    pose proof (retry_from_footprint E 6 1 10
                  (Facts.emit (Facts.NewDayDetected today last_date)
                     (Facts.GetTodayDateLocal E w).2).2) as Hfoot.
    unfold Facts.FetchFactWithRetry in Hfetch.
    change (Z.to_nat 6) with 6%nat in Hfetch.
    rewrite Hfetch in Hfoot. exact (proj1 Hfoot).
  - subst woken. rewrite (raising_wake E last_date w w1 Hnew Hfetch). simpl.
    now rewrite <- app_assoc.
  - intros Hagain. rewrite Hwoken.
    apply new_day_wake_attempts. now rewrite Hagain.
Qed.

Lemma wake_that_throws_is_repeated_witness :
  (Facts.fact_update_wake garbled_answers "2024-01-01"
     (world_showing "old")).1 = "2024-01-01"
  /\ Facts.current_fact
       (Facts.fact_update_wake garbled_answers "2024-01-01"
          (world_showing "old")).2 = "old".
Proof.
  destruct (wake_that_throws_is_repeated garbled_answers "2024-01-01"
              (world_showing "old")
              (Facts.FetchFactWithRetry garbled_answers 6 10
                 (Facts.emit
                    (Facts.NewDayDetected "2024-01-02" "2024-01-01")
                    (Facts.GetTodayDateLocal garbled_answers
                       (world_showing "old")).2).2).2
              ltac:(discriminate) ltac:(vm_compute; reflexivity))
    as (Hdate & Hslot & _).
  exact (conj Hdate Hslot).
Defined.

Lemma retry_from_stray_file (E : Facts.Env) (n : nat) :
  forall (attempt wait_seconds : Z) (w : Facts.World),
    (forall i : nat, (i < n)%nat ->
       exists text : string,
         Facts.files w
           !! Facts.cache_path_of (Facts.dates E (Facts.clock_reads w + i))
         = Some text
         /\ text <> "" /\ Facts.is_valid_fact text = false) ->
    exists w' : Facts.World,
      Facts.retry_from E n attempt wait_seconds w
      = (Facts.Ok Facts.retries_exhausted, w')
      /\ Facts.files w' = Facts.files w
      /\ Facts.api_calls w' = Facts.api_calls w
      /\ Facts.clock_reads w' = (Facts.clock_reads w + n)%nat.
Proof.
  induction n as [|n IH]; intros attempt wait_seconds w Hstray.
  - exists w. repeat split; simpl; lia.
  - destruct (Hstray 0%nat (Nat.lt_0_succ n))
      as (text & Hfile & Hne & Hinvalid).
    rewrite Nat.add_0_r in Hfile.
    rewrite retry_from_step, (cache_hit_returns E w text Hfile Hne), Hinvalid.
    destruct (IH (attempt + 1) wait_seconds
                (after_failed_attempt attempt wait_seconds
                   (Facts.emit
                      (Facts.LoadedCachedFact
                         (Facts.dates E (Facts.clock_reads w)))
                      (Facts.GetTodayDateLocal E w).2).2))
      as (w' & Hret & Hfiles & Hapi & Hclock).
    { intros i Hi. simpl.
      destruct (Hstray (S i) (proj1 (Nat.succ_lt_mono i n) Hi))
        as (later & Hlater).
      exists later.
      now replace (S (Facts.clock_reads w + i))
        with (Facts.clock_reads w + S i)%nat by lia. }
    exists w'. simpl in Hfiles, Hapi, Hclock.
    repeat split; try assumption. lia.
Qed.

(** X18: a cache file for the day that is not empty and does not start
    with the label is returned by every attempt and rejected by every
    attempt: the retry sequence ends with the failure text without a
    single request to the endpoint, and the file stays. *)
Theorem stray_cache_file_blocks_the_fetch
    (E : Facts.Env) (max_retries wait_seconds : Z) (w : Facts.World) :
  (forall i : nat, (i < Z.to_nat max_retries)%nat ->
     exists text : string,
       Facts.files w
         !! Facts.cache_path_of (Facts.dates E (Facts.clock_reads w + i))
       = Some text
       /\ text <> "" /\ Facts.is_valid_fact text = false) ->
  exists w' : Facts.World,
    Facts.FetchFactWithRetry E max_retries wait_seconds w
    = (Facts.Ok Facts.retries_exhausted, w')
    /\ Facts.files w' = Facts.files w
    /\ Facts.api_calls w' = Facts.api_calls w
    /\ Facts.clock_reads w'
       = (Facts.clock_reads w + Z.to_nat max_retries)%nat.
Proof. apply retry_from_stray_file. Qed.

Lemma stray_cache_file_blocks_the_fetch_witness :
  exists w' : Facts.World,
    Facts.FetchFactWithRetry second_request_answered 6 10
      world_with_stray_file
    = (Facts.Ok "Could not fetch fact after retries", w')
    /\ Facts.files w' = Facts.files world_with_stray_file
    /\ Facts.api_calls w' = 0%nat
    /\ Facts.clock_reads w' = 6%nat.
Proof.
  apply (stray_cache_file_blocks_the_fetch second_request_answered 6 10
           world_with_stray_file).
  intros i _. exists "hello". repeat split; discriminate.
Defined.

(** ** Frames and delays once more *)

Lemma mod_mod_multiple (i a q : nat) :
  ((i mod (a * q)) mod a = i mod a)%nat.
Proof.
  rewrite Nat.Div0.mod_mul_r, (Nat.mul_comm a), Nat.Div0.mod_add.
  apply Nat.Div0.mod_mod.
Qed.

Lemma mod_max_of_divisor (i a b : nat) :
  (0 < a)%nat -> Nat.divide b a ->
  Nat.max a b = a /\ ((i mod a) mod b = i mod b)%nat.
Proof.
  intros Ha [q Hq].
  assert (Hle : (b <= a)%nat) by (destruct q; simpl in Hq; lia).
  split; [lia|]. rewrite Hq, (Nat.mul_comm q b). apply mod_mod_multiple.
Qed.

(** X19: when the shorter animation's length divides the longer one's,
    restarting the counter at [max a b] cuts no cycle short: the [i]-th
    iteration of the plain viewer shows frame [i mod a] of the left and
    frame [i mod b] of the right source, for every [i]. *)
Theorem dividing_lengths_show_frame_i_mod_length
    (left_images right_images : ImageVector) (n i : nat) :
  left_images <> [] -> right_images <> [] ->
  Nat.divide (length right_images) (length left_images)
  \/ Nat.divide (length left_images) (length right_images) ->
  (i < n)%nat ->
  Dual.ShowDualAnimatedImages left_images right_images n !! i
  = Some [ DoClear;
           DoCopyImage LeftSide (i mod length left_images)%nat
                       Dual.LEFT_IMAGE_X 0;
           DoCopyImage RightSide (i mod length right_images)%nat
                       Dual.RIGHT_IMAGE_X 0;
           DoSwapOnVSync;
           DoUsleep
             (usleep_usec
                (frame_delay left_images right_images
                   (i mod Nat.max (length left_images)
                                  (length right_images)))) ].
Proof.
  intros Hleft Hright Hdiv Hi.
  rewrite (Dual_iteration _ _ n i Hleft Hi). unfold Dual.animated_body.
  cbn [snd].
  assert (Ha : (0 < length left_images)%nat)
    by (destruct left_images; [congruence|simpl; lia]).
  assert (Hb : (0 < length right_images)%nat)
    by (destruct right_images; [congruence|simpl; lia]).
  destruct Hdiv as [Hdiv|Hdiv].
  - destruct (mod_max_of_divisor i _ _ Ha Hdiv) as [-> ->].
    now rewrite Nat.Div0.mod_mod.
  - destruct (mod_max_of_divisor i _ _ Hb Hdiv) as [Hmax Hmod].
    rewrite Nat.max_comm, Hmax, Hmod. now rewrite Nat.Div0.mod_mod.
Qed.

Lemma dividing_lengths_show_frame_i_mod_length_witness :
  Dual.ShowDualAnimatedImages
    (replicate 2 (frame_with_delay 10)) (replicate 4 (frame_with_delay 4))
    8 !! 7%nat
  = Some [ DoClear;
           DoCopyImage LeftSide 1 Dual.LEFT_IMAGE_X 0;
           DoCopyImage RightSide 3 Dual.RIGHT_IMAGE_X 0;
           DoSwapOnVSync;
           DoUsleep 40000 ].
Proof.
  apply (dividing_lengths_show_frame_i_mod_length
           (replicate 2 (frame_with_delay 10))
           (replicate 4 (frame_with_delay 4)) 8 7).
  - discriminate.
  - discriminate.
  - right. exists 2%nat. reflexivity.
  - lia.
Defined.

Lemma or_default_delay_bounds (delay bound : Z) :
  10 <= bound -> delay <= bound ->
  0 < or_default_delay delay <= bound.
Proof.
  intros Hbound Hdelay. unfold or_default_delay.
  destruct (Z.leb_spec delay 0); lia.
Qed.

(** A delay Magick reports between 0 and a bound is stored as an [int]
    that does not exceed the bound. *)
Lemma delay_of_le (image : Image) (bound : Z) :
  0 <= animationDelay image <= bound -> delay_of image <= bound.
Proof.
  intros Hd. pose proof (delay_of_range image) as Hrange.
  destruct (Z.le_gt_cases (animationDelay image) INT_MAX) as [Hfits|Hbig].
  - unfold delay_of. rewrite to_int_fits by lia. lia.
  - lia.
Qed.

(** While the product fits an [int], [usleep] gets [delay * 10000]. *)
Lemma usleep_usec_fits (delay : Z) :
  0 <= delay <= 214748 -> usleep_usec delay = delay * 10000.
Proof.
  intros Hd. unfold usleep_usec, to_size_t.
  rewrite to_int_fits by (unfold INT_MAX; lia).
  apply Z.mod_small. lia.
Qed.

(** X20: the delay an animated loop sleeps is always positive; if all
    frame delays of the two sources are between 0 and some bound of at
    least 10, it does not exceed that bound; and if that bound is at most
    214748 hundredths of a second, [usleep] is handed the delay times
    10000, with no wrap-around of the [int] product. *)
Theorem frame_delay_positive_and_bounded
    (left_images right_images : ImageVector) (f : nat) :
  0 < frame_delay left_images right_images f
  /\ (forall bound : Z,
        10 <= bound ->
        Forall (fun image => 0 <= animationDelay image <= bound)
               (left_images ++ right_images) ->
        frame_delay left_images right_images f <= bound)
  /\ (forall bound : Z,
        10 <= bound <= 214748 ->
        Forall (fun image => 0 <= animationDelay image <= bound)
               (left_images ++ right_images) ->
        usleep_usec (frame_delay left_images right_images f)
        = frame_delay left_images right_images f * 10000).
Proof.
  assert (Hpos : 0 < frame_delay left_images right_images f).
  { unfold frame_delay, or_default_delay.
    match goal with |- 0 < (if ?c <=? 0 then _ else _) =>
      destruct (Z.leb_spec c 0) end; lia. }
  assert (Hle : forall bound : Z,
            10 <= bound ->
            Forall (fun image => 0 <= animationDelay image <= bound)
                   (left_images ++ right_images) ->
            frame_delay left_images right_images f <= bound).
  { intros bound Hbound Hall. apply Forall_app in Hall as [Hl Hr].
    unfold frame_delay.
    apply or_default_delay_bounds; [exact Hbound|].
    destruct (left_images !! f) as [l|] eqn:Hlf;
      destruct (right_images !! f) as [r|] eqn:Hrf.
    - pose proof (delay_of_le l bound
                    (proj1 (Forall_lookup _ _) Hl f l Hlf)) as Hdl.
      pose proof (delay_of_le r bound
                    (proj1 (Forall_lookup _ _) Hr f r Hrf)) as Hdr.
      pose proof (delay_of_range l) as Hrl.
      pose proof (delay_of_range r) as Hrr.
      destruct (Z.ltb_spec 0 (delay_of l)); [|exact Hdr].
      apply Z.quot_le_upper_bound; [lia|].
      destruct (Z.le_gt_cases (delay_of l + delay_of r) INT_MAX)
        as [Hfits|Hover].
      + rewrite to_int_fits by lia. lia.
      + rewrite to_int_wraps by lia. unfold INT_MAX in *. lia.
    - exact (delay_of_le l bound (proj1 (Forall_lookup _ _) Hl f l Hlf)).
    - exact (delay_of_le r bound (proj1 (Forall_lookup _ _) Hr f r Hrf)).
    - lia. }
  split; [exact Hpos|]. split; [exact Hle|].
  intros bound Hbound Hall. apply usleep_usec_fits.
  specialize (Hle bound ltac:(lia) Hall). lia.
Qed.

Lemma frame_delay_positive_and_bounded_witness :
  frame_delay (replicate 3 (frame_with_delay 10))
              (replicate 5 (frame_with_delay 4)) 1 <= 10
  /\ usleep_usec (frame_delay (replicate 3 (frame_with_delay 10))
                              (replicate 5 (frame_with_delay 4)) 1)
     = frame_delay (replicate 3 (frame_with_delay 10))
                   (replicate 5 (frame_with_delay 4)) 1 * 10000.
Proof.
  split.
  - apply (proj1 (proj2 (frame_delay_positive_and_bounded
                    (replicate 3 (frame_with_delay 10))
                    (replicate 5 (frame_with_delay 4)) 1)) 10).
    + lia.
    + simpl. repeat constructor; simpl; lia.
  - apply (proj2 (proj2 (frame_delay_positive_and_bounded
                    (replicate 3 (frame_with_delay 10))
                    (replicate 5 (frame_with_delay 4)) 1)) 10).
    + lia.
    + simpl. repeat constructor; simpl; lia.
Defined.

(** ** Where the clock is drawn *)

(** X21: "rough centering" with 4 pixels per character keeps a text of
    [len] characters inside the gap between the images exactly when
    [len <= 4] in the weather variant (gap of 16 columns from 24) and when
    [len <= 6] in the fact variant (gap of 28 columns from 18): the five
    characters of "HH:MM" start two columns left of the gap in the weather
    variant, at column 22, and fit in the fact variant, at column 20. *)
Theorem clock_text_fits_the_gap (len : Z) :
  0 <= len ->
  (Weather.CLOCK_X <= Weather.centered_x len
   /\ Weather.centered_x len + 4 * len
      <= Weather.CLOCK_X + Weather.CLOCK_WIDTH
   <-> len <= 4)
  /\ (Facts.CLOCK_X <= Facts.centered_x len
      /\ Facts.centered_x len + 4 * len <= Facts.CLOCK_X + Facts.CLOCK_WIDTH
      <-> len <= 6)
  /\ (len = 5 -> Weather.centered_x len = 22 /\ Facts.centered_x len = 20).
Proof.
  intros Hlen.
  unfold Weather.centered_x, Facts.centered_x, Weather.CLOCK_X,
    Weather.CLOCK_WIDTH, Facts.CLOCK_X, Facts.CLOCK_WIDTH.
  replace (16 - len * 4) with ((8 - 2 * len) * 2) by lia.
  replace (28 - len * 4) with ((14 - 2 * len) * 2) by lia.
  rewrite !Z.quot_mul by lia.
  repeat split; intros; lia.
Qed.

Lemma clock_text_fits_the_gap_witness :
  Weather.DrawClock "12:00" "01/02"
  = [ Weather.CallDrawText 22 12 "12:00";
      Weather.CallDrawText 22 20 "01/02" ]
  /\ Weather.centered_x 5 = 22.
Proof.
  split; [reflexivity|].
  apply (proj2 (proj2 (clock_text_fits_the_gap 5 ltac:(lia)))).
  reflexivity.
Defined.
